(** * CX::Lambda / CX::AllocLambda: a shallow embedding of [cx/lambda.h]

    The development follows the header top-down: first the compile-time
    part ([LambdaMetaFunctions], the [CompatibleLambda] predicate), then the
    run-time part (buffers, wrapper records, the operations of
    [LambdaOperationBase], the public [Lambda] and [AllocLambda] types),
    and finally the properties. *)

From Stdlib Require Import NArith Bool List String Lia.
From stdpp Require Import base option gmap.

Local Open Scope N_scope.

(* ===================================================================== *)
(** ** Compile-time part: lambda identity and compatibility               *)
(* ===================================================================== *)

Module LambdaMetaFunctions.

(** Types that occur in a function prototype.  Only their identity
    matters to [SameType]. *)
Inductive TypeName : Set :=
| Void | Bool | Char | Int | Float | Double
| Pointer (pointee : TypeName).

(** A function prototype, the template argument of [Lambda<...>]:
    [R (Args...)], [R (Args...) noexcept], [R (Args..., ...)] and
    [R (Args..., ...) noexcept]. *)
Record Prototype : Set := mkPrototype {
  ReturnType : TypeName;
  ArgumentTypes : list TypeName;
  CVariadic : bool;
  Noexcept : bool
}.

(** Class templates taking one type argument. *)
Inductive Template : Set :=
| Lambda
| AllocLambda
| Dummy.

(** A type handed to the meta-functions: either a specialization
    [L<Prototype>] of a unary template or some other type. *)
Inductive CxxType : Set :=
| Specialization (L : Template) (P : Prototype)
| Plain (t : TypeName).

#[global] Instance TypeName_eq_dec : EqDecision TypeName.
Proof. solve_decision. Defined.
#[global] Instance Prototype_eq_dec : EqDecision Prototype.
Proof. solve_decision. Defined.
#[global] Instance Template_eq_dec : EqDecision Template.
Proof. solve_decision. Defined.
#[global] Instance CxxType_eq_dec : EqDecision CxxType.
Proof. solve_decision. Defined.

(** Modelled from the spec: [CX::SameType], [CX::SameTemplateType],
    [CX::MatchAnyTemplateType] and [CX::NoexceptFunction] are declared in
    [cx/templates.h] and [cx/idioms.h]; they are the identity comparison
    on types, on templates, membership of a template in a pack, and the
    noexcept qualifier of a function type. *)
Definition SameType (P1 P2 : Prototype) : bool := bool_decide (P1 = P2).
Definition SameTemplateType (T1 T2 : Template) : bool := bool_decide (T1 = T2).
Definition MatchAnyTemplateType (T : Template) (Ts : list Template) : bool :=
  existsb (SameTemplateType T) Ts.
Definition NoexceptFunction (P : Prototype) : bool := Noexcept P.

Definition IsLambdaTemplate (T : Template) : bool :=
  MatchAnyTemplateType T [Lambda; AllocLambda].

Definition IsLambda (T : CxxType) : bool :=
  match T with
  | Specialization L _ => IsLambdaTemplate L
  | Plain _ => false
  end.

Definition IsNonAllocLambda (T : CxxType) : bool :=
  match T with
  | Specialization L _ => SameTemplateType L Lambda
  | Plain _ => false
  end.

Definition IsAllocLambda (T : CxxType) : bool :=
  match T with
  | Specialization L _ => SameTemplateType L AllocLambda
  | Plain _ => false
  end.

(** [LambdaMetaFunctions::CompatibleLambda<T1, T2>::Value].  The primary
    template is [FalseType].  Both partial specializations match
    [L1<Prototype1>, L2<Prototype2>]; the constraint of the second one
    contains the constraint of the first, so it is the one selected
    whenever it is satisfied. *)
Definition CompatibleLambda (T1 T2 : CxxType) : bool :=
  match T1, T2 with
  | Specialization L1 Prototype1, Specialization L2 Prototype2 =>
      if IsLambdaTemplate L1 && IsLambdaTemplate L2
         && negb (NoexceptFunction Prototype1)
         && NoexceptFunction Prototype2
      then true                                  (* : TrueType *)
      else if IsLambdaTemplate L1 && IsLambdaTemplate L2
      then SameType Prototype1 Prototype2
      else false                                 (* : FalseType *)
  | _, _ => false
  end.

End LambdaMetaFunctions.

(** The concept [CX::CompatibleLambda<L2, L1>]: note the swapped argument
    order.  In [template<CompatibleLambda<Lambda> L> Lambda(L const &)] the
    concept is instantiated as [CompatibleLambda<L, Lambda>], so [L2] is
    the source type and [L1] the receiving type. *)
Module CX.
Definition CompatibleLambda (L2 L1 : LambdaMetaFunctions.CxxType) : bool :=
  LambdaMetaFunctions.CompatibleLambda L1 L2.
End CX.

(** *** Initializing a lambda of one type from a lambda of another

    What [Destination d{source}] (or [static_cast<Destination>(source)])
    selects among the members the lambda classes declare, for [Source] and
    [Destination] two lambda types:
    - the copy constructor [Lambda(Lambda const &)] of [Destination], when
      [Source] is [Destination] itself;
    - the converting constructor
      [template<CompatibleLambda<Lambda> L> Lambda(L const &)] of
      [Destination]: its constraint is [CompatibleLambda<L, Lambda>] with
      [L] the source type and [Lambda] the class that declares it, the
      destination;
    - the conversion function
      [template<CompatibleLambda<Lambda> L> explicit operator L() const] of
      [Source], whose result the move constructor of [Destination] takes:
      its constraint is again [CompatibleLambda<L, Lambda>], but here [L]
      is the destination type and [Lambda] the class that declares it, the
      source.
    A constructor that takes the source as it is is a better match than the
    copy or move constructor behind a conversion function. *)
Inductive Initialization : Set :=
| CopyConstructor
| ConvertingConstructor
| ConversionFunction
| IllFormed.

Definition converting_constructor_viable
    (Destination Source : LambdaMetaFunctions.CxxType) : bool :=
  CX.CompatibleLambda Source Destination.

Definition conversion_function_viable
    (Source Destination : LambdaMetaFunctions.CxxType) : bool :=
  CX.CompatibleLambda Destination Source.

Definition direct_initialization
    (Destination Source : LambdaMetaFunctions.CxxType) : Initialization :=
  if bool_decide (Source = Destination) then CopyConstructor
  else if converting_constructor_viable Destination Source then ConvertingConstructor
  else if conversion_function_viable Source Destination then ConversionFunction
  else IllFormed.

(* ===================================================================== *)
(** ** Run-time part: configuration and layout                            *)
(* ===================================================================== *)

(** *** The configuration block at the head of the header

    [#if defined(CX_LAMBDA_BUF_ALIGN) || defined(CX_LAMBDA_BUF_SIZE)] and
    what follows it up to the matching [#endif].  A macro is either not
    defined or defined to an integer; in the controlling expression of
    [#if] an identifier that is not a macro evaluates to 0.  The block
    issues [#error] diagnostics and leaves the two macros defined or
    not. *)
Definition Macro : Set := option N.

Definition defined (m : Macro) : bool :=
  match m with Some _ => true | None => false end.

Definition evaluate (m : Macro) : N :=
  match m with Some n => n | None => 0 end.

Record Preprocessed : Set := mkPreprocessed {
  diagnostics : list string;
  defined_CX_LAMBDA_BUF_ALIGN : Macro;
  defined_CX_LAMBDA_BUF_SIZE : Macro
}.

Definition missing_align_error : string :=
  "You must specify 'CX_LAMBDA_BUF_ALIGN' when overriding 'CX_LAMBDA_BUF_SIZE'".
Definition missing_size_error : string :=
  "You must specify 'CX_LAMBDA_BUF_SIZE' when overriding 'CX_LAMBDA_BUF_ALIGN'".
Definition align_below_size_error : string :=
  "'CX_LAMBDA_BUF_ALIGN' must be greater than or equal to 'CX_LAMBDA_BUF_SIZE'".

(** [sizeof_pointer] is [sizeof(void * )], which the defaults multiply
    by 8.  [ALIGN] and [SIZE] are the definitions in force when the header
    is included. *)
Definition configuration (sizeof_pointer : N) (ALIGN SIZE : Macro) : Preprocessed :=
  if defined ALIGN || defined SIZE then
    mkPreprocessed
      ((if negb (defined ALIGN) then [missing_align_error] else [])      (* #ifndef *)
       ++ (if defined SIZE then [missing_size_error] else [])            (* #ifdef *)
       ++ (if evaluate ALIGN <? evaluate SIZE
           then [align_below_size_error] else []))                       (* #if *)
      ALIGN SIZE
  else
    mkPreprocessed [] (Some (sizeof_pointer * 8)) (Some (sizeof_pointer * 8)).

(** What the compiler fixes and the header only names: the two
    configuration macros and the [sizeof]/[alignof] of the two stub
    records.  The two proof fields are the header's [static_assert]s on
    [CX_LAMBDA_BUF_ALIGN] and [CX_LAMBDA_BUF_SIZE]. *)
Class Layout := mkLayout {
  CX_LAMBDA_BUF_SIZE : N;
  CX_LAMBDA_BUF_ALIGN : N;
  sizeof_NonAllocLambdaWrapperStub : N;
  alignof_NonAllocLambdaWrapperStub : N;
  sizeof_AllocLambdaWrapperStub : N;
  alignof_AllocLambdaWrapperStub : N;
  static_assert_align :
    alignof_NonAllocLambdaWrapperStub <= CX_LAMBDA_BUF_ALIGN;
  static_assert_size :
    sizeof_NonAllocLambdaWrapperStub <= CX_LAMBDA_BUF_SIZE
}.

(** A concrete callable type [F] as the templates see it: the size and
    alignment of the two wrapper records instantiated with it, whether its
    call operator is [noexcept], and whether it is a class type
    ([CX::Struct]) or a plain function pointer ([CX::StaticFunction]). *)
Record FunctionType : Set := mkFunctionType {
  sizeof_NonAllocLambdaWrapper : N;
  alignof_NonAllocLambdaWrapper : N;
  sizeof_AllocLambdaWrapper : N;
  alignof_AllocLambdaWrapper : N;
  NoexceptFunction : bool;
  Struct : bool
}.

(** The template argument [Wrapper] of [checkOrReallocate] and of
    [copyInitWrapper]/[moveInitWrapper]. *)
Inductive WrapperType : Set :=
| TNonAllocLambdaWrapperStub
| TAllocLambdaWrapperStub
| TNonAllocLambdaWrapper (F : FunctionType)
| TAllocLambdaWrapper (F : FunctionType).

Definition sizeof `{Layout} (W : WrapperType) : N :=
  match W with
  | TNonAllocLambdaWrapperStub => sizeof_NonAllocLambdaWrapperStub
  | TAllocLambdaWrapperStub => sizeof_AllocLambdaWrapperStub
  | TNonAllocLambdaWrapper F => sizeof_NonAllocLambdaWrapper F
  | TAllocLambdaWrapper F => sizeof_AllocLambdaWrapper F
  end.

Definition alignof `{Layout} (W : WrapperType) : N :=
  match W with
  | TNonAllocLambdaWrapperStub => alignof_NonAllocLambdaWrapperStub
  | TAllocLambdaWrapperStub => alignof_AllocLambdaWrapperStub
  | TNonAllocLambdaWrapper F => alignof_NonAllocLambdaWrapper F
  | TAllocLambdaWrapper F => alignof_AllocLambdaWrapper F
  end.

(** [LambdaOperationBase::WrapperType<F, Prototype>] and
    [LambdaOperationBase::EmptyWrapperType], selected by [Allocating]. *)
Definition WrapperTypeOf (Allocating : bool) (F : FunctionType) : WrapperType :=
  if Allocating then TAllocLambdaWrapper F else TNonAllocLambdaWrapper F.

Definition EmptyWrapperType (Allocating : bool) : WrapperType :=
  if Allocating then TAllocLambdaWrapperStub else TNonAllocLambdaWrapperStub.

(** Exceptions that can reach a caller. *)
Inductive Exception : Set :=
| UninitializedLambdaError
| IncompatibleLambdaError (message : string)
| ForeignException (code : N).

(** How a call of the wrapped callable itself completes. *)
Inductive Completion (R : Type) : Type :=
| Normal (r : R)
| Abrupt (e : Exception).
Arguments Normal {R} r.
Arguments Abrupt {R} e.

(* ===================================================================== *)
(** ** Run-time part: records, storage and the effect monad               *)
(* ===================================================================== *)

(** Addresses are positive numbers.  [ptr] is [void *], with [None] for
    [nullptr].  A [Lambda] embeds its buffer: the object is identified with
    the address [&buf()].  An [AllocLambda] is its one data member, the
    shared pointer [buffer]. *)
Abbreviation ptr := (option positive) (only parsing).
Abbreviation Lambda := positive (only parsing).
Abbreviation AllocLambda := (option positive) (only parsing).

Section LambdaModel.

Context {Args R : Type}.
Context `{Layout}.

(** A callable object [f] of type [F].  [fbody] is what [f(args...)] does.
    Copying or moving [f] is taken to complete: the callables considered
    are those whose copy and move constructors do not throw (function
    pointers, closures over trivially copyable captures). *)
Record Callable : Type := mkCallable {
  ftype : FunctionType;
  fbody : Args -> Completion R
}.

(** The records that can live in a buffer: the four classes derived from
    [LambdaBase<Prototype>], with their data members. *)
Inductive Wrapper : Type :=
| NonAllocLambdaWrapperStub (bufSize bufAlignment : N)
| AllocLambdaWrapperStub (bufSize bufAlignment : N)
| NonAllocLambdaWrapper (f : Callable)
| AllocLambdaWrapper (f : Callable) (bufSize bufAlignment : N).

(** A region of storage: the size and alignment it was obtained with, and
    the record currently alive in it, if any.  [None] is raw storage:
    fresh from [operator new], or after the record's destructor ran. *)
Record Block : Type := mkBlock {
  block_size : N;
  block_align : N;
  object : option Wrapper
}.

(** The store.  [memory] holds the inline buffers of [Lambda] objects and
    the heap buffers of [AllocLambda] objects; [owners] holds the use count
    (at least one) of the [std::shared_ptr] control block managing a heap
    buffer. *)
Record State : Type := mkState {
  memory : gmap positive Block;
  owners : gmap positive positive
}.

(** The result of running an operation from a state. *)
Inductive Outcome (A : Type) : Type :=
| Returns (a : A) (s : State)       (* normal return *)
| Throws (e : Exception) (s : State) (* an exception leaves the operation *)
| Terminated                        (* [std::terminate] *)
| Undefined.                        (* the C++ standard gives no meaning *)
Arguments Returns {A} a s.
Arguments Throws {A} e s.
Arguments Terminated {A}.
Arguments Undefined {A}.

Definition M (A : Type) : Type := State -> Outcome A.

#[global] Instance M_ret : MRet M := fun A a s => Returns a s.

#[global] Instance M_bind : MBind M := fun A B k m s =>
  match m s with
  | Returns a s' => k a s'
  | Throws e s' => Throws e s'
  | Terminated => Terminated
  | Undefined => Undefined
  end.

Definition throw {A : Type} (e : Exception) : M A := fun s => Throws e s.
Definition undefined {A : Type} : M A := fun _ => Undefined.

(** A [noexcept] function boundary: an exception that would leave it
    calls [std::terminate]. *)
Definition noexcept {A : Type} (m : M A) : M A := fun s =>
  match m s with
  | Throws _ _ => Terminated
  | o => o
  end.

(** [f(args...)]: calling the callable object directly. *)
Definition invoke (f : Callable) (args : Args) : M R := fun s =>
  match fbody f args with
  | Normal r => Returns r s
  | Abrupt e => if NoexceptFunction (ftype f) then Terminated else Throws e s
  end.

(** *** Storage primitives *)

(** Obtaining storage of a given size and alignment: a fresh block,
    raw.  Running out of storage is not modelled. *)
Definition storage (size alignment : N) : M positive := fun s =>
  let a := fresh (dom (memory s)) in
  Returns a
    (mkState (<[a := mkBlock size alignment None]> (memory s)) (owners s)).

(** [operator new(size, (std::align_val_t)alignment)]. *)
Definition operator_new (size alignment : N) : M ptr :=
  a ← storage size alignment; mret (Some a).

(** [operator delete(ptr, (std::align_val_t)alignment)]: the alignment
    must be the one the block was obtained with. *)
Definition operator_delete (p : ptr) (alignment : N) : M unit := fun s =>
  match p with
  | Some a =>
      match memory s !! a with
      | Some b =>
          if bool_decide (block_align b = alignment)
          then Returns tt (mkState (delete a (memory s)) (owners s))
          else Undefined
      | None => Undefined
      end
  | None => Returns tt s
  end.

(** [*(LambdaBase<Prototype> * )p] used for a virtual call: there must be a
    live record at [p]. *)
Definition deref (p : ptr) : M Wrapper := fun s =>
  match p with
  | Some a =>
      match memory s !! a with
      | Some (mkBlock _ _ (Some w)) => Returns w s
      | _ => Undefined
      end
  | None => Undefined
  end.

(** [new (p) W{...}]: placement new of the record [w] into storage.  The
    record's constructor copies or moves the callable into it, which
    completes (see [Callable]). *)
Definition placement_new (p : ptr) (w : Wrapper) : M unit := fun s =>
  match p with
  | Some a =>
      match memory s !! a with
      | Some (mkBlock sz al _) =>
          Returns tt (mkState (<[a := mkBlock sz al (Some w)]> (memory s)) (owners s))
      | None => Undefined
      end
  | None => Undefined
  end.

(** *** The virtual interface of [LambdaBase] *)

Definition allocates (w : Wrapper) : bool :=
  match w with
  | NonAllocLambdaWrapperStub _ _ => false
  | AllocLambdaWrapperStub _ _ => true
  | NonAllocLambdaWrapper _ => false
  | AllocLambdaWrapper _ _ _ => true
  end.

Definition typeSize (w : Wrapper) : N :=
  match w with
  | NonAllocLambdaWrapperStub _ _ => sizeof TNonAllocLambdaWrapperStub
  | AllocLambdaWrapperStub _ _ => sizeof TAllocLambdaWrapperStub
  | NonAllocLambdaWrapper f => sizeof (TNonAllocLambdaWrapper (ftype f))
  | AllocLambdaWrapper f _ _ => sizeof (TAllocLambdaWrapper (ftype f))
  end.

Definition typeAlignment (w : Wrapper) : N :=
  match w with
  | NonAllocLambdaWrapperStub _ _ => alignof TNonAllocLambdaWrapperStub
  | AllocLambdaWrapperStub _ _ => alignof TAllocLambdaWrapperStub
  | NonAllocLambdaWrapper f => alignof (TNonAllocLambdaWrapper (ftype f))
  | AllocLambdaWrapper f _ _ => alignof (TAllocLambdaWrapper (ftype f))
  end.

Definition bufferSize (w : Wrapper) : N :=
  match w with
  | NonAllocLambdaWrapperStub bufSize _ => bufSize
  | AllocLambdaWrapperStub bufSize _ => bufSize
  | NonAllocLambdaWrapper _ => CX_LAMBDA_BUF_SIZE
  | AllocLambdaWrapper _ bufSize _ => bufSize
  end.

Definition bufferAlignment (w : Wrapper) : N :=
  match w with
  | NonAllocLambdaWrapperStub _ bufAlignment => bufAlignment
  | AllocLambdaWrapperStub _ bufAlignment => bufAlignment
  | NonAllocLambdaWrapper _ => CX_LAMBDA_BUF_ALIGN
  | AllocLambdaWrapper _ _ bufAlignment => bufAlignment
  end.

Definition present (w : Wrapper) : bool :=
  match w with
  | NonAllocLambdaWrapperStub _ _ => false
  | AllocLambdaWrapperStub _ _ => false
  | NonAllocLambdaWrapper _ => true
  | AllocLambdaWrapper _ _ _ => true
  end.

(** [virtual R op(Args...)]: the base version throws, the wrappers
    override it with [return f(args...)]. *)
Definition op (w : Wrapper) (args : Args) : M R :=
  match w with
  | NonAllocLambdaWrapperStub _ _ => throw UninitializedLambdaError
  | AllocLambdaWrapperStub _ _ => throw UninitializedLambdaError
  | NonAllocLambdaWrapper f => invoke f args
  | AllocLambdaWrapper f _ _ => invoke f args
  end.

(** [virtual R noexceptOp(Args...) noexcept]. *)
Definition noexceptOp (w : Wrapper) (args : Args) : M R :=
  noexcept
    match w with
    | NonAllocLambdaWrapperStub _ _ => throw UninitializedLambdaError
    | AllocLambdaWrapperStub _ _ => throw UninitializedLambdaError
    | NonAllocLambdaWrapper f => invoke f args
    | AllocLambdaWrapper f _ _ => invoke f args
    end.

(** [LambdaBase<R (Args..., ...)>::FptrWrapper]: the raw invocable of a
    c-variadic lambda.  [memberPtr] records whether the member-function
    pointer is set ([lo || hi]). *)
Record FptrWrapper : Type := mkFptrWrapper {
  fptrOrInst : Callable;
  memberPtr : bool
}.

(** [FptrWrapper::invoke<Noexcept, Varargs...>].  Both branches call the
    target with [args..., varargs...]; for a c-variadic prototype [Args]
    stands for the fixed arguments together with the trailing ones. *)
Definition FptrWrapper_invoke (Noexcept : bool) (w : FptrWrapper) (args : Args) : M R :=
  let body :=
    if memberPtr w
    then invoke (fptrOrInst w) args   (* member function on the instance *)
    else invoke (fptrOrInst w) args   (* static function *)
  in if Noexcept then noexcept body else body.

(** [virtual FptrWrapper get()]: the base version throws. *)
Definition get (w : Wrapper) : M FptrWrapper :=
  match w with
  | NonAllocLambdaWrapperStub _ _ => throw UninitializedLambdaError
  | AllocLambdaWrapperStub _ _ => throw UninitializedLambdaError
  | NonAllocLambdaWrapper f => mret (mkFptrWrapper f (Struct (ftype f)))
  | AllocLambdaWrapper f _ _ => mret (mkFptrWrapper f (Struct (ftype f)))
  end.

(** [LambdaBase<R (Args..., ...)>::op<Noexcept, Varargs...>]. *)
Definition op_variadic (Noexcept : bool) (w : Wrapper) (args : Args) : M R :=
  let body := fw ← get w; FptrWrapper_invoke Noexcept fw args in
  if Noexcept then noexcept body else body.

(* ===================================================================== *)
(** ** [Internal]: the operations of [LambdaOperationBase]                 *)
(* ===================================================================== *)

Definition wrapperBufferCheck
    (srcSize srcAlignment dstSize dstAlignment : N) : M unit :=
  if dstSize <? srcSize then
    throw (IncompatibleLambdaError
      "Receiving lambda does not have a large enough buffer to contain the assigned lambda's buffer")
  else if dstAlignment <? srcAlignment then
    throw (IncompatibleLambdaError
      "Receiving lambda's buffer is not aligned properly to receive the assigned lambda's buffer")
  else mret tt.

(** The two messages, as [what()] returns them. *)
Definition size_message : string :=
  "Receiving lambda does not have a large enough buffer to contain the assigned lambda's buffer".

(** [checkOrReallocate<Wrapper>(buffer, size, alignment)].  [buffer] is a
    [void **] and [size], [alignment] are references: the three values the
    call leaves behind are returned. *)
Definition checkOrReallocate (W : WrapperType)
    (buffer : ptr) (size alignment : N) : M (ptr * N * N) :=
  let wrapperSize := sizeof W in
  let wrapperAlignment := alignof W in
  if (size =? 0) && (alignment =? 0) then
    let size := N.max CX_LAMBDA_BUF_SIZE wrapperSize in
    let alignment := N.max CX_LAMBDA_BUF_ALIGN wrapperAlignment in
    buffer ← operator_new size alignment;
    mret (buffer, size, alignment)
  else if (size <? wrapperSize) || (alignment <? wrapperAlignment) then
    buffer ← operator_new wrapperSize wrapperAlignment;
    mret (buffer, wrapperSize, wrapperAlignment)
  else mret (buffer, size, alignment).

(** The record [Wrapper{func, bufSize, bufAlignment}] built by
    [copyInitWrapper] and [moveInitWrapper]; the non-allocating wrapper
    ignores the two buffer properties. *)
Definition construct (Allocating : bool) (func : Callable)
    (bufSize bufAlignment : N) : Wrapper :=
  if Allocating then AllocLambdaWrapper func bufSize bufAlignment
  else NonAllocLambdaWrapper func.

(** [LambdaOperationBase<_, _, Allocating>::copyInitWrapper<Wrapper>], with
    [Wrapper] the wrapper of [func] selected by [Alloc].  Whether the record
    is copy-constructed or default-constructed and then assigned, the buffer
    ends up holding the same record. *)
Definition copyInitWrapper (Allocating : bool) (Alloc : bool)
    (buf : ptr) (bufSize bufAlignment : N) (func : Callable) : M unit :=
  let W := WrapperTypeOf Alloc (ftype func) in
  (if negb Allocating
   then wrapperBufferCheck (sizeof W) (alignof W) bufSize bufAlignment
   else mret tt);;
  placement_new buf (construct Alloc func bufSize bufAlignment).

Definition moveInitWrapper (Allocating : bool) (Alloc : bool)
    (buf : ptr) (bufSize bufAlignment : N) (func : Callable) : M unit :=
  let W := WrapperTypeOf Alloc (ftype func) in
  (if negb Allocating
   then wrapperBufferCheck (sizeof W) (alignof W) bufSize bufAlignment
   else mret tt);;
  placement_new buf (construct Alloc func bufSize bufAlignment).

(** [lambdaAssignBufferCheck<T, Size, Alignment>]: the condition of its two
    [static_assert]s on the wrapper of [T].  Both compare [alignof]. *)
Definition lambdaAssignBufferCheck (T : FunctionType) (Size Alignment : N) : bool :=
  (alignof (TNonAllocLambdaWrapper T) <=? Alignment)
  && (alignof (TNonAllocLambdaWrapper T) <=? Size).

(** [destroy(buffer)]: runs the destructor of the record in the buffer. *)
Definition destroy (buffer : ptr) : M unit := fun s =>
  match buffer with
  | Some a =>
      match memory s !! a with
      | Some (mkBlock sz al (Some _)) =>
          Returns tt (mkState (<[a := mkBlock sz al None]> (memory s)) (owners s))
      | _ => Undefined
      end
  | None => Undefined
  end.

(** [sharedBufferDeleter(ptr)]. *)
Definition sharedBufferDeleter (p : ptr) : M unit :=
  match p with
  | Some _ =>
      base ← deref p;
      let alignment := bufferAlignment base in
      destroy p;;
      operator_delete p alignment
  | None => mret tt
  end.

(** *** [std::shared_ptr<unsigned char>] with [sharedBufferDeleter] *)

(** One more owner of the buffer at [p]. *)
Definition shared_ptr_acquire (p : ptr) : M unit := fun s =>
  match p with
  | Some a =>
      match owners s !! a with
      | Some n => Returns tt (mkState (memory s) (<[a := Pos.succ n]> (owners s)))
      | None => Undefined
      end
  | None => Returns tt s
  end.

(** One owner fewer; the last one runs the deleter. *)
Definition shared_ptr_release (p : ptr) : M unit := fun s =>
  match p with
  | Some a =>
      match owners s !! a with
      | Some 1%positive =>
          sharedBufferDeleter p (mkState (memory s) (delete a (owners s)))
      | Some n => Returns tt (mkState (memory s) (<[a := Pos.pred n]> (owners s)))
      | None => Undefined
      end
  | None => Returns tt s
  end.

(** [dst = src]. *)
Definition shared_ptr_assign (dst src : ptr) : M ptr :=
  shared_ptr_acquire src;;
  shared_ptr_release dst;;
  mret src.

(** [buf.reset()]. *)
Definition shared_ptr_reset (buf : ptr) : M ptr :=
  shared_ptr_release buf;;
  mret None.

(** [buf.reset(bufPtr, sharedBufferDeleter)]: a new control block for
    [bufPtr], then the old buffer is released. *)
Definition shared_ptr_reset_to (buf bufPtr : ptr) : M ptr :=
  (fun s => match bufPtr with
            | Some a => Returns tt (mkState (memory s) (<[a := 1%positive]> (owners s)))
            | None => Returns tt s
            end);;
  shared_ptr_release buf;;
  mret bufPtr.

(** [allocLambdaBufferOp(buf, op)].  [op] receives the address of the local
    [bufPtr]; here it receives its value and returns the value it leaves. *)
Definition allocLambdaBufferOp (buf : ptr) (op : ptr -> M ptr) : M ptr :=
  let bufPtr := buf in
  bufPtr ← op bufPtr;
  if bool_decide (bufPtr ≠ buf)
  then shared_ptr_reset_to buf bufPtr
  else mret buf.

(** [LambdaOperationBase<_, _, Allocating>::initEmptyLambda].  Returns the
    buffer the stub was constructed in. *)
Definition initEmptyLambda (Allocating : bool)
    (buffer : ptr) (size alignment : N) : M ptr :=
  if Allocating then
    '(bufPtr, size, alignment) ←
      checkOrReallocate (EmptyWrapperType true) buffer size alignment;
    placement_new bufPtr (AllocLambdaWrapperStub size alignment);;
    mret bufPtr
  else
    wrapperBufferCheck (sizeof (EmptyWrapperType false))
      (alignof (EmptyWrapperType false)) size alignment;;
    placement_new buffer (NonAllocLambdaWrapperStub size alignment);;
    mret buffer.

(** [virtual void copyTo(dstBufPtr, dstBufSize, dstBufAlignment, allocating)],
    one case per overriding class.  Returns the value left in [*dstBufPtr]. *)
Definition copyTo (w : Wrapper) (dstBufPtr : ptr)
    (dstBufSize dstBufAlignment : N) (allocating : bool) : M ptr :=
  match w with
  | NonAllocLambdaWrapperStub _ _ =>
      if allocating then
        '(dstBufPtr, dstBufSize, dstBufAlignment) ←
          checkOrReallocate TNonAllocLambdaWrapperStub
            dstBufPtr dstBufSize dstBufAlignment;
        placement_new dstBufPtr
          (AllocLambdaWrapperStub dstBufSize dstBufAlignment);;
        mret dstBufPtr
      else
        wrapperBufferCheck (typeSize w) (typeAlignment w)
          dstBufSize dstBufAlignment;;
        placement_new dstBufPtr
          (NonAllocLambdaWrapperStub dstBufSize dstBufAlignment);;
        mret dstBufPtr
  | AllocLambdaWrapperStub _ _ =>
      if allocating then
        '(dstBufPtr, dstBufSize, dstBufAlignment) ←
          checkOrReallocate TAllocLambdaWrapperStub
            dstBufPtr dstBufSize dstBufAlignment;
        placement_new dstBufPtr
          (AllocLambdaWrapperStub dstBufSize dstBufAlignment);;
        mret dstBufPtr
      else
        wrapperBufferCheck (sizeof TNonAllocLambdaWrapperStub)
          (alignof TNonAllocLambdaWrapperStub) dstBufSize dstBufAlignment;;
        placement_new dstBufPtr
          (NonAllocLambdaWrapperStub dstBufSize dstBufAlignment);;
        mret dstBufPtr
  | NonAllocLambdaWrapper f =>
      if allocating then
        '(dstBufPtr, dstBufSize, dstBufAlignment) ←
          checkOrReallocate (TAllocLambdaWrapper (ftype f))
            dstBufPtr dstBufSize dstBufAlignment;
        copyInitWrapper true true dstBufPtr dstBufSize dstBufAlignment f;;
        mret dstBufPtr
      else
        copyInitWrapper false false dstBufPtr dstBufSize dstBufAlignment f;;
        mret dstBufPtr
  | AllocLambdaWrapper f _ _ =>
      if allocating then
        '(dstBufPtr, dstBufSize, dstBufAlignment) ←
          checkOrReallocate (TAllocLambdaWrapper (ftype f))
            dstBufPtr dstBufSize dstBufAlignment;
        copyInitWrapper true true dstBufPtr dstBufSize dstBufAlignment f;;
        mret dstBufPtr
      else
        wrapperBufferCheck (sizeof (TNonAllocLambdaWrapper (ftype f)))
          (alignof (TNonAllocLambdaWrapper (ftype f)))
          dstBufSize dstBufAlignment;;
        copyInitWrapper false false dstBufPtr dstBufSize dstBufAlignment f;;
        mret dstBufPtr
  end.

(** *** [assignFunctionCommon<F, Copy>(l, f)] *)

(** The local closure [getProperties]. *)
Definition getProperties (lBufPtr : ptr) : M (N * N) :=
  lBase ← deref lBufPtr;
  mret (bufferSize lBase, bufferAlignment lBase).

(** The local closure [assign]. *)
Definition assign (Allocating Copy : bool)
    (lBufPtr : ptr) (lSize lAlignment : N) (f : Callable) : M unit :=
  destroy lBufPtr;;
  if Copy
  then copyInitWrapper Allocating Allocating lBufPtr lSize lAlignment f
  else moveInitWrapper Allocating Allocating lBufPtr lSize lAlignment f.

(** The instantiation for [L = AllocLambda<...>] ([Allocating = true]). *)
Definition assignFunctionCommon_AllocLambda (Copy : bool)
    (l : AllocLambda) (f : Callable) : M AllocLambda :=
  allocLambdaBufferOp l (fun ptr =>
    let lBufPtr := ptr in
    '(lSize, lAlignment) ← getProperties lBufPtr;
    '(lBufPtr, lSize, lAlignment) ←
      checkOrReallocate (WrapperTypeOf true (ftype f)) lBufPtr lSize lAlignment;
    assign true Copy lBufPtr lSize lAlignment f;;
    mret lBufPtr).

(** The instantiation for [L = Lambda<...>] ([Allocating = false]). *)
Definition assignFunctionCommon_Lambda (Copy : bool)
    (l : Lambda) (f : Callable) : M unit :=
  let lBufPtr := Some l in
  '(lSize, lAlignment) ← getProperties lBufPtr;
  assign false Copy lBufPtr lSize lAlignment f.

Definition copyAssignFunction_Lambda := assignFunctionCommon_Lambda true.
Definition moveAssignFunction_Lambda := assignFunctionCommon_Lambda false.
Definition copyAssignFunction_AllocLambda := assignFunctionCommon_AllocLambda true.
Definition moveAssignFunction_AllocLambda := assignFunctionCommon_AllocLambda false.

(** *** [copyAssignLambda(l1, l2)] *)

(** The local closure [copyBuffer]; returns the value left in [*buf1Ptr]. *)
Definition copyBuffer (Allocating : bool) (buf1 buf2 : ptr) : M ptr :=
  let buf1Ptr := buf1 in
  l1Base ← deref buf1Ptr;
  let buf1Size := bufferSize l1Base in
  let buf1Alignment := bufferAlignment l1Base in
  destroy buf1Ptr;;
  l2Base ← deref buf2;
  copyTo l2Base buf1Ptr buf1Size buf1Alignment Allocating.

(** [Lambda<...> <- Lambda<...>]. *)
Definition copyAssignLambda_Lambda_Lambda (l1 l2 : Lambda) : M unit :=
  copyBuffer false (Some l1) (Some l2);; mret tt.

(** [AllocLambda<...> <- AllocLambda<...>]: [l1.buffer = l2.buffer]. *)
Definition copyAssignLambda_AllocLambda_AllocLambda
    (l1 l2 : AllocLambda) : M AllocLambda :=
  shared_ptr_assign l1 l2.

(** [AllocLambda<...> <- Lambda<...>]. *)
Definition copyAssignLambda_AllocLambda_Lambda
    (l1 : AllocLambda) (l2 : Lambda) : M AllocLambda :=
  allocLambdaBufferOp l1 (fun bufPtr => copyBuffer true bufPtr (Some l2)).

(** The branch [Lambda<...> <- AllocLambda<...>] of [copyAssignLambda]
    names [l2.buf()], which [AllocLambda] does not declare: it has no
    instantiation.  The move below reads [l2.buffer.get()] instead. *)

(** *** [moveAssignLambda(l1, l2)] *)

(** The local closure [moveBuffer].  [L2Alloc] is [IsAllocLambda<L2>].  The
    buffer pointer that re-initializing [buf2] leaves is written to the
    closure's own parameter and dropped. *)
Definition moveBuffer (Allocating L2Alloc : bool) (buf1 buf2 : ptr) : M ptr :=
  let buf1Ptr := buf1 in
  l1Base ← deref buf1Ptr;
  let buf1Size := bufferSize l1Base in
  let buf1Alignment := bufferAlignment l1Base in
  destroy buf1Ptr;;
  l2Base ← deref buf2;
  let buf2Size := bufferSize l2Base in
  let buf2Alignment := bufferAlignment l2Base in
  buf1Ptr ← copyTo l2Base buf1Ptr buf1Size buf1Alignment Allocating;
  destroy buf2;;
  initEmptyLambda L2Alloc buf2 buf2Size buf2Alignment;;
  mret buf1Ptr.

(** [Lambda<...> <- Lambda<...>]. *)
Definition moveAssignLambda_Lambda_Lambda (l1 l2 : Lambda) : M unit :=
  moveBuffer false false (Some l1) (Some l2);; mret tt.

(** [AllocLambda<...> <- AllocLambda<...>]; returns the new [l1] and [l2]. *)
Definition moveAssignLambda_AllocLambda_AllocLambda
    (l1 l2 : AllocLambda) : M (AllocLambda * AllocLambda) :=
  l1 ← shared_ptr_assign l1 l2;
  l2 ← shared_ptr_reset l2;
  l2 ← allocLambdaBufferOp l2 (fun bufPtr => initEmptyLambda true bufPtr 0 0);
  mret (l1, l2).

(** [Lambda<...> <- AllocLambda<...>]. *)
Definition moveAssignLambda_Lambda_AllocLambda
    (l1 : Lambda) (l2 : AllocLambda) : M unit :=
  moveBuffer false true (Some l1) l2;; mret tt.

(** [AllocLambda<...> <- Lambda<...>]. *)
Definition moveAssignLambda_AllocLambda_Lambda
    (l1 : AllocLambda) (l2 : Lambda) : M AllocLambda :=
  allocLambdaBufferOp l1 (fun bufPtr => moveBuffer true false bufPtr (Some l2)).

(* ===================================================================== *)
(** ** The public types [Lambda<...>] and [AllocLambda<...>]               *)
(* ===================================================================== *)

(** The four prototypes a lambda template is specialized for. *)
Inductive Specialization : Set :=
| Unqualified            (* R (Args...) *)
| NoexceptQualified      (* R (Args...) noexcept *)
| CVariadic              (* R (Args..., ...) *)
| CVariadicNoexcept.     (* R (Args..., ...) noexcept *)

(** [PrototypeRestriction<F>] of a specialization, as far as it is not
    already expressed by the types [Args] and [R]: the [noexcept]
    specializations admit only callables whose prototype is [noexcept]. *)
Definition PrototypeRestriction (S : Specialization) (F : FunctionType) : bool :=
  match S with
  | Unqualified | CVariadic => true
  | NoexceptQualified | CVariadicNoexcept => NoexceptFunction F
  end.

(** The body of a delegating constructor.  Every constructor but the
    default one is written [: Lambda() { operator=(...); }]: once the target
    constructor has completed the object counts as constructed, so when
    the body is left by an exception the destructor of the object runs
    before the exception goes on to the caller.  An exception leaving the
    destructor calls [std::terminate]. *)
Definition unwinding {A : Type} (body : M A) (destructor : M unit) : M A := fun s =>
  match body s with
  | Throws e s' =>
      match destructor s' with
      | Returns _ s'' => Throws e s''
      | Throws _ _ => Terminated
      | Terminated => Terminated
      | Undefined => Undefined
      end
  | o => o
  end.

(** [~Lambda()]: destroys the record in the buffer. *)
Definition Lambda_destructor (l : Lambda) : M unit := destroy (Some l).

(** [~AllocLambda() = default]: the destructor of the member [buffer]. *)
Definition AllocLambda_destructor (l : AllocLambda) : M unit :=
  shared_ptr_release l.

(** [Lambda()]: the object's embedded buffer, [alignas(Alignment) unsigned
    char buffer[Size]], initialized with the empty record. *)
Definition Lambda_default : M Lambda :=
  let Size := CX_LAMBDA_BUF_SIZE in
  let Alignment := CX_LAMBDA_BUF_ALIGN in
  buf ← storage Size Alignment;
  initEmptyLambda false (Some buf) Size Alignment;;
  mret buf.

(** [Lambda& operator=(F const &f)] and [Lambda& operator=(F &&f)].  The
    [static_assert]s of [lambdaAssignBufferCheck<F, Size, Alignment>] are
    conditions on the program text, not steps of the call. *)
Definition Lambda_assign_function (Copy : bool) (l : Lambda) (f : Callable) : M unit :=
  if Copy then copyAssignFunction_Lambda l f else moveAssignFunction_Lambda l f.

(** [Lambda(F const &f)] and [Lambda(F &&f)]: [: Lambda()] and then
    [operator=<F>(f)]. *)
Definition Lambda_from_function (Copy : bool) (f : Callable) : M Lambda :=
  l ← Lambda_default;
  unwinding (Lambda_assign_function Copy l f) (Lambda_destructor l);;
  mret l.

(** [Lambda(Lambda const &l)] and [Lambda(Lambda &&l)]. *)
Definition Lambda_copy (l2 : Lambda) : M Lambda :=
  l ← Lambda_default;
  unwinding (copyAssignLambda_Lambda_Lambda l l2) (Lambda_destructor l);;
  mret l.

Definition Lambda_move (l2 : Lambda) : M Lambda :=
  l ← Lambda_default;
  unwinding (moveAssignLambda_Lambda_Lambda l l2) (Lambda_destructor l);;
  mret l.

(** [R operator()(Args... args)] of the four [Lambda] specializations.
    [args] are the values the parameters hold: initializing a parameter
    from the caller's argument is the caller's step, and handing the
    values on to the record's operation is taken to complete. *)
Definition Lambda_call (S : Specialization) (l : Lambda) (args : Args) : M R :=
  match S with
  | Unqualified =>
      base ← deref (Some l); op base args
  | NoexceptQualified =>
      noexcept (base ← deref (Some l); noexceptOp base args)
  | CVariadic =>
      base ← deref (Some l); op_variadic false base args
  | CVariadicNoexcept =>
      base ← deref (Some l); op_variadic true base args
  end.

(** [operator bool() const noexcept]. *)
Definition Lambda_present (l : Lambda) : M bool :=
  base ← deref (Some l); mret (present base).

(** [AllocLambda()]. *)
Definition AllocLambda_default : M AllocLambda :=
  allocLambdaBufferOp None (fun bufPtr => initEmptyLambda true bufPtr 0 0).

(** [AllocLambda& operator=(F const &f)] and [operator=(F &&f)]. *)
Definition AllocLambda_assign_function (Copy : bool)
    (l : AllocLambda) (f : Callable) : M AllocLambda :=
  if Copy then copyAssignFunction_AllocLambda l f
  else moveAssignFunction_AllocLambda l f.

(** [AllocLambda(F const &f)] and [AllocLambda(F &&f)]. *)
Definition AllocLambda_from_function (Copy : bool) (f : Callable) : M AllocLambda :=
  l ← AllocLambda_default;
  unwinding (AllocLambda_assign_function Copy l f) (AllocLambda_destructor l).

(** [AllocLambda(AllocLambda const &l)]. *)
Definition AllocLambda_copy (l2 : AllocLambda) : M AllocLambda :=
  l ← AllocLambda_default;
  unwinding (copyAssignLambda_AllocLambda_AllocLambda l l2) (AllocLambda_destructor l).

(** [R operator()(Args... args) const] of [AllocLambda<R (Args...)>], the
    one specialization of [AllocLambda] that has members. *)
Definition AllocLambda_call (l : AllocLambda) (args : Args) : M R :=
  base ← deref l; op base args.

Definition AllocLambda_present (l : AllocLambda) : M bool :=
  base ← deref l; mret (present base).

(** The properties of the buffer an [AllocLambda] currently reports. *)
Definition AllocLambda_bufferSize (l : AllocLambda) : M N :=
  base ← deref l; mret (bufferSize base).

Definition AllocLambda_bufferAlignment (l : AllocLambda) : M N :=
  base ← deref l; mret (bufferAlignment base).

(** *** The remaining constructors *)

(** [AllocLambda(AllocLambda &&l)]; returns the new lambda and the value
    left in [l]. *)
Definition AllocLambda_move (l2 : AllocLambda) : M (AllocLambda * AllocLambda) :=
  l ← AllocLambda_default;
  unwinding (moveAssignLambda_AllocLambda_AllocLambda l l2) (AllocLambda_destructor l).

(** [AllocLambda(L const &l)] at [L = Lambda<...>].  The conversion
    operator of [Lambda], [explicit operator L() const], is
    [return L{*this}], that is this constructor at [L = AllocLambda<...>]. *)
Definition AllocLambda_from_Lambda (l2 : Lambda) : M AllocLambda :=
  l ← AllocLambda_default;
  unwinding (copyAssignLambda_AllocLambda_Lambda l l2) (AllocLambda_destructor l).

(** [moveAssignLambda(l, l)] on an [AllocLambda]: [a = std::move(a)].  Both
    references of the [AllocLambda <- AllocLambda] branch name the one
    object, so each of its three statements reads and writes the one
    member [buffer]; returns the value left in it. *)
Definition moveAssignLambda_AllocLambda_self (l : AllocLambda) : M AllocLambda :=
  l ← shared_ptr_assign l l;
  l ← shared_ptr_reset l;
  allocLambdaBufferOp l (fun bufPtr => initEmptyLambda true bufPtr 0 0).

(** *** Converting a [Lambda] to a [Lambda] of another prototype

    How an evaluation that may call itself stands after a bounded number
    of nested calls. *)
Inductive Evaluation (A : Type) : Type :=
| Completed (o : Outcome A)   (* it ended, with this outcome *)
| Pending                     (* it needs more nested calls than the bound *)
| NoSuchCall.                 (* the expression is ill-formed *)
Arguments Completed {A} o.
Arguments Pending {A}.
Arguments NoSuchCall {A}.

(** [Lambda<Destination>{l2}] for [l2] a [Lambda<Source>], with [Source] a
    prototype [R (Args...)], evaluated with at most [depth] nested calls of
    the conversion function of [Lambda<R (Args...)>],
    [explicit operator L() const { return L{*this}; }].  The copy
    constructor and the converting constructor both run [Lambda()] and
    [copyAssignLambda]; behind the conversion function the move constructor
    takes the temporary, which is then destroyed. *)
Fixpoint Lambda_from_Lambda (depth : nat)
    (Destination Source : LambdaMetaFunctions.Prototype)
    (l2 : Lambda) (s : State) {struct depth} : Evaluation Lambda :=
  match direct_initialization
          (LambdaMetaFunctions.Specialization LambdaMetaFunctions.Lambda Destination)
          (LambdaMetaFunctions.Specialization LambdaMetaFunctions.Lambda Source) with
  | CopyConstructor => Completed (Lambda_copy l2 s)
  | ConvertingConstructor => Completed (Lambda_copy l2 s)
  | ConversionFunction =>
      match depth with
      | O => Pending
      | S depth =>
          match Lambda_from_Lambda depth Destination Source l2 s with
          | Completed (Returns temporary s') =>
              Completed ((l ← Lambda_move temporary;
                          Lambda_destructor temporary;;
                          mret l) s')
          | evaluation => evaluation
          end
      end
  | IllFormed => NoSuchCall
  end.

(** *** Relocation, record by record

    What [copyTo] constructs in the destination: for an inline
    destination the non-allocating counterpart of the record, for a heap
    destination the allocating one, carrying the destination's buffer
    properties.  [inline_record] and [heap_record] are the record types
    whose size and alignment [copyTo] checks. *)
Definition inline_record (w : Wrapper) : WrapperType :=
  match w with
  | NonAllocLambdaWrapperStub _ _ => TNonAllocLambdaWrapperStub
  | AllocLambdaWrapperStub _ _ => TNonAllocLambdaWrapperStub
  | NonAllocLambdaWrapper f => TNonAllocLambdaWrapper (ftype f)
  | AllocLambdaWrapper f _ _ => TNonAllocLambdaWrapper (ftype f)
  end.

Definition relocate_inline (w : Wrapper) (bufSize bufAlignment : N) : Wrapper :=
  match w with
  | NonAllocLambdaWrapperStub _ _ => NonAllocLambdaWrapperStub bufSize bufAlignment
  | AllocLambdaWrapperStub _ _ => NonAllocLambdaWrapperStub bufSize bufAlignment
  | NonAllocLambdaWrapper f => NonAllocLambdaWrapper f
  | AllocLambdaWrapper f _ _ => NonAllocLambdaWrapper f
  end.

Definition heap_record (w : Wrapper) : WrapperType :=
  match w with
  | NonAllocLambdaWrapperStub _ _ => TNonAllocLambdaWrapperStub
  | AllocLambdaWrapperStub _ _ => TAllocLambdaWrapperStub
  | NonAllocLambdaWrapper f => TAllocLambdaWrapper (ftype f)
  | AllocLambdaWrapper f _ _ => TAllocLambdaWrapper (ftype f)
  end.

Definition relocate_heap (w : Wrapper) (bufSize bufAlignment : N) : Wrapper :=
  match w with
  | NonAllocLambdaWrapperStub _ _ => AllocLambdaWrapperStub bufSize bufAlignment
  | AllocLambdaWrapperStub _ _ => AllocLambdaWrapperStub bufSize bufAlignment
  | NonAllocLambdaWrapper f => AllocLambdaWrapper f bufSize bufAlignment
  | AllocLambdaWrapper f _ _ => AllocLambdaWrapper f bufSize bufAlignment
  end.

(** The condition under which [checkOrReallocate<W>] keeps the buffer. *)
Definition sufficient (W : WrapperType) (size alignment : N) : bool :=
  negb ((size =? 0) && (alignment =? 0))
  && negb ((size <? sizeof W) || (alignment <? alignof W)).

(** The size and alignment [checkOrReallocate<W>] allocates when it does
    not keep the buffer. *)
Definition reallocated (W : WrapperType) (size alignment : N) : N * N :=
  if (size =? 0) && (alignment =? 0)
  then (N.max CX_LAMBDA_BUF_SIZE (sizeof W), N.max CX_LAMBDA_BUF_ALIGN (alignof W))
  else (sizeof W, alignof W).

(** The callable a record wraps, if any. *)
Definition wrapped (w : Wrapper) : option Callable :=
  match w with
  | NonAllocLambdaWrapperStub _ _ => None
  | AllocLambdaWrapperStub _ _ => None
  | NonAllocLambdaWrapper f => Some f
  | AllocLambdaWrapper f _ _ => Some f
  end.

(** *** Conditions on the store *)

(** The buffer of a [Lambda] in its regular condition: storage of the
    configured size and alignment, holding a record of a non-allocating
    class that reports these two values and is itself no larger and no
    more aligned. *)
Definition Lambda_invariant (s : State) (l : positive) : Prop :=
  exists w,
    memory s !! l = Some (mkBlock CX_LAMBDA_BUF_SIZE CX_LAMBDA_BUF_ALIGN (Some w))
    /\ allocates w = false
    /\ bufferSize w = CX_LAMBDA_BUF_SIZE
    /\ bufferAlignment w = CX_LAMBDA_BUF_ALIGN
    /\ typeSize w <= CX_LAMBDA_BUF_SIZE
    /\ typeAlignment w <= CX_LAMBDA_BUF_ALIGN.

(** The heap buffer of an [AllocLambda] in its regular condition: it holds
    a record of an allocating class that reports the size and alignment
    the storage was obtained with and is itself no larger and no more
    aligned. *)
Definition AllocLambda_invariant (s : State) (a : positive) : Prop :=
  exists bs ba w,
    memory s !! a = Some (mkBlock bs ba (Some w))
    /\ allocates w = true
    /\ bufferSize w = bs
    /\ bufferAlignment w = ba
    /\ typeSize w <= bs
    /\ typeAlignment w <= ba.

(** Every control block manages a buffer that is allocated. *)
Definition owners_allocated (s : State) : Prop :=
  dom (owners s) ⊆ dom (memory s).

(** *** Relations describing reallocation and release *)

(** The three ways [checkOrReallocate] can go. *)
Inductive Reallocation (W : WrapperType) (buffer : ptr) (size alignment : N)
    (s : State) : ptr * N * N -> State -> Prop :=
| FirstAllocation (a : positive) :
    size = 0 -> alignment = 0 -> memory s !! a = None ->
    Reallocation W buffer size alignment s
      (Some a, N.max CX_LAMBDA_BUF_SIZE (sizeof W),
               N.max CX_LAMBDA_BUF_ALIGN (alignof W))
      (mkState (<[a := mkBlock (N.max CX_LAMBDA_BUF_SIZE (sizeof W))
                               (N.max CX_LAMBDA_BUF_ALIGN (alignof W)) None]>
                  (memory s)) (owners s))
| Growth (a : positive) :
    ~ (size = 0 /\ alignment = 0) ->
    size < sizeof W \/ alignment < alignof W ->
    memory s !! a = None ->
    Reallocation W buffer size alignment s
      (Some a, sizeof W, alignof W)
      (mkState (<[a := mkBlock (sizeof W) (alignof W) None]> (memory s))
               (owners s))
| Sufficient :
    ~ (size = 0 /\ alignment = 0) ->
    sizeof W <= size -> alignof W <= alignment ->
    Reallocation W buffer size alignment s (buffer, size, alignment) s.

(** The three ways an owner can let go of a buffer. *)
Inductive Released (p : option positive) (s : State) : State -> Prop :=
| ReleasedNull :
    p = None -> Released p s s
| ReleasedShared a n :
    p = Some a -> owners s !! a = Some n -> n <> 1%positive ->
    Released p s (mkState (memory s) (<[a := Pos.pred n]> (owners s)))
| ReleasedLast a bs w :
    p = Some a -> owners s !! a = Some 1%positive ->
    memory s !! a = Some (mkBlock bs (bufferAlignment w) (Some w)) ->
    Released p s (mkState (delete a (memory s)) (delete a (owners s))).

End LambdaModel.

Arguments Callable : clear implicits.
Arguments Wrapper : clear implicits.
Arguments Block : clear implicits.
Arguments State : clear implicits.
Arguments Outcome : clear implicits.
Arguments M : clear implicits.
Arguments Returns {Args R A} a s.
Arguments Throws {Args R A} e s.
Arguments Terminated {Args R A}.
Arguments Undefined {Args R A}.
Arguments Completed {Args R A} o.
Arguments Pending {Args R A}.
Arguments NoSuchCall {Args R A}.
Arguments mkCallable {Args R} ftype fbody.
Arguments mkBlock {Args R} block_size block_align object.
Arguments mkState {Args R} memory owners.

(** The state before anything was constructed. *)
Definition initial {Args R : Type} : State Args R := mkState ∅ ∅.

(* ===================================================================== *)
(** ** A concrete platform and concrete callables                          *)
(* ===================================================================== *)

(** A 64-bit platform with the default configuration
    ([sizeof(void * ) * 8] for both macros), a stub record of a vtable
    pointer and two words. *)
#[local] Program Instance LP64 : Layout := {|
  CX_LAMBDA_BUF_SIZE := 64;
  CX_LAMBDA_BUF_ALIGN := 64;
  sizeof_NonAllocLambdaWrapperStub := 24;
  alignof_NonAllocLambdaWrapperStub := 8;
  sizeof_AllocLambdaWrapperStub := 24;
  alignof_AllocLambdaWrapperStub := 8
|}.
Next Obligation. lia. Qed.
Next Obligation. lia. Qed.

(** The prototypes [int (int)] and [int (int) noexcept]. *)
Definition int_of_int : LambdaMetaFunctions.Prototype :=
  LambdaMetaFunctions.mkPrototype LambdaMetaFunctions.Int [LambdaMetaFunctions.Int]
    false false.
Definition int_of_int_noexcept : LambdaMetaFunctions.Prototype :=
  LambdaMetaFunctions.mkPrototype LambdaMetaFunctions.Int [LambdaMetaFunctions.Int]
    false true.

(** A function object capturing one word. *)
Definition Small : FunctionType := mkFunctionType 16 8 32 8 false true.
Definition successor : Callable N N :=
  mkCallable Small (fun x => Normal (x + 1)).
Definition add_hundred : Callable N N :=
  mkCallable Small (fun x => Normal (x + 100)).

(** A function object capturing six words: its non-allocating wrapper
    (56 bytes) fits the inline buffer, its allocating wrapper (72 bytes)
    does not fit the default heap buffer. *)
Definition Medium : FunctionType := mkFunctionType 56 8 72 8 false true.
Definition double : Callable N N :=
  mkCallable Medium (fun x => Normal (x * 2)).

(** A function object capturing eight words: its non-allocating wrapper
    (72 bytes) does not fit the inline buffer. *)
Definition Large : FunctionType := mkFunctionType 72 8 88 8 false true.
Definition triple : Callable N N :=
  mkCallable Large (fun x => Normal (x * 3)).

(** Function objects whose non-allocating wrapper is exactly as large as
    the inline buffer, and one byte larger. *)
Definition Exact : FunctionType := mkFunctionType 64 8 80 8 false true.
Definition OneMore : FunctionType := mkFunctionType 65 8 81 8 false true.
Definition exact_fit : Callable N N := mkCallable Exact (fun x => Normal x).
Definition one_more : Callable N N := mkCallable OneMore (fun x => Normal x).

(** What a caller observes of an outcome, leaving the store aside. *)
Inductive Observation (A : Type) : Type :=
| Value (a : A)
| Raised (e : Exception)
| Aborted
| Unspecified.
Arguments Value {A} a.
Arguments Raised {A} e.
Arguments Aborted {A}.
Arguments Unspecified {A}.

Definition observe {Args R A : Type} (o : Outcome Args R A) : Observation A :=
  match o with
  | Returns a _ => Value a
  | Throws e _ => Raised e
  | Terminated => Aborted
  | Undefined => Unspecified
  end.

(** The store an outcome leaves, when it leaves one. *)
Definition final {Args R A : Type} (o : Outcome Args R A) : option (State Args R) :=
  match o with
  | Returns _ s => Some s
  | Throws _ s => Some s
  | Terminated => None
  | Undefined => None
  end.

(** The extent of every block of storage: its size and alignment. *)
Definition extent {Args R : Type} (s : State Args R) : gmap positive (N * N) :=
  (fun b => (block_size b, block_align b)) <$> memory s.

(* ===================================================================== *)
(** ** Scenarios and statements under test                                 *)
(* ===================================================================== *)

(** Two allocating lambdas sharing the default heap buffer, and an inline
    lambda holding [double]. *)
Definition shared_pair_and_inline : M N N (AllocLambda * AllocLambda * Lambda) :=
  a ← AllocLambda_default;
  b ← AllocLambda_copy a;
  l ← Lambda_from_function true double;
  mret (a, b, l).

(** The store an operation leaves when run from [s]; [s] itself when it
    leaves none. *)
Definition after {Args R A : Type} (m : M Args R A) (s : State Args R) : State Args R :=
  default s (final (m s)).

(** An allocating lambda holding [successor] and an empty one. *)
Definition original_and_empty : M N N (AllocLambda * AllocLambda) :=
  a ← AllocLambda_from_function true successor;
  b ← AllocLambda_default;
  mret (a, b).

(** Isolation of a copy: after [l1 = l2] on allocating lambdas, assigning
    a callable to [l1] does not change what a call of [l2] lets the caller
    observe. *)
Definition reassigned_copy_leaves_original {Args R : Type} `{Layout} : Prop :=
  forall (l1 l2 l1' l1'' : AllocLambda) (s s1 s2 : State Args R)
         (Copy : bool) (g : Callable Args R) (args : Args),
    copyAssignLambda_AllocLambda_AllocLambda l1 l2 s = Returns l1' s1 ->
    AllocLambda_assign_function Copy l1' g s1 = Returns l1'' s2 ->
    observe (AllocLambda_call l2 args s2) = observe (AllocLambda_call l2 args s1).

(** An allocating lambda whose buffer was replaced by one of 72 bytes,
    aligned to 8, when the inline lambda of [shared_pair_and_inline] was
    assigned to it, and an empty allocating lambda. *)
Definition grown_and_empty : M N N (AllocLambda * AllocLambda) :=
  '(a, b, l) ← shared_pair_and_inline;
  a ← copyAssignLambda_AllocLambda_Lambda a l;
  c ← AllocLambda_default;
  mret (a, c).

(** An inline lambda holding [successor] and an empty one. *)
Definition inline_pair : M N N (Lambda * Lambda) :=
  l1 ← Lambda_from_function true successor;
  l2 ← Lambda_default;
  mret (l1, l2).

(** The moved-from allocating lambda is empty and reports the size and
    alignment its old buffer reported. *)
Definition moved_from_keeps_capacity {Args R : Type} `{Layout} : Prop :=
  forall (l1 l2 l1' l2' : AllocLambda) (s s' : State Args R) (size alignment : N),
    AllocLambda_bufferSize l2 s = Returns size s ->
    AllocLambda_bufferAlignment l2 s = Returns alignment s ->
    moveAssignLambda_AllocLambda_AllocLambda l1 l2 s = Returns (l1', l2') s' ->
    AllocLambda_present l2' s' = Returns false s'
    /\ AllocLambda_bufferSize l2' s' = Returns size s'
    /\ AllocLambda_bufferAlignment l2' s' = Returns alignment s'.

(** An allocating lambda that is move-assigned to itself reports what it
    reported before. *)
Definition self_move_keeps_the_callable {Args R : Type} `{Layout} : Prop :=
  forall (l l' : AllocLambda) (s s' : State Args R) (b : bool),
    AllocLambda_present l s = Returns b s ->
    moveAssignLambda_AllocLambda_self l s = Returns l' s' ->
    AllocLambda_present l' s' = Returns b s'.

(** Monotonicity of the reported buffer properties, as a property of
    reallocation and of assigning an inline lambda to an allocating one. *)
Definition monotone_reallocation {Args R : Type} `{Layout} : Prop :=
  forall (W : WrapperType) (buffer : ptr) (size alignment : N) (s : State Args R)
         (buffer' : ptr) (size' alignment' : N) (s' : State Args R),
    checkOrReallocate W buffer size alignment s
      = Returns (buffer', size', alignment') s' ->
    size <= size' /\ alignment <= alignment'.

Definition monotone_assignment {Args R : Type} `{Layout} : Prop :=
  forall (l1 : AllocLambda) (l2 : Lambda) (s : State Args R)
         (l1' : AllocLambda) (s' : State Args R) (size alignment size' alignment' : N),
    AllocLambda_bufferSize l1 s = Returns size s ->
    AllocLambda_bufferAlignment l1 s = Returns alignment s ->
    copyAssignLambda_AllocLambda_Lambda l1 l2 s = Returns l1' s' ->
    AllocLambda_bufferSize l1' s' = Returns size' s' ->
    AllocLambda_bufferAlignment l1' s' = Returns alignment' s' ->
    size <= size' /\ alignment <= alignment'.

(* ===================================================================== *)
(** ** Properties of the compatibility predicate                           *)
(* ===================================================================== *)

Section Compatibility.

Import LambdaMetaFunctions.

Lemma IsLambdaTemplate_spec (L : Template) :
  IsLambdaTemplate L = true <-> L = Lambda \/ L = AllocLambda.
Proof. destruct L; vm_compute; intuition congruence. Qed.

(** When neither or both prototypes are [noexcept], or only the receiving
    one is, two lambda types are compatible exactly when their prototypes
    are the same type. *)
Lemma CompatibleLambda_same_qualifier (L2 L1 : Template) (P2 P1 : Prototype) :
  IsLambdaTemplate L1 = true -> IsLambdaTemplate L2 = true ->
  (Noexcept P1 = true \/ Noexcept P2 = false) ->
  CX.CompatibleLambda (Specialization L2 P2) (Specialization L1 P1) = true
  <-> P1 = P2.
Proof.
  intros H1 H2 Hq. unfold CX.CompatibleLambda, LambdaMetaFunctions.CompatibleLambda.
  rewrite H1, H2. unfold LambdaMetaFunctions.NoexceptFunction, SameType. cbn.
  destruct Hq as [-> | ->]; cbn; rewrite ?andb_false_r;
    apply bool_decide_eq_true.
Qed.

(** The predicate on lambda types with the same return and parameter
    types: a noexcept-qualified source is accepted by a throwing-qualified
    destination (for either lambda template on either side), and a
    throwing-qualified source is not accepted by a noexcept-qualified
    destination. *)
Lemma CompatibleLambda_noexcept_widening :
  forall (Lsrc Ldst : Template) (Ret : TypeName) (Params : list TypeName)
         (variadic : bool),
    let throwing := mkPrototype Ret Params variadic false in
    let nothrow := mkPrototype Ret Params variadic true in
    IsLambdaTemplate Lsrc = true -> IsLambdaTemplate Ldst = true ->
    CX.CompatibleLambda (Specialization Lsrc nothrow) (Specialization Ldst throwing) = true
    /\ CX.CompatibleLambda (Specialization Lsrc throwing) (Specialization Ldst nothrow) = false.
Proof.
  intros Lsrc Ldst Ret Params variadic throwing nothrow Hs Hd.
  unfold CX.CompatibleLambda, LambdaMetaFunctions.CompatibleLambda.
  rewrite Hs, Hd. cbn. split; [reflexivity|].
  unfold SameType. apply bool_decide_eq_false. discriminate.
Qed.

(** The second partial specialization never looks at the return type,
    the parameter types or the c-variadic ellipsis. *)
Lemma CompatibleLambda_noexcept_source_always (Lsrc Ldst : Template)
    (Psrc Pdst : Prototype) :
  IsLambdaTemplate Lsrc = true -> IsLambdaTemplate Ldst = true ->
  Noexcept Psrc = true -> Noexcept Pdst = false ->
  CX.CompatibleLambda (Specialization Lsrc Psrc) (Specialization Ldst Pdst) = true.
Proof.
  intros Hs Hd Hns Hnd.
  unfold CX.CompatibleLambda, LambdaMetaFunctions.CompatibleLambda,
    LambdaMetaFunctions.NoexceptFunction.
  rewrite Hs, Hd, Hns, Hnd. reflexivity.
Qed.

(** C5: the predicate accepts a noexcept-qualified source into a
    throwing-qualified destination although the two prototypes differ in
    return type, parameter types and the c-variadic ellipsis: the
    c-variadic [int (float, ...) noexcept] into the fixed-arity [void ()],
    and the fixed-arity [int (float) noexcept] into the c-variadic
    [void (...)]. *)
Theorem C5_accepts_unrelated_prototypes :
  CX.CompatibleLambda
    (Specialization Lambda (mkPrototype Int [Float] true true))
    (Specialization Lambda (mkPrototype Void [] false false)) = true
  /\ CX.CompatibleLambda
    (Specialization Lambda (mkPrototype Int [Float] false true))
    (Specialization Lambda (mkPrototype Void [] true false)) = true.
Proof. split; reflexivity. Qed.

End Compatibility.

(* ===================================================================== *)
(** ** Converting between lambda types                                     *)
(* ===================================================================== *)

Section Conversions.

Import LambdaMetaFunctions.

Context {Args R : Type}.
Context `{Layout}.

(** C4: for lambda types with the same return and parameter types.  A
    noexcept-qualified source is accepted by the compatibility predicate of
    a throwing-qualified destination, and initializing the destination
    from it selects the converting constructor.  A throwing-qualified
    source is not accepted by the predicate of a noexcept-qualified
    destination, yet initializing the destination from it is well-formed:
    the conversion function of the source is constrained by the predicate
    with source and destination exchanged, and is selected.  Its body
    initializes the destination from the source again, so for
    [Lambda<R (Args...)>] converted to [Lambda<R (Args...) noexcept>] the
    initialization is still pending after any number of nested calls. *)
Theorem C4_narrowing_is_accepted_through_the_conversion_function :
  forall (Lsrc Ldst : Template) (Ret : TypeName) (Params : list TypeName)
         (variadic : bool),
    let throwing := mkPrototype Ret Params variadic false in
    let nothrow := mkPrototype Ret Params variadic true in
    IsLambdaTemplate Lsrc = true -> IsLambdaTemplate Ldst = true ->
    (CX.CompatibleLambda (Specialization Lsrc nothrow) (Specialization Ldst throwing) = true
     /\ direct_initialization (Specialization Ldst throwing) (Specialization Lsrc nothrow)
        = ConvertingConstructor)
    /\ (CX.CompatibleLambda (Specialization Lsrc throwing) (Specialization Ldst nothrow)
        = false
        /\ conversion_function_viable
             (Specialization Lsrc throwing) (Specialization Ldst nothrow) = true
        /\ direct_initialization (Specialization Ldst nothrow) (Specialization Lsrc throwing)
           = ConversionFunction)
    /\ (forall (depth : nat) (l2 : positive) (s : State Args R),
          Lambda_from_Lambda depth
            (mkPrototype Ret Params false true) (mkPrototype Ret Params false false) l2 s
          = Pending).
Proof.
  intros Lsrc Ldst Ret Params variadic throwing nothrow Hs Hd.
  assert (Hne : forall L L', Specialization L throwing <> Specialization L' nothrow)
    by (intros L L'; discriminate).
  assert (Hnarrow : forall L L' v,
            IsLambdaTemplate L = true -> IsLambdaTemplate L' = true ->
            direct_initialization (Specialization L' (mkPrototype Ret Params v true))
              (Specialization L (mkPrototype Ret Params v false))
            = ConversionFunction).
  { intros L L' v HL HL'. unfold direct_initialization.
    rewrite bool_decide_eq_false_2 by discriminate.
    unfold converting_constructor_viable, conversion_function_viable.
    destruct (CompatibleLambda_noexcept_widening L' L Ret Params v HL' HL)
      as [Hw _].
    destruct (CompatibleLambda_noexcept_widening L L' Ret Params v HL HL')
      as [_ Hn].
    cbv zeta in Hw, Hn. now rewrite Hn, Hw. }
  destruct (CompatibleLambda_noexcept_widening Lsrc Ldst Ret Params variadic Hs Hd)
    as [Hwide Hnarrow'].
  destruct (CompatibleLambda_noexcept_widening Ldst Lsrc Ret Params variadic Hd Hs)
    as [Hwide' _].
  cbv zeta in Hwide, Hnarrow', Hwide'. fold throwing nothrow in Hwide, Hnarrow', Hwide'.
  split; [|split].
  - split; [exact Hwide|]. unfold direct_initialization.
    rewrite bool_decide_eq_false_2 by discriminate.
    unfold converting_constructor_viable. now rewrite Hwide.
  - split; [exact Hnarrow'|]. split; [exact Hwide'|].
    now apply Hnarrow.
  - intros depth l2 s.
    induction depth as [|depth IH]; cbn [Lambda_from_Lambda];
      rewrite (Hnarrow Lambda Lambda false eq_refl eq_refl); [reflexivity|].
    now rewrite IH.
Qed.

End Conversions.

(** C4 at [Lambda<int (int) noexcept>{t}] for [t] the [Lambda<int (int)>]
    holding [successor]: the conversion function is selected, and the
    initialization has not ended after a thousand nested calls. *)
Lemma C4_witness :
  direct_initialization
    (LambdaMetaFunctions.Specialization LambdaMetaFunctions.Lambda int_of_int_noexcept)
    (LambdaMetaFunctions.Specialization LambdaMetaFunctions.Lambda int_of_int)
  = ConversionFunction
  /\ Lambda_from_Lambda (H:=LP64) 1000 int_of_int_noexcept int_of_int 1%positive
       (after (Lambda_from_function true successor) initial)
     = Pending.
Proof.
  destruct (C4_narrowing_is_accepted_through_the_conversion_function
              (Args:=N) (R:=N) (H:=LP64)
              LambdaMetaFunctions.Lambda LambdaMetaFunctions.Lambda
              LambdaMetaFunctions.Int [LambdaMetaFunctions.Int] false
              eq_refl eq_refl) as (_ & (_ & _ & Hd) & Hp).
  split; [exact Hd|apply Hp].
Defined.

(* ===================================================================== *)
(** ** Reasoning about operations                                          *)
(* ===================================================================== *)

(** Symbolic execution of an operation: reduce the monadic plumbing and
    rewrite with what is known about the store. *)
Ltac run :=
  repeat first
    [ progress cbv beta iota zeta
    | progress unfold mbind, M_bind, mret, M_ret, throw
    | progress cbn [memory owners fst snd negb andb orb
                    WrapperTypeOf EmptyWrapperType construct]
    | rewrite lookup_insert_eq
    | rewrite insert_insert_eq
    | match goal with
      | E : ?m !! ?a = _ |- context [?m !! ?a] => rewrite E
      | E : ?m ?s = _ |- context [?m ?s] => rewrite E
      end ].

Ltac unfold_monad :=
  unfold mbind, M_bind, mret, M_ret, throw, undefined.

Ltac unfold_storage :=
  unfold deref, destroy, placement_new, operator_new, storage.

Section Operations.

Context {Args R : Type}.
Context `{Layout}.

Abbreviation State := (State Args R).
Abbreviation M := (M Args R).
Abbreviation Wrapper := (Wrapper Args R).
Abbreviation Callable := (Callable Args R).

Lemma bind_Returns {A B : Type} (m : M A) (k : A -> M B) s b s' :
  (m ≫= k) s = Returns b s' ->
  exists a s1, m s = Returns a s1 /\ k a s1 = Returns b s'.
Proof. unfold mbind, M_bind. destruct (m s); try discriminate. eauto. Qed.

Lemma bind_Throws {A B : Type} (m : M A) (k : A -> M B) s e s' :
  (m ≫= k) s = Throws e s' ->
  m s = Throws e s' \/ exists a s1, m s = Returns a s1 /\ k a s1 = Throws e s'.
Proof.
  unfold mbind, M_bind. destruct (m s) as [a s1|e1 s1| |]; try discriminate.
  - intros Hk. right. eauto.
  - intros [= -> ->]. now left.
Qed.

Lemma bind_eq {A B : Type} (m : M A) (k : A -> M B) s a s1 :
  m s = Returns a s1 -> (m ≫= k) s = k a s1.
Proof. unfold mbind, M_bind. now intros ->. Qed.

Lemma bind_Throws_eq {A B : Type} (m : M A) (k : A -> M B) s e s1 :
  m s = Throws e s1 -> (m ≫= k) s = Throws e s1.
Proof. unfold mbind, M_bind. now intros ->. Qed.

(** Nothing can be done with a buffer whose record was destroyed. *)
Lemma deref_raw (a : positive) bs ba (s : State) :
  memory s !! a = Some (mkBlock bs ba None) ->
  deref (Some a) s = Undefined (A:=Wrapper).
Proof. unfold deref. now intros ->. Qed.

Lemma destroy_raw (a : positive) bs ba (s : State) :
  memory s !! a = Some (mkBlock bs ba None) ->
  destroy (Some a) s = Undefined.
Proof. unfold destroy. now intros ->. Qed.

Lemma bind_Undefined {A B : Type} (m : M A) (k : A -> M B) (s : State) :
  m s = Undefined -> (m ≫= k) s = Undefined.
Proof. unfold mbind, M_bind. now intros ->. Qed.

(** A constructor body that does not throw is not affected by the
    destructor that unwinding would run. *)
Lemma unwinding_eq {A : Type} (body : M A) (destructor : M unit) (s : State) :
  (forall e s', body s <> Throws e s') ->
  unwinding body destructor s = body s.
Proof.
  intros Hn. unfold unwinding. destruct (body s) as [| e s' | |] eqn:E; try reflexivity.
  now destruct (Hn e s').
Qed.

Lemma unwinding_Returns {A : Type} (body : M A) (destructor : M unit)
    (s s' : State) (a : A) :
  unwinding body destructor s = Returns a s' <-> body s = Returns a s'.
Proof.
  unfold unwinding. destruct (body s) as [| e s1 | |]; try tauto.
  destruct (destructor s1); split; discriminate.
Qed.

Lemma unwinding_Throws {A : Type} (body : M A) (destructor : M unit)
    (s s' : State) e :
  body s = Throws e s' -> destructor s' = Undefined ->
  unwinding body destructor s = Undefined.
Proof. unfold unwinding. now intros -> ->. Qed.

Lemma mret_eq {A : Type} (a : A) (s : State) : (mret a : M A) s = Returns a s.
Proof. reflexivity. Qed.

(** *** Storage primitives *)

Lemma deref_Returns (p : ptr) (w : Wrapper) (s s' : State) :
  deref p s = Returns w s' ->
  s' = s /\ exists a sz al,
    p = Some a /\ memory s !! a = Some (mkBlock sz al (Some w)).
Proof.
  unfold deref. destruct p as [a|]; [|discriminate].
  destruct (memory s !! a) as [[sz al [w'|]]|] eqn:E; try discriminate.
  intros [= -> ->]. eauto 6.
Qed.

Lemma deref_live (a : positive) sz al (w : Wrapper) (s : State) :
  memory s !! a = Some (mkBlock sz al (Some w)) ->
  deref (Some a) s = Returns w s.
Proof. unfold deref. now intros ->. Qed.

Lemma deref_not_Throws (p : ptr) e (s s' : State) :
  deref p s <> Throws (A:=Wrapper) e s'.
Proof.
  unfold deref. destruct p as [a|]; [|discriminate].
  destruct (memory s !! a) as [[sz al [w'|]]|]; discriminate.
Qed.

Lemma deref_total (p : ptr) (s : State) :
  deref p s = Undefined \/ exists w, deref p s = Returns w s.
Proof.
  unfold deref. destruct p as [a|]; [|now left].
  destruct (memory s !! a) as [[sz al [w'|]]|]; eauto.
Qed.

Lemma destroy_Returns (p : ptr) (s s' : State) :
  destroy p s = Returns tt s' ->
  exists a sz al w,
    p = Some a /\ memory s !! a = Some (mkBlock sz al (Some w))
    /\ s' = mkState (<[a := mkBlock sz al None]> (memory s)) (owners s).
Proof.
  unfold destroy. destruct p as [a|]; [|discriminate].
  destruct (memory s !! a) as [[sz al [w'|]]|] eqn:E; try discriminate.
  intros [= <-]. eauto 8.
Qed.

Lemma destroy_live (a : positive) sz al (w : Wrapper) (s : State) :
  memory s !! a = Some (mkBlock sz al (Some w)) ->
  destroy (Some a) s =
    Returns tt (mkState (<[a := mkBlock sz al None]> (memory s)) (owners s)).
Proof. unfold destroy. now intros ->. Qed.

Lemma destroy_not_Throws (p : ptr) e (s s' : State) :
  destroy p s <> Throws (A:=unit) e s'.
Proof.
  unfold destroy. destruct p as [a|]; [|discriminate].
  destruct (memory s !! a) as [[sz al [w'|]]|]; discriminate.
Qed.

Lemma placement_new_Returns (p : ptr) (w : Wrapper) (s s' : State) :
  placement_new p w s = Returns tt s' ->
  exists a sz al o,
    p = Some a /\ memory s !! a = Some (mkBlock sz al o)
    /\ s' = mkState (<[a := mkBlock sz al (Some w)]> (memory s)) (owners s).
Proof.
  unfold placement_new. destruct p as [a|]; [|discriminate].
  destruct (memory s !! a) as [[sz al o]|] eqn:E; try discriminate.
  intros [= <-]. eauto 8.
Qed.

Lemma placement_new_block (a : positive) sz al o (w : Wrapper) (s : State) :
  memory s !! a = Some (mkBlock sz al o) ->
  placement_new (Some a) w s =
    Returns tt (mkState (<[a := mkBlock sz al (Some w)]> (memory s)) (owners s)).
Proof. unfold placement_new. now intros ->. Qed.

Lemma placement_new_not_Throws (p : ptr) (w : Wrapper) e (s s' : State) :
  placement_new p w s <> Throws (A:=unit) e s'.
Proof.
  unfold placement_new. destruct p as [a|]; [|discriminate].
  destruct (memory s !! a) as [[sz al o]|]; discriminate.
Qed.

(** The record just constructed is the one a virtual call finds. *)
Lemma placement_new_deref (p : ptr) (w : Wrapper) (s s' : State) :
  placement_new p w s = Returns tt s' -> deref p s' = Returns w s'.
Proof.
  intros (a & sz & al & o & -> & Hm & ->)%placement_new_Returns.
  eapply deref_live. cbn. apply lookup_insert_eq.
Qed.

Lemma storage_Returns size alignment (s : State) :
  exists a : positive, memory s !! a = None
    /\ storage size alignment s =
       Returns a (mkState (<[a := mkBlock size alignment None]> (memory s)) (owners s)).
Proof.
  exists (fresh (dom (memory s))). split; [|reflexivity].
  apply not_elem_of_dom, is_fresh.
Qed.

Lemma operator_new_Returns size alignment (s : State) :
  exists a : positive, memory s !! a = None
    /\ operator_new size alignment s =
       Returns (Some a)
         (mkState (<[a := mkBlock size alignment None]> (memory s)) (owners s)).
Proof.
  destruct (storage_Returns size alignment s) as (a & Hf & Hs).
  exists a. split; [exact Hf|]. unfold operator_new.
  now rewrite (bind_eq _ _ _ _ _ Hs).
Qed.

(** *** [wrapperBufferCheck] *)

Lemma wrapperBufferCheck_fits srcSize srcAlignment dstSize dstAlignment (s : State) :
  srcSize <= dstSize -> srcAlignment <= dstAlignment ->
  wrapperBufferCheck srcSize srcAlignment dstSize dstAlignment s = Returns tt s.
Proof.
  intros Hs Ha. unfold wrapperBufferCheck.
  destruct (N.ltb_spec dstSize srcSize); [lia|].
  destruct (N.ltb_spec dstAlignment srcAlignment); [lia|]. reflexivity.
Qed.

Lemma wrapperBufferCheck_too_small srcSize srcAlignment dstSize dstAlignment (s : State) :
  dstSize < srcSize \/ dstAlignment < srcAlignment ->
  exists message,
    wrapperBufferCheck srcSize srcAlignment dstSize dstAlignment s
    = Throws (IncompatibleLambdaError message) s.
Proof.
  intros Hlt. unfold wrapperBufferCheck.
  destruct (N.ltb_spec dstSize srcSize); [eexists; reflexivity|].
  destruct (N.ltb_spec dstAlignment srcAlignment); [eexists; reflexivity|]. lia.
Qed.

Lemma wrapperBufferCheck_cases srcSize srcAlignment dstSize dstAlignment (s : State) :
  (srcSize <= dstSize /\ srcAlignment <= dstAlignment
   /\ wrapperBufferCheck srcSize srcAlignment dstSize dstAlignment s = Returns tt s)
  \/ ((dstSize < srcSize \/ dstAlignment < srcAlignment)
      /\ exists message,
         wrapperBufferCheck srcSize srcAlignment dstSize dstAlignment s
         = Throws (IncompatibleLambdaError message) s).
Proof.
  destruct (N.le_gt_cases srcSize dstSize) as [Hs|Hs];
    [destruct (N.le_gt_cases srcAlignment dstAlignment) as [Ha|Ha]|].
  - left. auto using wrapperBufferCheck_fits.
  - right. split; [auto|]. apply wrapperBufferCheck_too_small. auto.
  - right. split; [auto|]. apply wrapperBufferCheck_too_small. auto.
Qed.

(** *** [checkOrReallocate] *)

Lemma checkOrReallocate_spec W buffer size alignment (s : State) :
  exists r s', checkOrReallocate W buffer size alignment s = Returns r s'
    /\ Reallocation W buffer size alignment s r s'.
Proof.
  unfold checkOrReallocate.
  destruct (N.eqb_spec size 0) as [Hs|Hs], (N.eqb_spec alignment 0) as [Ha|Ha]; cbn [andb].
  1: { destruct (operator_new_Returns (N.max CX_LAMBDA_BUF_SIZE (sizeof W))
                   (N.max CX_LAMBDA_BUF_ALIGN (alignof W)) s) as (a & Hf & Hn).
       rewrite (bind_eq _ _ _ _ _ Hn). eexists _, _. split; [reflexivity|].
       now apply FirstAllocation. }
  all: destruct (N.ltb_spec size (sizeof W)) as [Hlt|Hge];
       [|destruct (N.ltb_spec alignment (alignof W)) as [Hlt'|Hge']]; cbn [orb].
  all: try (destruct (operator_new_Returns (sizeof W) (alignof W) s) as (a & Hf & Hn);
            rewrite (bind_eq _ _ _ _ _ Hn); eexists _, _; split; [reflexivity|];
            apply Growth; solve [auto | lia]).
  all: eexists _, _; split; [reflexivity|]; apply Sufficient; solve [auto | lia].
Qed.

Lemma checkOrReallocate_Returns W buffer size alignment (s : State) r s' :
  checkOrReallocate W buffer size alignment s = Returns r s' ->
  Reallocation W buffer size alignment s r s'.
Proof.
  destruct (checkOrReallocate_spec W buffer size alignment s) as (r0 & s0 & -> & Hr).
  now intros [= <- <-].
Qed.

(** *** Assigning a callable to a [Lambda] *)

(** The outcome of [operator=(F)] on a [Lambda], in closed form. *)
Lemma Lambda_assign_function_eq Copy (l : positive) (f : Callable) (s : State) :
  Lambda_assign_function Copy l f s =
  match memory s !! l with
  | Some (mkBlock bs ba (Some w)) =>
      let W := TNonAllocLambdaWrapper (ftype f) in
      let destroyed := mkState (<[l := mkBlock bs ba None]> (memory s)) (owners s) in
      match wrapperBufferCheck (sizeof W) (alignof W)
              (bufferSize w) (bufferAlignment w) destroyed with
      | Returns _ _ =>
          Returns tt
            (mkState (<[l := mkBlock bs ba (Some (NonAllocLambdaWrapper f))]> (memory s))
                     (owners s))
      | Throws e _ => Throws e destroyed
      | Terminated => Terminated
      | Undefined => Undefined
      end
  | _ => Undefined
  end.
Proof.
  unfold Lambda_assign_function, copyAssignFunction_Lambda, moveAssignFunction_Lambda,
    assignFunctionCommon_Lambda, getProperties, assign, copyInitWrapper, moveInitWrapper.
  unfold_monad. unfold_storage.
  destruct Copy; run.
  all: destruct (memory s !! l) as [[bs ba [w|]]|] eqn:E; run; try reflexivity.
  all: destruct (wrapperBufferCheck_cases
         (sizeof (TNonAllocLambdaWrapper (ftype f)))
         (alignof (TNonAllocLambdaWrapper (ftype f)))
         (bufferSize w) (bufferAlignment w)
         (mkState (<[l := mkBlock bs ba None]> (memory s)) (owners s)))
    as [(_ & _ & Hc)|(_ & msg & Hc)]; run; reflexivity.
Qed.

Lemma Lambda_assign_function_cases Copy (l : positive) (f : Callable) (s : State)
    bs ba (w : Wrapper) :
  memory s !! l = Some (mkBlock bs ba (Some w)) ->
  let W := TNonAllocLambdaWrapper (ftype f) in
  (sizeof W <= bufferSize w /\ alignof W <= bufferAlignment w
   /\ Lambda_assign_function Copy l f s =
      Returns tt
        (mkState (<[l := mkBlock bs ba (Some (NonAllocLambdaWrapper f))]> (memory s))
                 (owners s)))
  \/ ((bufferSize w < sizeof W \/ bufferAlignment w < alignof W)
      /\ exists message,
         Lambda_assign_function Copy l f s =
         Throws (IncompatibleLambdaError message)
           (mkState (<[l := mkBlock bs ba None]> (memory s)) (owners s))).
Proof.
  intros Hl W. rewrite Lambda_assign_function_eq, Hl. cbv zeta.
  destruct (wrapperBufferCheck_cases (sizeof W) (alignof W)
              (bufferSize w) (bufferAlignment w)
              (mkState (<[l := mkBlock bs ba None]> (memory s)) (owners s)))
    as [(Hs & Ha & Hc)|(Hlt & msg & Hc)]; fold W; rewrite Hc.
  - left. auto.
  - right. eauto.
Qed.

(** Whatever the outcome, an outcome other than undefined behaviour means
    that the [Lambda] held a live record. *)
Lemma Lambda_assign_function_live Copy (l : positive) (f : Callable) (s : State) :
  Lambda_assign_function Copy l f s <> Undefined ->
  exists bs ba w, memory s !! l = Some (mkBlock bs ba (Some w)).
Proof.
  rewrite Lambda_assign_function_eq.
  destruct (memory s !! l) as [[bs ba [w|]]|]; try congruence. eauto.
Qed.

(** *** Relocating a record into an inline buffer *)

Lemma copyTo_inline_cases (w2 : Wrapper) (l : positive)
    (dstBufSize dstBufAlignment : N) (s : State) bs ba o :
  memory s !! l = Some (mkBlock bs ba o) ->
  let W := inline_record w2 in
  (sizeof W <= dstBufSize /\ alignof W <= dstBufAlignment
   /\ copyTo w2 (Some l) dstBufSize dstBufAlignment false s =
      Returns (Some l)
        (mkState (<[l := mkBlock bs ba
                           (Some (relocate_inline w2 dstBufSize dstBufAlignment))]>
                    (memory s)) (owners s)))
  \/ ((dstBufSize < sizeof W \/ dstBufAlignment < alignof W)
      /\ exists message,
         copyTo w2 (Some l) dstBufSize dstBufAlignment false s =
         Throws (IncompatibleLambdaError message) s).
Proof.
  intros Hl W.
  destruct (wrapperBufferCheck_cases (sizeof W) (alignof W)
              dstBufSize dstBufAlignment s)
    as [(Hs & Ha & Hc)|(Hlt & msg & Hc)]; [left|right].
  - split; [exact Hs|split; [exact Ha|]].
    destruct w2; subst W; cbn [inline_record] in Hc;
      unfold copyTo, copyInitWrapper, typeSize, typeAlignment;
      unfold_monad; unfold_storage; run; reflexivity.
  - split; [exact Hlt|]. exists msg.
    destruct w2; subst W; cbn [inline_record] in Hc;
      unfold copyTo, copyInitWrapper, typeSize, typeAlignment;
      unfold_monad; unfold_storage; run; reflexivity.
Qed.

(** Replacing the record of a block leaves every extent as it was. *)
Lemma extent_placement (l : positive) bs ba o o' (s : State) ow :
  memory s !! l = Some (mkBlock bs ba o) ->
  extent (mkState (<[l := mkBlock bs ba o']> (memory s)) ow) = extent s.
Proof.
  intros Hl. unfold extent. cbn [memory]. rewrite fmap_insert.
  apply insert_id. rewrite lookup_fmap, Hl. reflexivity.
Qed.

(** *** [copyBuffer] and [moveBuffer] up to the relocation *)

Lemma copyBuffer_eq Allocating (buf1 buf2 : ptr) (s : State) :
  copyBuffer Allocating buf1 buf2 s =
  match buf1 with
  | Some a1 =>
      match memory s !! a1 with
      | Some (mkBlock bs ba (Some w1)) =>
          let s1 := mkState (<[a1 := mkBlock bs ba None]> (memory s)) (owners s) in
          match deref buf2 s1 with
          | Returns w2 _ =>
              copyTo w2 buf1 (bufferSize w1) (bufferAlignment w1) Allocating s1
          | _ => Undefined
          end
      | _ => Undefined
      end
  | None => Undefined
  end.
Proof.
  unfold copyBuffer. unfold_monad. unfold destroy, deref at 1. run.
  destruct buf1 as [a1|]; [|reflexivity].
  destruct (memory s !! a1) as [[bs ba [w1|]]|] eqn:E1; run; try reflexivity.
  match goal with |- context [deref buf2 ?s1] =>
    destruct (deref_total buf2 s1) as [E2|[w2 E2]]; rewrite E2; reflexivity
  end.
Qed.

Lemma moveBuffer_eq Allocating L2Alloc (buf1 buf2 : ptr) (s : State) :
  moveBuffer Allocating L2Alloc buf1 buf2 s =
  match buf1 with
  | Some a1 =>
      match memory s !! a1 with
      | Some (mkBlock bs ba (Some w1)) =>
          let s1 := mkState (<[a1 := mkBlock bs ba None]> (memory s)) (owners s) in
          match deref buf2 s1 with
          | Returns w2 _ =>
              (buf1Ptr ← copyTo w2 buf1 (bufferSize w1) (bufferAlignment w1) Allocating;
               destroy buf2;;
               initEmptyLambda L2Alloc buf2 (bufferSize w2) (bufferAlignment w2);;
               mret buf1Ptr) s1
          | _ => Undefined
          end
      | _ => Undefined
      end
  | None => Undefined
  end.
Proof.
  unfold moveBuffer. unfold mbind at 1 2 3, M_bind at 1 2 3.
  unfold destroy at 1, deref at 1. run.
  destruct buf1 as [a1|]; [|reflexivity].
  destruct (memory s !! a1) as [[bs ba [w1|]]|] eqn:E1; run; try reflexivity.
  match goal with |- context [deref buf2 ?s1] =>
    destruct (deref_total buf2 s1) as [E2|[w2 E2]]; rewrite E2; reflexivity
  end.
Qed.

Lemma checkOrReallocate_not_Throws W (buffer : ptr) size alignment (s : State) e s' :
  checkOrReallocate W buffer size alignment s <> Throws e s'.
Proof.
  destruct (checkOrReallocate_spec W buffer size alignment s) as (r & s1 & -> & _).
  discriminate.
Qed.

(** Re-initializing an allocating lambda's buffer never throws. *)
Lemma initEmptyLambda_alloc_not_Throws (buffer : ptr) size alignment (s : State) e s' :
  initEmptyLambda true buffer size alignment s <> Throws e s'.
Proof.
  unfold initEmptyLambda. intros [Hc|(r & s1 & Hc & Hk)]%bind_Throws.
  - now apply checkOrReallocate_not_Throws in Hc.
  - destruct r as [[p sz] al].
    apply bind_Throws in Hk as [Hp|(? & ? & _ & Hm)]; [|discriminate].
    now apply placement_new_not_Throws in Hp.
Qed.

(** *** Construction and assignment of callables *)

Lemma Lambda_assign_function_Returns Copy (l : positive) (f : Callable) (s s' : State) :
  Lambda_assign_function Copy l f s = Returns tt s' ->
  deref (Some l) s' = Returns (NonAllocLambdaWrapper f) s'.
Proof.
  intros Hr.
  destruct (Lambda_assign_function_live Copy l f s) as (bs & ba & w & Hl);
    [congruence|].
  destruct (Lambda_assign_function_cases Copy l f s bs ba w Hl)
    as [(_ & _ & Hc)|(_ & msg & Hc)]; rewrite Hc in Hr; [|discriminate].
  injection Hr as <-. eapply deref_live. cbn. apply lookup_insert_eq.
Qed.

(** [Lambda()] in closed form; the check of the stub against the buffer
    passes by the two [static_assert]s of the header. *)
Lemma Lambda_default_eq (s : State) :
  Lambda_default s =
  let a := fresh (dom (memory s)) in
  Returns a
    (mkState (<[a := mkBlock CX_LAMBDA_BUF_SIZE CX_LAMBDA_BUF_ALIGN
                        (Some (NonAllocLambdaWrapperStub
                                 CX_LAMBDA_BUF_SIZE CX_LAMBDA_BUF_ALIGN))]>
                (memory s)) (owners s)).
Proof.
  unfold Lambda_default, initEmptyLambda. unfold_monad. unfold storage. run.
  rewrite wrapperBufferCheck_fits
    by (cbn; auto using static_assert_size, static_assert_align).
  unfold placement_new. run. reflexivity.
Qed.

(** [AllocLambda()] in closed form: a fresh buffer with the default
    capacity, one owner. *)
Lemma AllocLambda_default_eq (s : State) :
  AllocLambda_default s =
  let a := fresh (dom (memory s)) in
  let size := N.max CX_LAMBDA_BUF_SIZE (sizeof TAllocLambdaWrapperStub) in
  let alignment := N.max CX_LAMBDA_BUF_ALIGN (alignof TAllocLambdaWrapperStub) in
  Returns (Some a)
    (mkState (<[a := mkBlock size alignment
                        (Some (AllocLambdaWrapperStub size alignment))]> (memory s))
             (<[a := 1%positive]> (owners s))).
Proof.
  unfold AllocLambda_default, allocLambdaBufferOp, initEmptyLambda,
    checkOrReallocate, shared_ptr_reset_to, shared_ptr_release.
  change (0 =? 0) with true.
  unfold_monad. unfold_storage. run. reflexivity.
Qed.

(** [operator=(F)] on an [AllocLambda], in closed form.  When the buffer
    has to be replaced, [assign] runs [destroy] on the new, raw buffer. *)
Lemma AllocLambda_assign_function_eq Copy (l : option positive) (f : Callable) (s : State) :
  AllocLambda_assign_function Copy l f s =
  match l with
  | Some a =>
      match memory s !! a with
      | Some (mkBlock bs ba (Some w)) =>
          if sufficient (TAllocLambdaWrapper (ftype f)) (bufferSize w) (bufferAlignment w)
          then Returns (Some a)
                 (mkState
                    (<[a := mkBlock bs ba
                              (Some (AllocLambdaWrapper f (bufferSize w)
                                       (bufferAlignment w)))]> (memory s))
                    (owners s))
          else Undefined
      | _ => Undefined
      end
  | None => Undefined
  end.
Proof.
  unfold AllocLambda_assign_function, copyAssignFunction_AllocLambda,
    moveAssignFunction_AllocLambda, assignFunctionCommon_AllocLambda,
    allocLambdaBufferOp, getProperties, assign, copyInitWrapper, moveInitWrapper,
    checkOrReallocate, sufficient.
  unfold_monad. unfold_storage.
  destruct Copy; run.
  all: destruct l as [a|]; [|reflexivity].
  all: destruct (memory s !! a) as [[bs ba [w|]]|] eqn:E; run; try reflexivity.
  all: destruct ((bufferSize w =? 0) && (bufferAlignment w =? 0)); run;
    [reflexivity|].
  all: destruct ((bufferSize w <? sizeof (TAllocLambdaWrapper (ftype f)))
                 || (bufferAlignment w <? alignof (TAllocLambdaWrapper (ftype f))));
    run; [reflexivity|].
  all: rewrite bool_decide_eq_false_2 by (intros Hne; now apply Hne); reflexivity.
Qed.

Lemma AllocLambda_assign_function_Returns Copy (l l' : option positive)
    (f : Callable) (s s' : State) :
  AllocLambda_assign_function Copy l f s = Returns l' s' ->
  l' = l /\ exists size alignment,
    deref l' s' = Returns (AllocLambdaWrapper f size alignment) s'.
Proof.
  rewrite AllocLambda_assign_function_eq.
  destruct l as [a|]; [|discriminate].
  destruct (memory s !! a) as [[bs ba [w|]]|]; try discriminate.
  destruct (sufficient _ _ _); [|discriminate].
  intros [= <- <-]. split; [reflexivity|].
  eexists _, _. eapply deref_live. cbn. apply lookup_insert_eq.
Qed.

(** *** Calls *)

(** A callable whose prototype is [noexcept] does not throw, so a
    [noexcept] boundary around its call changes nothing. *)
Lemma noexcept_invoke (f : Callable) (args : Args) (s : State) :
  NoexceptFunction (ftype f) = true ->
  noexcept (invoke f args) s = invoke f args s.
Proof.
  intros Hn. unfold noexcept, invoke. rewrite Hn.
  destruct (fbody f args); reflexivity.
Qed.

Lemma noexcept_idem {A : Type} (m : M A) (s : State) :
  noexcept (noexcept m) s = noexcept m s.
Proof. unfold noexcept. destruct (m s); reflexivity. Qed.

Lemma noexcept_bind_eq {A B : Type} (m : M A) (k : A -> M B) s a s1 :
  m s = Returns a s1 -> noexcept (m ≫= k) s = noexcept (k a) s1.
Proof. unfold noexcept, mbind, M_bind. now intros ->. Qed.

(** The call operator of every [Lambda] specialization on a buffer holding
    a wrapper of [f] is the call of [f]. *)
Lemma Lambda_call_wrapper S (l : positive) (w : Wrapper) (f : Callable)
    (args : Args) (s : State) :
  deref (Some l) s = Returns w s -> wrapped w = Some f ->
  PrototypeRestriction S (ftype f) = true ->
  Lambda_call S l args s = invoke f args s.
Proof.
  intros Hd Hw Hr.
  assert (Hop : op w args = invoke f args)
    by (destruct w; try discriminate; injection Hw as ->; reflexivity).
  assert (Hnop : noexceptOp w args = noexcept (invoke f args))
    by (destruct w; try discriminate; injection Hw as ->; reflexivity).
  assert (Hvar : forall Noexcept,
             (fw ← get w; FptrWrapper_invoke Noexcept fw args)
             = if Noexcept then noexcept (invoke f args) else invoke f args).
  { intros Noexcept.
    destruct w; try discriminate; injection Hw as ->;
      unfold get, FptrWrapper_invoke; cbn [memberPtr fptrOrInst];
      destruct (Struct (ftype f)); reflexivity. }
  destruct S; cbn in Hr; unfold Lambda_call.
  - rewrite (bind_eq _ _ _ _ _ Hd), Hop. reflexivity.
  - rewrite (noexcept_bind_eq _ _ _ _ _ Hd), Hnop, noexcept_idem.
    now apply noexcept_invoke.
  - rewrite (bind_eq _ _ _ _ _ Hd). unfold op_variadic. rewrite Hvar. reflexivity.
  - rewrite (bind_eq _ _ _ _ _ Hd). unfold op_variadic. rewrite Hvar, noexcept_idem.
    now apply noexcept_invoke.
Qed.

Lemma AllocLambda_call_wrapper (l : option positive) (w : Wrapper) (f : Callable)
    (args : Args) (s : State) :
  deref l s = Returns w s -> wrapped w = Some f ->
  AllocLambda_call l args s = invoke f args s.
Proof.
  intros Hd Hw. unfold AllocLambda_call. rewrite (bind_eq _ _ _ _ _ Hd).
  destruct w; try discriminate; injection Hw as ->; reflexivity.
Qed.

(** The call operators on a buffer holding a stub. *)
Lemma Lambda_call_stub (l : positive) (w : Wrapper) (args : Args) (s : State) :
  deref (Some l) s = Returns w s -> present w = false ->
  Lambda_call Unqualified l args s = Throws UninitializedLambdaError s
  /\ Lambda_call CVariadic l args s = Throws UninitializedLambdaError s
  /\ Lambda_call NoexceptQualified l args s = Terminated
  /\ Lambda_call CVariadicNoexcept l args s = Terminated.
Proof.
  intros Hd Hp. unfold Lambda_call.
  rewrite !(bind_eq _ _ _ _ _ Hd), (noexcept_bind_eq _ _ _ _ _ Hd).
  destruct w; try discriminate; repeat split; reflexivity.
Qed.

Lemma AllocLambda_call_stub (l : option positive) (w : Wrapper) (args : Args) (s : State) :
  deref l s = Returns w s -> present w = false ->
  AllocLambda_call l args s = Throws UninitializedLambdaError s.
Proof.
  intros Hd Hp. unfold AllocLambda_call. rewrite (bind_eq _ _ _ _ _ Hd).
  destruct w; try discriminate; reflexivity.
Qed.

Lemma present_Returns (p : option positive) (b : bool) (s s' : State) :
  (base ← deref p; mret (present base)) s = Returns b s' ->
  s' = s /\ exists w, deref p s = Returns w s /\ present w = b.
Proof.
  intros (w & s1 & Hd & Hm)%bind_Returns.
  pose proof (deref_Returns _ _ _ _ Hd) as [-> _].
  injection Hm as <- <-. eauto.
Qed.

(** *** Heap buffers: reallocation followed by construction *)

Lemma checkOrReallocate_eq W (buffer : option positive) size alignment (s : State) :
  checkOrReallocate W buffer size alignment s =
  if sufficient W size alignment
  then Returns (buffer, size, alignment) s
  else
    let a := fresh (dom (memory s)) in
    let '(size', alignment') := reallocated W size alignment in
    Returns (Some a, size', alignment')
      (mkState (<[a := mkBlock size' alignment' None]> (memory s)) (owners s)).
Proof.
  unfold checkOrReallocate, sufficient, reallocated.
  destruct ((size =? 0) && (alignment =? 0)); cbn [negb andb].
  - unfold operator_new, storage. run. reflexivity.
  - destruct ((size <? sizeof W) || (alignment <? alignof W)); cbn [negb].
    + unfold operator_new, storage. run. reflexivity.
    + reflexivity.
Qed.

(** [checkOrReallocate<W>] followed by the construction of a record that
    carries the resulting buffer properties: either the record replaces
    what was in the buffer, or it sits in a fresh block. *)
Lemma reallocate_construct_Returns W (mk : N -> N -> Wrapper)
    (buffer q : option positive) size alignment (s s' : State) :
  ('(p, size', alignment') ← checkOrReallocate W buffer size alignment;
   placement_new p (mk size' alignment');; mret p) s = Returns q s' ->
  (sufficient W size alignment = true /\ q = buffer
   /\ exists a bs ba o,
        buffer = Some a /\ memory s !! a = Some (mkBlock bs ba o)
        /\ s' = mkState (<[a := mkBlock bs ba (Some (mk size alignment))]> (memory s))
                        (owners s))
  \/ (sufficient W size alignment = false
      /\ exists a size' alignment',
           q = Some a /\ memory s !! a = None
           /\ reallocated W size alignment = (size', alignment')
           /\ s' = mkState (<[a := mkBlock size' alignment'
                                    (Some (mk size' alignment'))]> (memory s))
                           (owners s)).
Proof.
  unfold mbind at 1, M_bind at 1. rewrite checkOrReallocate_eq.
  destruct (sufficient W size alignment).
  - intros ([] & s1 & Hp & Hm)%bind_Returns. injection Hm as <- <-.
    apply placement_new_Returns in Hp as (a & bs & ba & o & -> & Hl & ->).
    left. eauto 10.
  - cbv zeta. destruct (reallocated W size alignment) as [size' alignment'].
    intros ([] & s1 & Hp & Hm)%bind_Returns. injection Hm as <- <-.
    apply placement_new_Returns in Hp as (a & bs & ba & o & [= <-] & Hl & ->).
    cbn [memory owners] in *. rewrite lookup_insert_eq in Hl.
    injection Hl as <- <- <-. rewrite insert_insert_eq.
    right. split; [reflexivity|]. eexists _, _, _.
    split; [reflexivity|]. split; [apply not_elem_of_dom, is_fresh|]. auto.
Qed.

(** Relocating a record into a heap buffer. *)
Lemma copyTo_heap_Returns (w2 : Wrapper) (buffer q : option positive)
    size alignment (s s' : State) :
  copyTo w2 buffer size alignment true s = Returns q s' ->
  (sufficient (heap_record w2) size alignment = true /\ q = buffer
   /\ exists a bs ba o,
        buffer = Some a /\ memory s !! a = Some (mkBlock bs ba o)
        /\ s' = mkState (<[a := mkBlock bs ba
                                  (Some (relocate_heap w2 size alignment))]> (memory s))
                        (owners s))
  \/ (sufficient (heap_record w2) size alignment = false
      /\ exists a size' alignment',
           q = Some a /\ memory s !! a = None
           /\ reallocated (heap_record w2) size alignment = (size', alignment')
           /\ s' = mkState (<[a := mkBlock size' alignment'
                                    (Some (relocate_heap w2 size' alignment'))]>
                              (memory s))
                           (owners s)).
Proof.
  intros Hc.
  apply (reallocate_construct_Returns (heap_record w2) (relocate_heap w2)).
  destruct w2; exact Hc.
Qed.

Lemma initEmptyLambda_alloc_Returns (buffer q : option positive)
    size alignment (s s' : State) :
  initEmptyLambda true buffer size alignment s = Returns q s' ->
  (sufficient TAllocLambdaWrapperStub size alignment = true /\ q = buffer
   /\ exists a bs ba o,
        buffer = Some a /\ memory s !! a = Some (mkBlock bs ba o)
        /\ s' = mkState (<[a := mkBlock bs ba
                                  (Some (AllocLambdaWrapperStub size alignment))]>
                           (memory s))
                        (owners s))
  \/ (sufficient TAllocLambdaWrapperStub size alignment = false
      /\ exists a size' alignment',
           q = Some a /\ memory s !! a = None
           /\ reallocated TAllocLambdaWrapperStub size alignment = (size', alignment')
           /\ s' = mkState (<[a := mkBlock size' alignment'
                                    (Some (AllocLambdaWrapperStub size' alignment'))]>
                              (memory s))
                           (owners s)).
Proof.
  apply (reallocate_construct_Returns TAllocLambdaWrapperStub AllocLambdaWrapperStub).
Qed.

Lemma initEmptyLambda_inline_Returns (l : positive) (q : option positive)
    size alignment (s s' : State) :
  initEmptyLambda false (Some l) size alignment s = Returns q s' ->
  q = Some l
  /\ exists bs ba o,
       memory s !! l = Some (mkBlock bs ba o)
       /\ s' = mkState (<[l := mkBlock bs ba
                                 (Some (NonAllocLambdaWrapperStub size alignment))]>
                          (memory s))
                       (owners s).
Proof.
  unfold initEmptyLambda.
  intros ([] & s1 & Hc & Hk)%bind_Returns.
  apply bind_Returns in Hk as ([] & s2 & Hp & Hm). injection Hm as <- <-.
  destruct (wrapperBufferCheck_cases (sizeof (EmptyWrapperType false))
              (alignof (EmptyWrapperType false)) size alignment s)
    as [(_ & _ & Hc')|(_ & msg & Hc')]; rewrite Hc' in Hc; [|discriminate].
  injection Hc as <-.
  apply placement_new_Returns in Hp as (a & bs & ba & o & [= <-] & Hl & ->).
  eauto 8.
Qed.

(** *** Shared ownership *)

Lemma shared_ptr_release_Returns (p : option positive) (s s' : State) :
  shared_ptr_release p s = Returns tt s' -> Released p s s'.
Proof.
  unfold shared_ptr_release. destruct p as [a|].
  2: { intros [= <-]. now apply ReleasedNull. }
  destruct (owners s !! a) as [n|] eqn:En; [|discriminate].
  assert (Hshared : n <> 1%positive ->
            Returns tt (mkState (memory s) (<[a := Pos.pred n]> (owners s)))
            = Returns tt s' -> Released (Some a) s s').
  { intros Hn [= <-]. now eapply ReleasedShared. }
  destruct n; try (apply Hshared; discriminate). clear Hshared.
  unfold sharedBufferDeleter, operator_delete. unfold_monad. unfold_storage. run.
  destruct (memory s !! a) as [[bs ba [w|]]|] eqn:Em; run; try discriminate.
  cbn [block_align]. case_bool_decide as Hal; [|discriminate].
  rewrite delete_insert_eq. intros [= <-]. cbn in Hal. subst ba.
  eapply ReleasedLast; eauto.
Qed.

Lemma shared_ptr_acquire_Returns (p : option positive) (s s' : State) :
  shared_ptr_acquire p s = Returns tt s' ->
  (p = None /\ s' = s)
  \/ exists a n, p = Some a /\ owners s !! a = Some n
       /\ s' = mkState (memory s) (<[a := Pos.succ n]> (owners s)).
Proof.
  unfold shared_ptr_acquire. destruct p as [a|].
  - destruct (owners s !! a) as [n|] eqn:En; [|discriminate].
    intros [= <-]. right. eauto.
  - intros [= <-]. now left.
Qed.

(** [dst = src] on shared pointers: the result is [src]; nothing is
    allocated; the buffer of [src] is not touched; it has one more owner,
    unless [dst] already was that same pointer. *)
Lemma shared_ptr_assign_Returns (dst src q : option positive) (s s' : State) :
  shared_ptr_assign dst src s = Returns q s' ->
  q = src
  /\ dom (memory s') ⊆ dom (memory s)
  /\ forall a, src = Some a ->
       memory s' !! a = memory s !! a
       /\ exists n, owners s !! a = Some n
            /\ owners s' !! a
               = Some (if bool_decide (dst = src) then n else Pos.succ n).
Proof.
  unfold shared_ptr_assign.
  intros ([] & s1 & Hacq & Hk)%bind_Returns.
  apply bind_Returns in Hk as ([] & s2 & Hrel & Hm). injection Hm as <- <-.
  split; [reflexivity|].
  apply shared_ptr_release_Returns in Hrel.
  apply shared_ptr_acquire_Returns in Hacq as [[-> ->]|(a & n & -> & Hn & ->)].
  - split; [|discriminate].
    destruct Hrel; cbn [memory]; [reflexivity..|].
    apply subseteq_dom, delete_subseteq.
  - destruct Hrel as [->|a1 n1 -> Hn1 Hne|a1 bs w -> Hn1 Hm1]; cbn [memory owners] in *.
    + split; [reflexivity|]. intros ? [= <-]. split; [reflexivity|].
      exists n. split; [exact Hn|]. rewrite lookup_insert_eq.
      now rewrite bool_decide_eq_false_2.
    + split; [reflexivity|]. intros ? [= <-]. split; [reflexivity|].
      exists n. split; [exact Hn|].
      destruct (decide (a1 = a)) as [->|Hd].
      * rewrite lookup_insert_eq in Hn1. injection Hn1 as <-.
        rewrite lookup_insert_eq, Pos.pred_succ.
        now rewrite bool_decide_eq_true_2.
      * rewrite lookup_insert_ne, lookup_insert_eq by congruence.
        rewrite bool_decide_eq_false_2 by congruence. reflexivity.
    + assert (Hd : a1 <> a).
      { intros ->. rewrite lookup_insert_eq in Hn1. injection Hn1 as Hs.
        now apply Pos.succ_not_1 in Hs. }
      split; [apply subseteq_dom, delete_subseteq|].
      intros ? [= <-]. split; [now rewrite lookup_delete_ne|].
      exists n. split; [exact Hn|].
      rewrite lookup_delete_ne, lookup_insert_eq by congruence.
      rewrite bool_decide_eq_false_2 by congruence. reflexivity.
Qed.

(** *** What a call lets the caller observe *)

(** The observation of a call depends on the specialization, on the
    callable wrapped by the record in the buffer, and on the arguments. *)
Lemma Lambda_call_observe S (l l' : positive) (w w' : Wrapper)
    (args : Args) (s s' : State) :
  deref (Some l) s = Returns w s -> deref (Some l') s' = Returns w' s' ->
  wrapped w = wrapped w' ->
  observe (Lambda_call S l args s) = observe (Lambda_call S l' args s').
Proof.
  intros Hd Hd' Hw. unfold Lambda_call.
  destruct S;
    rewrite ?(bind_eq _ _ _ _ _ Hd), ?(bind_eq _ _ _ _ _ Hd'),
      ?(noexcept_bind_eq _ _ _ _ _ Hd), ?(noexcept_bind_eq _ _ _ _ _ Hd').
  all: destruct w, w'; try discriminate; try injection Hw as ->; try reflexivity.
  all: unfold op, noexceptOp, op_variadic, get, FptrWrapper_invoke, noexcept, invoke;
    unfold_monad; cbn [memberPtr fptrOrInst];
    destruct (Struct (ftype f0)), (fbody f0 args), (NoexceptFunction (ftype f0));
    reflexivity.
Qed.

Lemma AllocLambda_call_observe (l l' : option positive) (w w' : Wrapper)
    (args : Args) (s s' : State) :
  deref l s = Returns w s -> deref l' s' = Returns w' s' ->
  wrapped w = wrapped w' ->
  observe (AllocLambda_call l args s) = observe (AllocLambda_call l' args s').
Proof.
  intros Hd Hd' Hw. unfold AllocLambda_call.
  rewrite (bind_eq _ _ _ _ _ Hd), (bind_eq _ _ _ _ _ Hd').
  destruct w, w'; try discriminate; try injection Hw as ->; try reflexivity;
    unfold op, invoke;
    destruct (fbody f0 args), (NoexceptFunction (ftype f0)); reflexivity.
Qed.

Lemma wrapped_relocate_inline (w : Wrapper) size alignment :
  wrapped (relocate_inline w size alignment) = wrapped w
  /\ present (relocate_inline w size alignment) = present w.
Proof. destruct w; split; reflexivity. Qed.

Lemma wrapped_relocate_heap (w : Wrapper) size alignment :
  wrapped (relocate_heap w size alignment) = wrapped w
  /\ present (relocate_heap w size alignment) = present w.
Proof. destruct w; split; reflexivity. Qed.

(** After the destination's record was destroyed, the source is still
    where it was. *)
Lemma deref_after_destroy (a1 : positive) (p2 : option positive) bs ba
    (w2 w2' : Wrapper) (s s2 : State) :
  deref p2 s = Returns w2 s ->
  deref p2 (mkState (<[a1 := mkBlock bs ba None]> (memory s)) (owners s))
    = Returns w2' s2 ->
  w2' = w2 /\ p2 <> Some a1.
Proof.
  intros (_ & a & sz & al & -> & Hl)%deref_Returns
         (_ & a' & sz' & al' & [= <-] & Hl')%deref_Returns.
  cbn [memory] in Hl'. destruct (decide (a1 = a)) as [->|Hne].
  - rewrite lookup_insert_eq in Hl'. discriminate.
  - rewrite lookup_insert_ne, Hl in Hl' by exact Hne.
    injection Hl' as _ _ <-. split; congruence.
Qed.

Lemma shared_ptr_reset_to_Returns (buf q : option positive) (a : positive) (s s' : State) :
  shared_ptr_reset_to buf (Some a) s = Returns q s' ->
  q = Some a
  /\ Released buf (mkState (memory s) (<[a := 1%positive]> (owners s))) s'.
Proof.
  unfold shared_ptr_reset_to.
  intros ([] & s1 & [= <-] & Hk)%bind_Returns.
  apply bind_Returns in Hk as ([] & s2 & Hrel & Hm). injection Hm as <- <-.
  split; [reflexivity|]. now apply shared_ptr_release_Returns.
Qed.

End Operations.

(** A virtual call finds the record that the store is known to hold. *)
Ltac solve_deref :=
  eapply deref_live; cbn [memory];
  repeat first [rewrite lookup_insert_eq | rewrite lookup_insert_ne by congruence];
  first [reflexivity | eassumption].

(** Simplify what a hypothesis says about a lookup in an updated store. *)
Ltac lookups H :=
  cbn [memory owners] in H;
  repeat first [rewrite lookup_insert_eq in H
               | rewrite lookup_insert_ne in H by congruence].

(* ===================================================================== *)
(** ** The growth policy of heap buffers                                   *)
(* ===================================================================== *)

Section GrowthPolicy.

Context {Args R : Type}.
Context `{Layout}.

Abbreviation State := (State Args R).

(** C8: [checkOrReallocate<W>] on a buffer reporting [size] and
    [alignment].  Both zero: a new buffer of size
    [max(CX_LAMBDA_BUF_SIZE, sizeof(W))] and alignment
    [max(CX_LAMBDA_BUF_ALIGN, alignof(W))].  Otherwise, one of them below
    the wrapper's: a new buffer of exactly [sizeof(W)] and [alignof(W)].
    Otherwise: nothing is allocated and nothing changes. *)
Theorem C8_checkOrReallocate_policy :
  forall (W : WrapperType) (buffer : ptr) (size alignment : N) (s : State),
    (size = 0 /\ alignment = 0 ->
       exists a : positive, memory s !! a = None /\
         checkOrReallocate W buffer size alignment s =
           Returns (Some a, N.max CX_LAMBDA_BUF_SIZE (sizeof W),
                            N.max CX_LAMBDA_BUF_ALIGN (alignof W))
             (mkState (<[a := mkBlock (N.max CX_LAMBDA_BUF_SIZE (sizeof W))
                                      (N.max CX_LAMBDA_BUF_ALIGN (alignof W)) None]>
                         (memory s)) (owners s)))
    /\ (~ (size = 0 /\ alignment = 0) ->
        size < sizeof W \/ alignment < alignof W ->
        exists a : positive, memory s !! a = None /\
          checkOrReallocate W buffer size alignment s =
            Returns (Some a, sizeof W, alignof W)
              (mkState (<[a := mkBlock (sizeof W) (alignof W) None]> (memory s))
                       (owners s)))
    /\ (~ (size = 0 /\ alignment = 0) ->
        sizeof W <= size -> alignof W <= alignment ->
        checkOrReallocate W buffer size alignment s
          = Returns (buffer, size, alignment) s).
Proof.
  intros W buffer size alignment s.
  destruct (checkOrReallocate_spec W buffer size alignment s) as (r & s' & Heq & Hr).
  rewrite Heq. split; [|split].
  - intros [Hs Ha]. destruct Hr; [eauto | tauto | tauto].
  - intros Hnz Hlt. destruct Hr; [tauto | eauto | lia].
  - intros Hnz Hs Ha. destruct Hr; [tauto | lia | reflexivity].
Qed.

(** C9 (amended): [checkOrReallocate<W>] on a buffer reporting [size] and
    [alignment].  When these are not both zero and both meet the wrapper's
    size and alignment, the buffer and both values are left as they are.
    When both are zero the new values are
    [max(CX_LAMBDA_BUF_SIZE, sizeof(W))] and
    [max(CX_LAMBDA_BUF_ALIGN, alignof(W))].  Otherwise the new values are
    exactly [sizeof(W)] and [alignof(W)].  So the new values always meet the
    wrapper's, a value that was below the wrapper's has grown, the size
    has become smaller exactly when it exceeded [sizeof(W)] while the
    alignment was below [alignof(W)], and the alignment has become smaller
    exactly when it exceeded [alignof(W)] while the size was below
    [sizeof(W)]. *)
Theorem C9_reallocation_meets_the_wrapper :
  forall (W : WrapperType) (buffer : ptr) (size alignment : N) (s : State)
         (buffer' : ptr) (size' alignment' : N) (s' : State),
    checkOrReallocate W buffer size alignment s
      = Returns (buffer', size', alignment') s' ->
    (~ (size = 0 /\ alignment = 0) ->
     sizeof W <= size -> alignof W <= alignment ->
     buffer' = buffer /\ size' = size /\ alignment' = alignment /\ s' = s)
    /\ (size = 0 /\ alignment = 0 ->
        size' = N.max CX_LAMBDA_BUF_SIZE (sizeof W)
        /\ alignment' = N.max CX_LAMBDA_BUF_ALIGN (alignof W))
    /\ (~ (size = 0 /\ alignment = 0) ->
        size < sizeof W \/ alignment < alignof W ->
        size' = sizeof W /\ alignment' = alignof W)
    /\ (sizeof W <= size' /\ alignof W <= alignment')
    /\ (size < sizeof W -> size < size')
    /\ (alignment < alignof W -> alignment < alignment')
    /\ (size' < size <-> sizeof W < size /\ alignment < alignof W)
    /\ (alignment' < alignment <-> alignof W < alignment /\ size < sizeof W).
Proof.
  intros W buffer size alignment s buffer' size' alignment' s' Hc.
  apply checkOrReallocate_Returns in Hc.
  inversion Hc; subst; repeat split; intros; try lia; try tauto.
Qed.

End GrowthPolicy.

(** C8 on the concrete platform: a first allocation, a growth, and a
    sufficient buffer. *)
Lemma C8_witness :
  (exists a : positive,
     (initial : State N N).(memory) !! a = None /\
     checkOrReallocate TAllocLambdaWrapperStub None 0 0 (initial : State N N)
     = Returns (Some a, 64, 64)
         (mkState (<[a := mkBlock 64 64 None]> ∅) ∅))
  /\ (exists a : positive,
     (initial : State N N).(memory) !! a = None /\
     checkOrReallocate (TAllocLambdaWrapper Medium) None 64 64 (initial : State N N)
     = Returns (Some a, 72, 8)
         (mkState (<[a := mkBlock 72 8 None]> ∅) ∅))
  /\ checkOrReallocate (TAllocLambdaWrapper Small) None 64 64 (initial : State N N)
     = Returns (None, 64, 64) initial.
Proof.
  split; [|split].
  - apply (proj1 (C8_checkOrReallocate_policy (H:=LP64)
             TAllocLambdaWrapperStub None 0 0 initial)). split; reflexivity.
  - apply (proj1 (proj2 (C8_checkOrReallocate_policy (H:=LP64)
             (TAllocLambdaWrapper Medium) None 64 64 initial))).
    + intros [? _]; discriminate.
    + left. reflexivity.
  - apply (proj2 (proj2 (C8_checkOrReallocate_policy (H:=LP64)
             (TAllocLambdaWrapper Small) None 64 64 initial))).
    + intros [? _]; discriminate.
    + cbn; lia.
    + cbn; lia.
Defined.

(** C9 as stated fails on the concrete platform.  Reallocation: a buffer
    reporting size 64 and alignment 64 that receives a wrapper of size 72
    and alignment 8 is replaced by one of size 72 and alignment 8.
    Assignment: the allocating lambda of [shared_pair_and_inline] reports
    64 and 64 before the inline lambda is assigned to it, 72 and 8 after. *)
Lemma C9_counterexample :
  ~ @monotone_reallocation N N LP64 /\ ~ @monotone_assignment N N LP64.
Proof.
  split.
  - intros Hm.
    destruct (Hm (TAllocLambdaWrapper Medium) None 64 64 initial
                 (Some 1%positive) 72 8
                 (mkState (<[1%positive := mkBlock 72 8 None]> ∅) ∅)) as [_ Hal].
    + vm_compute. reflexivity.
    + lia.
  - intros Hm.
    pose (s := after shared_pair_and_inline initial).
    pose (s' := after (copyAssignLambda_AllocLambda_Lambda
                         (Some 1%positive) 2%positive) s).
    destruct (Hm (Some 1%positive) 2%positive s (Some 3%positive) s' 64 64 72 8)
      as [_ Hal]; [vm_compute; reflexivity ..|].
    lia.
Qed.

(** C9 (amended) at the reallocation of the counterexample: the new
    buffer has exactly the size and alignment of the wrapper, 72 and 8. *)
Lemma C9_witness :
  72 = sizeof (TAllocLambdaWrapper Medium)
  /\ 8 = alignof (TAllocLambdaWrapper Medium).
Proof.
  refine (proj1 (proj2 (proj2 (C9_reallocation_meets_the_wrapper (H:=LP64)
            (TAllocLambdaWrapper Medium) None 64 64 initial
            (Some 1%positive) 72 8
            (mkState (<[1%positive := mkBlock 72 8 None]>
                        (∅ : gmap positive (Block N N)))
                     (∅ : gmap positive positive)) _))) _ _).
  - vm_compute. reflexivity.
  - intros [Hs _]. discriminate Hs.
  - left. reflexivity.
Defined.

(* ===================================================================== *)
(** ** Inline buffers: the size and alignment check                        *)
(* ===================================================================== *)

Section InlineBuffers.

Context {Args R : Type}.
Context `{Layout}.

Abbreviation State := (State Args R).
Abbreviation Wrapper := (Wrapper Args R).
Abbreviation Callable := (Callable Args R).

(** C3: [wrapperBufferCheck] throws [IncompatibleLambdaError] exactly when
    the destination size is below the wrapper's size or the destination
    alignment is below the wrapper's alignment.  Assigning a callable to a
    [Lambda] whose buffer holds the record [w], and relocating a record
    [w2] into an inline buffer, fail with that error under exactly this
    condition on the wrapper to be constructed, and succeed otherwise.  In
    every outcome the size and alignment of every block of storage are
    what they were: the inline buffer does not grow. *)
Theorem C3_inline_buffer_check :
  (forall (srcSize srcAlignment dstSize dstAlignment : N) (s : State),
     ((exists message,
         wrapperBufferCheck srcSize srcAlignment dstSize dstAlignment s
         = Throws (IncompatibleLambdaError message) s)
      <-> dstSize < srcSize \/ dstAlignment < srcAlignment)
     /\ (wrapperBufferCheck srcSize srcAlignment dstSize dstAlignment s = Returns tt s
         <-> srcSize <= dstSize /\ srcAlignment <= dstAlignment))
  /\ (forall (Copy : bool) (l : positive) (f : Callable) (s : State)
             (bs ba : N) (w : Wrapper),
        memory s !! l = Some (mkBlock bs ba (Some w)) ->
        let W := TNonAllocLambdaWrapper (ftype f) in
        ((exists message s',
            Lambda_assign_function Copy l f s
            = Throws (IncompatibleLambdaError message) s')
         <-> bufferSize w < sizeof W \/ bufferAlignment w < alignof W)
        /\ ((exists s', Lambda_assign_function Copy l f s = Returns tt s')
            <-> sizeof W <= bufferSize w /\ alignof W <= bufferAlignment w)
        /\ (forall s', final (Lambda_assign_function Copy l f s) = Some s' ->
                       extent s' = extent s))
  /\ (forall (w2 : Wrapper) (l : positive) (dstBufSize dstBufAlignment : N)
             (s : State) (bs ba : N) (o : option Wrapper),
        memory s !! l = Some (mkBlock bs ba o) ->
        let W := inline_record w2 in
        ((exists message s',
            copyTo w2 (Some l) dstBufSize dstBufAlignment false s
            = Throws (IncompatibleLambdaError message) s')
         <-> dstBufSize < sizeof W \/ dstBufAlignment < alignof W)
        /\ ((exists p s',
               copyTo w2 (Some l) dstBufSize dstBufAlignment false s = Returns p s')
            <-> sizeof W <= dstBufSize /\ alignof W <= dstBufAlignment)
        /\ (forall s',
              final (copyTo w2 (Some l) dstBufSize dstBufAlignment false s) = Some s' ->
              extent s' = extent s)).
Proof.
  split; [|split].
  - intros srcSize srcAlignment dstSize dstAlignment s.
    destruct (wrapperBufferCheck_cases srcSize srcAlignment dstSize dstAlignment s)
      as [(Hs & Ha & Hc)|(Hlt & msg & Hc)]; rewrite Hc; split; split;
      try (intros [? ?]); try intros ?; try discriminate; try lia; eauto.
  - intros Copy l f s bs ba w Hl W.
    destruct (Lambda_assign_function_cases Copy l f s bs ba w Hl)
      as [(Hs & Ha & Hc)|(Hlt & msg & Hc)]; subst W; rewrite Hc;
      (split; [|split]).
    + split; [intros (? & ? & ?); discriminate | lia].
    + split; eauto.
    + cbn. intros s' [= <-]. now apply extent_placement with (o := Some w).
    + split; eauto.
    + split; [intros (? & ?); discriminate | lia].
    + cbn. intros s' [= <-]. now apply extent_placement with (o := Some w).
  - intros w2 l dstBufSize dstBufAlignment s bs ba o Hl W.
    destruct (copyTo_inline_cases w2 l dstBufSize dstBufAlignment s bs ba o Hl)
      as [(Hs & Ha & Hc)|(Hlt & msg & Hc)]; subst W; rewrite Hc;
      (split; [|split]).
    + split; [intros (? & ? & ?); discriminate | lia].
    + split; eauto.
    + cbn. intros s' [= <-]. now apply extent_placement with (o := o).
    + split; eauto.
    + split; [intros (? & ? & ?); discriminate | lia].
    + cbn. now intros s' [= <-].
Qed.

(** C10: when assigning a callable to a [Lambda], copy-assigning a [Lambda]
    to it, or move-assigning an [AllocLambda] to it throws
    [IncompatibleLambdaError], the destination held a live record before
    and holds none afterwards: its buffer is raw storage, the record was
    destroyed before the check. *)
Theorem C10_failed_assignment_destroys_destination :
  (forall (Copy : bool) (l : positive) (f : Callable) (s s' : State) message,
     Lambda_assign_function Copy l f s = Throws (IncompatibleLambdaError message) s' ->
     exists bs ba w,
       memory s !! l = Some (mkBlock bs ba (Some w))
       /\ memory s' !! l = Some (mkBlock bs ba None))
  /\ (forall (l1 l2 : positive) (s s' : State) message,
     copyAssignLambda_Lambda_Lambda l1 l2 s
       = Throws (IncompatibleLambdaError message) s' ->
     exists bs ba w,
       memory s !! l1 = Some (mkBlock bs ba (Some w))
       /\ memory s' !! l1 = Some (mkBlock bs ba None))
  /\ (forall (l1 : positive) (l2 : AllocLambda) (s s' : State) message,
     moveAssignLambda_Lambda_AllocLambda l1 l2 s
       = Throws (IncompatibleLambdaError message) s' ->
     exists bs ba w,
       memory s !! l1 = Some (mkBlock bs ba (Some w))
       /\ memory s' !! l1 = Some (mkBlock bs ba None)).
Proof.
  split; [|split].
  - intros Copy l f s s' message Ht.
    destruct (Lambda_assign_function_live Copy l f s) as (bs & ba & w & Hl);
      [congruence|].
    exists bs, ba, w. split; [exact Hl|].
    destruct (Lambda_assign_function_cases Copy l f s bs ba w Hl)
      as [(_ & _ & Hc)|(_ & msg & Hc)]; rewrite Hc in Ht; [discriminate|].
    injection Ht as _ <-. cbn. apply lookup_insert_eq.
  - intros l1 l2 s s' message Ht.
    unfold copyAssignLambda_Lambda_Lambda in Ht.
    apply bind_Throws in Ht as [Ht|(? & ? & _ & Hm)]; [|discriminate].
    rewrite copyBuffer_eq in Ht.
    destruct (memory s !! l1) as [[bs ba [w1|]]|] eqn:E1; try discriminate.
    cbv zeta in Ht.
    match type of Ht with context [deref ?p ?st] =>
      destruct (deref p st) as [w2 s2| | |] eqn:E2; try discriminate
    end.
    exists bs, ba, w1. split; [reflexivity|].
    assert (Hraw : memory (mkState (<[l1 := mkBlock bs ba None]> (memory s))
                                   (owners s)) !! l1
                   = Some (mkBlock bs ba None)) by (cbn; apply lookup_insert_eq).
    destruct (copyTo_inline_cases w2 l1 (bufferSize w1) (bufferAlignment w1)
                _ bs ba None Hraw)
      as [(_ & _ & Hc)|(_ & msg & Hc)]; rewrite Hc in Ht; [discriminate|].
    injection Ht as _ <-. exact Hraw.
  - intros l1 l2 s s' message Ht.
    unfold moveAssignLambda_Lambda_AllocLambda in Ht.
    apply bind_Throws in Ht as [Ht|(? & ? & _ & Hm)]; [|discriminate].
    rewrite moveBuffer_eq in Ht.
    destruct (memory s !! l1) as [[bs ba [w1|]]|] eqn:E1; try discriminate.
    cbv zeta in Ht.
    match type of Ht with context [deref ?p ?st] =>
      destruct (deref p st) as [w2 s2| | |] eqn:E2; try discriminate
    end.
    exists bs, ba, w1. split; [reflexivity|].
    assert (Hraw : memory (mkState (<[l1 := mkBlock bs ba None]> (memory s))
                                   (owners s)) !! l1
                   = Some (mkBlock bs ba None)) by (cbn; apply lookup_insert_eq).
    destruct (copyTo_inline_cases w2 l1 (bufferSize w1) (bufferAlignment w1)
                _ bs ba None Hraw)
      as [(_ & _ & Hc)|(_ & msg & Hc)].
    + exfalso. rewrite (bind_eq _ _ _ _ _ Hc) in Ht.
      apply bind_Throws in Ht as [Hd|(? & ? & _ & Ht)];
        [now apply destroy_not_Throws in Hd|].
      apply bind_Throws in Ht as [Hi|(? & ? & _ & Ht)];
        [now apply initEmptyLambda_alloc_not_Throws in Hi|discriminate].
    + rewrite (bind_Throws_eq _ _ _ _ _ Hc) in Ht.
      injection Ht as _ <-. exact Hraw.
Qed.

End InlineBuffers.

(* ===================================================================== *)
(** ** Calling a lambda                                                    *)
(* ===================================================================== *)

Section Calls.

Context {Args R : Type}.
Context `{Layout}.

Abbreviation State := (State Args R).
Abbreviation Callable := (Callable Args R).

(** Constructing a [Lambda] from a callable returns whenever the wrapper
    fits the inline buffer. *)
Lemma Lambda_from_function_fits (Copy : bool) (f : Callable) (s : State) :
  sizeof (TNonAllocLambdaWrapper (ftype f)) <= CX_LAMBDA_BUF_SIZE ->
  alignof (TNonAllocLambdaWrapper (ftype f)) <= CX_LAMBDA_BUF_ALIGN ->
  exists l s', Lambda_from_function Copy f s = Returns l s'.
Proof.
  intros Hs Ha. unfold Lambda_from_function.
  rewrite (bind_eq _ _ _ _ _ (Lambda_default_eq s)). cbv zeta.
  unfold mbind at 1, M_bind at 1, unwinding. rewrite Lambda_assign_function_eq.
  cbn [memory]. rewrite lookup_insert_eq. cbv zeta.
  cbn [bufferSize bufferAlignment].
  rewrite wrapperBufferCheck_fits by assumption.
  eexists _, _. reflexivity.
Qed.

(** Constructing an [AllocLambda] from a callable returns whenever the
    wrapper fits the buffer of the default constructor. *)
Lemma AllocLambda_from_function_fits (Copy : bool) (f : Callable) (s : State) :
  let size := N.max CX_LAMBDA_BUF_SIZE (sizeof TAllocLambdaWrapperStub) in
  let alignment := N.max CX_LAMBDA_BUF_ALIGN (alignof TAllocLambdaWrapperStub) in
  sufficient (TAllocLambdaWrapper (ftype f)) size alignment = true ->
  exists l s', AllocLambda_from_function Copy f s = Returns l s'.
Proof.
  intros size alignment Hs. unfold AllocLambda_from_function.
  rewrite (bind_eq _ _ _ _ _ (AllocLambda_default_eq s)). cbv zeta.
  unfold unwinding. rewrite AllocLambda_assign_function_eq. cbn [memory].
  rewrite lookup_insert_eq. cbn [bufferSize bufferAlignment].
  fold size alignment. rewrite Hs. eexists _, _. reflexivity.
Qed.

(** What a construction that returns leaves in the buffer. *)
Lemma Lambda_from_function_Returns (Copy : bool) (f : Callable)
    (s s' : State) (l : positive) :
  Lambda_from_function Copy f s = Returns l s' ->
  deref (Some l) s' = Returns (NonAllocLambdaWrapper f) s'.
Proof.
  intros Hc. unfold Lambda_from_function in Hc.
  apply bind_Returns in Hc as (l0 & s1 & _ & Hc).
  apply bind_Returns in Hc as ([] & s2 & Ha & Hm).
  injection Hm as <- <-.
  apply unwinding_Returns in Ha.
  now apply Lambda_assign_function_Returns in Ha.
Qed.

Lemma AllocLambda_from_function_Returns (Copy : bool) (f : Callable)
    (s s' : State) (l : option positive) :
  AllocLambda_from_function Copy f s = Returns l s' ->
  exists sz al, deref l s' = Returns (AllocLambdaWrapper f sz al) s'.
Proof.
  intros Hc. unfold AllocLambda_from_function in Hc.
  apply bind_Returns in Hc as (l0 & s1 & _ & Ha).
  apply unwinding_Returns in Ha.
  now apply AllocLambda_assign_function_Returns in Ha as (_ & sz & al & Hd); eauto.
Qed.

(** [Lambda(F)] on a callable whose wrapper does not fit the inline buffer:
    [operator=] destroys the empty record, the buffer check throws, and
    [~Lambda()] destroys the record of that buffer once more. *)
Lemma Lambda_from_function_too_large (Copy : bool) (f : Callable) (s : State) :
  CX_LAMBDA_BUF_SIZE < sizeof (TNonAllocLambdaWrapper (ftype f))
  \/ CX_LAMBDA_BUF_ALIGN < alignof (TNonAllocLambdaWrapper (ftype f)) ->
  Lambda_from_function Copy f s = Undefined.
Proof.
  intros Hlt. unfold Lambda_from_function.
  rewrite (bind_eq _ _ _ _ _ (Lambda_default_eq s)). cbv zeta.
  apply bind_Undefined.
  match goal with |- unwinding _ _ ?st = _ =>
    destruct (Lambda_assign_function_cases Copy (fresh (dom (memory s))) f st
                CX_LAMBDA_BUF_SIZE CX_LAMBDA_BUF_ALIGN
                (NonAllocLambdaWrapperStub CX_LAMBDA_BUF_SIZE CX_LAMBDA_BUF_ALIGN))
      as [(Hs & Ha & _)|(_ & msg & Ht)]
  end.
  - cbn. apply lookup_insert_eq.
  - cbn [bufferSize bufferAlignment] in Hs, Ha. lia.
  - apply (unwinding_Throws _ _ _ _ _ Ht).
    unfold Lambda_destructor.
    apply destroy_raw with (bs := CX_LAMBDA_BUF_SIZE) (ba := CX_LAMBDA_BUF_ALIGN).
    cbn. apply lookup_insert_eq.
Qed.

(** [AllocLambda(F)] on a callable whose wrapper does not fit the buffer
    of the default constructor: [checkOrReallocate] allocates a buffer and
    [assign] destroys the record of that buffer, which has none yet. *)
Lemma AllocLambda_from_function_too_large (Copy : bool) (f : Callable) (s : State) :
  sufficient (TAllocLambdaWrapper (ftype f))
    (N.max CX_LAMBDA_BUF_SIZE (sizeof TAllocLambdaWrapperStub))
    (N.max CX_LAMBDA_BUF_ALIGN (alignof TAllocLambdaWrapperStub)) = false ->
  AllocLambda_from_function Copy f s = Undefined.
Proof.
  intros Hs. unfold AllocLambda_from_function.
  rewrite (bind_eq _ _ _ _ _ (AllocLambda_default_eq s)). cbv zeta.
  unfold unwinding. rewrite AllocLambda_assign_function_eq. cbn [memory].
  rewrite lookup_insert_eq. cbn [bufferSize bufferAlignment].
  now rewrite Hs.
Qed.

Lemma invoke_defined (f : Callable) (args : Args) (s : State) :
  invoke f args s <> Undefined.
Proof.
  unfold invoke. destruct (fbody f args); [discriminate|].
  destruct (NoexceptFunction (ftype f)); discriminate.
Qed.

(** C1: the code at the callables for which the claim fails.  For every
    callable [f] whose allocating wrapper exceeds, in size or in alignment,
    the buffer [AllocLambda()] sets up, constructing an [AllocLambda] from
    [f], by copy or by move, has undefined behaviour, and so has
    constructing it and calling it, whereas calling [f] itself has a
    defined outcome.  The same holds for constructing a [Lambda] of any
    specialization from a callable whose non-allocating wrapper exceeds the
    inline buffer. *)
Theorem C1_construction_from_a_large_callable_is_undefined :
  forall (Copy : bool) (f : Callable) (args : Args) (s : State),
    (sufficient (TAllocLambdaWrapper (ftype f))
       (N.max CX_LAMBDA_BUF_SIZE (sizeof TAllocLambdaWrapperStub))
       (N.max CX_LAMBDA_BUF_ALIGN (alignof TAllocLambdaWrapperStub)) = false ->
     AllocLambda_from_function Copy f s = Undefined
     /\ (l ← AllocLambda_from_function Copy f; AllocLambda_call l args) s = Undefined
     /\ (l ← AllocLambda_from_function Copy f; AllocLambda_call l args) s
        <> invoke f args s)
    /\ (CX_LAMBDA_BUF_SIZE < sizeof (TNonAllocLambdaWrapper (ftype f))
        \/ CX_LAMBDA_BUF_ALIGN < alignof (TNonAllocLambdaWrapper (ftype f)) ->
        forall S : Specialization,
          Lambda_from_function Copy f s = Undefined
          /\ (l ← Lambda_from_function Copy f; Lambda_call S l args) s = Undefined
          /\ (l ← Lambda_from_function Copy f; Lambda_call S l args) s
             <> invoke f args s).
Proof.
  intros Copy f args s. split.
  - intros Hs.
    pose proof (AllocLambda_from_function_too_large Copy f s Hs) as Hu.
    split; [exact Hu|].
    rewrite (bind_Undefined _ _ _ Hu).
    split; [reflexivity|]. intros Heq. now apply (invoke_defined f args s).
  - intros Hlt S.
    pose proof (Lambda_from_function_too_large Copy f s Hlt) as Hu.
    split; [exact Hu|].
    rewrite (bind_Undefined _ _ _ Hu).
    split; [reflexivity|]. intros Heq. now apply (invoke_defined f args s).
Qed.

(** For each specialization and each callable [f] admitted by its
    prototype restriction: constructing a [Lambda] from [f], by copy or by
    move, returns a lambda whenever the wrapper of [f] fits the inline
    buffer, and constructing an [AllocLambda] from [f] returns one whenever
    the wrapper fits the buffer of the default constructor; and whenever
    the construction returns a lambda, calling that lambda with [args] has
    the outcome of calling [f] with [args]: same value or same exception,
    same store. *)
Theorem call_forwards_to_the_callable_where_construction_returns :
  forall (S : Specialization) (Copy : bool) (f : Callable) (args : Args) (s : State),
    PrototypeRestriction S (ftype f) = true ->
    ((sizeof (TNonAllocLambdaWrapper (ftype f)) <= CX_LAMBDA_BUF_SIZE ->
      alignof (TNonAllocLambdaWrapper (ftype f)) <= CX_LAMBDA_BUF_ALIGN ->
      exists l s', Lambda_from_function Copy f s = Returns l s')
     /\ forall (l : positive) (s' : State),
          Lambda_from_function Copy f s = Returns l s' ->
          Lambda_call S l args s' = invoke f args s')
    /\ ((sufficient (TAllocLambdaWrapper (ftype f))
           (N.max CX_LAMBDA_BUF_SIZE (sizeof TAllocLambdaWrapperStub))
           (N.max CX_LAMBDA_BUF_ALIGN (alignof TAllocLambdaWrapperStub)) = true ->
         exists l s', AllocLambda_from_function Copy f s = Returns l s')
        /\ forall (l : option positive) (s' : State),
             AllocLambda_from_function Copy f s = Returns l s' ->
             AllocLambda_call l args s' = invoke f args s').
Proof.
  intros S Copy f args s Hr. split; split.
  - apply Lambda_from_function_fits.
  - intros l s' Hc%Lambda_from_function_Returns.
    now apply Lambda_call_wrapper with (w := NonAllocLambdaWrapper f).
  - apply AllocLambda_from_function_fits.
  - intros l s' (sz & al & Hd)%AllocLambda_from_function_Returns.
    now apply AllocLambda_call_wrapper with (w := AllocLambdaWrapper f sz al).
Qed.

(** C2: in a state where a lambda reports [present() == false], the call
    operator of the throwing-qualified specializations throws
    [UninitializedLambdaError] and leaves the store as it is, and the call
    operator of the noexcept-qualified specializations terminates the
    process.  A default-constructed lambda is in that state. *)
Theorem C2_uninitialized_call :
  forall (s : State) (args : Args),
    (forall l : positive,
       Lambda_present l s = Returns false s ->
       Lambda_call Unqualified l args s = Throws UninitializedLambdaError s
       /\ Lambda_call CVariadic l args s = Throws UninitializedLambdaError s
       /\ Lambda_call NoexceptQualified l args s = Terminated
       /\ Lambda_call CVariadicNoexcept l args s = Terminated)
    /\ (forall l : option positive,
       AllocLambda_present l s = Returns false s ->
       AllocLambda_call l args s = Throws UninitializedLambdaError s)
    /\ (forall (l : positive) (s' : State),
       Lambda_default s = Returns l s' ->
       Lambda_present l s' = Returns false s')
    /\ (forall (l : option positive) (s' : State),
       AllocLambda_default s = Returns l s' ->
       AllocLambda_present l s' = Returns false s').
Proof.
  intros s args. split; [|split; [|split]].
  - intros l Hp. apply present_Returns in Hp as (_ & w & Hd & Hp).
    exact (Lambda_call_stub l w args s Hd Hp).
  - intros l Hp. apply present_Returns in Hp as (_ & w & Hd & Hp).
    exact (AllocLambda_call_stub l w args s Hd Hp).
  - intros l s' Hc. rewrite Lambda_default_eq in Hc. injection Hc as <- <-.
    unfold Lambda_present.
    erewrite bind_eq by (eapply deref_live; cbn; apply lookup_insert_eq).
    reflexivity.
  - intros l s' Hc. rewrite AllocLambda_default_eq in Hc. injection Hc as <- <-.
    unfold AllocLambda_present.
    erewrite bind_eq by (eapply deref_live; cbn; apply lookup_insert_eq).
    reflexivity.
Qed.

End Calls.

(** C1 on the concrete platform: [double], whose allocating wrapper takes
    72 bytes, returns 42 when called with 21; constructing an
    [AllocLambda] from it, where the default buffer has 64 bytes, has
    undefined behaviour. *)
Lemma C1_witness :
  invoke double 21 (initial : State N N) = Returns 42 initial
  /\ AllocLambda_from_function true double (initial : State N N) = Undefined
  /\ (l ← AllocLambda_from_function true double; AllocLambda_call l 21)
       (initial : State N N) = Undefined.
Proof.
  split; [reflexivity|].
  destruct (proj1 (C1_construction_from_a_large_callable_is_undefined (H:=LP64)
                     true double 21 initial)) as (Hc & Hcall & _).
  - reflexivity.
  - split; [exact Hc|exact Hcall].
Defined.

(** [successor] copied into a [Lambda] and into an [AllocLambda] on the
    concrete platform and called with 5. *)
Lemma call_forwards_witness :
  (exists l s',
     Lambda_from_function true successor initial = Returns l s'
     /\ Lambda_call Unqualified l 5 s' = Returns 6 s')
  /\ (exists l s',
     AllocLambda_from_function true successor initial = Returns l s'
     /\ AllocLambda_call l 5 s' = Returns 6 s').
Proof.
  destruct (call_forwards_to_the_callable_where_construction_returns (H:=LP64)
              Unqualified true successor 5 initial eq_refl) as [[HLr HLc] [HAr HAc]].
  split.
  - destruct HLr as (l & s' & Hc); [cbn; lia | cbn; lia |].
    exists l, s'. split; [exact Hc|]. rewrite (HLc l s' Hc). reflexivity.
  - destruct HAr as (l & s' & Hc); [reflexivity|].
    exists l, s'. split; [exact Hc|]. rewrite (HAc l s' Hc). reflexivity.
Defined.

(** C2 at a default-constructed [Lambda] and a default-constructed
    [AllocLambda] on the concrete platform. *)
Lemma C2_witness :
  Lambda_call (R:=N) Unqualified 1%positive 5 (after Lambda_default initial)
    = Throws UninitializedLambdaError (after Lambda_default initial)
  /\ Lambda_call (R:=N) NoexceptQualified 1%positive 5 (after Lambda_default initial)
    = Terminated
  /\ AllocLambda_call (R:=N) (Some 1%positive) 5 (after AllocLambda_default initial)
    = Throws UninitializedLambdaError (after AllocLambda_default initial).
Proof.
  pose proof (C2_uninitialized_call (Args:=N) (R:=N)
                (after Lambda_default initial) 5) as (HL & _ & _ & _).
  pose proof (C2_uninitialized_call (Args:=N) (R:=N)
                (after AllocLambda_default initial) 5) as (_ & HA & _ & _).
  destruct (HL 1%positive) as (H1 & _ & H3 & _); [vm_compute; reflexivity|].
  split; [exact H1|split; [exact H3|]].
  apply HA. vm_compute. reflexivity.
Defined.

(** C3 at the boundary, on the concrete platform: a default-constructed
    [Lambda] (64-byte buffer) accepts a callable whose wrapper is exactly
    64 bytes and rejects one whose wrapper is 65 bytes. *)
Lemma C3_witness :
  (exists s',
     Lambda_assign_function true 1%positive exact_fit (after Lambda_default initial)
     = Returns tt s')
  /\ (exists message s',
     Lambda_assign_function true 1%positive one_more (after Lambda_default initial)
     = Throws (IncompatibleLambdaError message) s').
Proof.
  assert (Hl : memory (after (Lambda_default (Args:=N) (R:=N)) initial) !! 1%positive
               = Some (mkBlock 64 64 (Some (NonAllocLambdaWrapperStub 64 64))))
    by (vm_compute; reflexivity).
  split.
  - apply (proj1 (proj2 (C3_inline_buffer_check (Args:=N) (R:=N) (H:=LP64)))
             true 1%positive exact_fit _ 64 64 _ Hl).
    cbn. lia.
  - apply (proj1 (proj2 (C3_inline_buffer_check (Args:=N) (R:=N) (H:=LP64)))
             true 1%positive one_more _ 64 64 _ Hl).
    cbn. lia.
Defined.

(** The 65-byte wrapper passes the two [static_assert]s of
    [lambdaAssignBufferCheck], which compare its alignment only. *)
Example lambdaAssignBufferCheck_one_more :
  lambdaAssignBufferCheck OneMore CX_LAMBDA_BUF_SIZE CX_LAMBDA_BUF_ALIGN = true.
Proof. reflexivity. Qed.

(** C10 at the rejected assignment of the 65-byte wrapper: the stub that
    the default-constructed [Lambda] held is gone. *)
Lemma C10_witness :
  exists bs ba (w : Wrapper N N),
    memory (after Lambda_default initial) !! 1%positive
      = Some (mkBlock bs ba (Some w))
    /\ memory (after (Lambda_assign_function true 1%positive one_more)
                 (after Lambda_default initial)) !! 1%positive
      = Some (mkBlock bs ba None).
Proof.
  apply (proj1 (C10_failed_assignment_destroys_destination (Args:=N) (R:=N) (H:=LP64))
           true 1%positive one_more _ _
           "Receiving lambda does not have a large enough buffer to contain the assigned lambda's buffer"%string).
  vm_compute. reflexivity.
Defined.

(* ===================================================================== *)
(** ** Sharing a heap buffer                                               *)
(* ===================================================================== *)

Section Sharing.

Context {Args R : Type}.
Context `{Layout}.

Abbreviation State := (State Args R).
Abbreviation Callable := (Callable Args R).

(** C6 (amended): whenever copy-assigning an [AllocLambda] from an
    [AllocLambda] returns, the destination holds the source's buffer
    pointer; no storage was added, and the source's buffer, with the record
    in it, is as it was; its use count is one higher than before, or the
    same as before when the destination already held that very buffer; a
    call of the copy is a call of the original.  When a callable [g] is
    then assigned to the copy and that assignment returns, the copy keeps
    the shared buffer, the wrapper of [g] is constructed in it, and both
    the copy and the original call [g]. *)
Theorem C6_copy_shares_the_buffer :
  forall (l1 l2 l1' : option positive) (s s1 : State),
    copyAssignLambda_AllocLambda_AllocLambda l1 l2 s = Returns l1' s1 ->
    l1' = l2
    /\ dom (memory s1) ⊆ dom (memory s)
    /\ (forall a, l2 = Some a ->
          memory s1 !! a = memory s !! a
          /\ exists n, owners s !! a = Some n
               /\ owners s1 !! a
                  = Some (if bool_decide (l1 = l2) then n else Pos.succ n))
    /\ (forall args : Args,
          AllocLambda_call l1' args s1 = AllocLambda_call l2 args s1)
    /\ (forall (Copy : bool) (g : Callable) (l1'' : option positive) (s2 : State),
          AllocLambda_assign_function Copy l1' g s1 = Returns l1'' s2 ->
          l1'' = l2
          /\ forall args : Args,
               AllocLambda_call l2 args s2 = invoke g args s2
               /\ AllocLambda_call l1'' args s2 = invoke g args s2).
Proof.
  intros l1 l2 l1' s s1 Hc.
  apply shared_ptr_assign_Returns in Hc as (-> & Hdom & Hbuf).
  split; [reflexivity|]. split; [exact Hdom|]. split; [exact Hbuf|].
  split; [reflexivity|].
  intros Copy g l1'' s2 Ha.
  apply AllocLambda_assign_function_Returns in Ha as (-> & sz & al & Hd).
  split; [reflexivity|]. intros args.
  split; now apply AllocLambda_call_wrapper with (w := AllocLambdaWrapper g sz al).
Qed.

End Sharing.

(** C6 as stated fails on the concrete platform: with [a] holding
    [successor] and [b = a], assigning [add_hundred] to [b] makes [a(5)]
    return 105 instead of 6. *)
Lemma C6_counterexample : ~ @reassigned_copy_leaves_original N N LP64.
Proof.
  intros Hc.
  pose (s := after original_and_empty initial).
  pose (s1 := after (copyAssignLambda_AllocLambda_AllocLambda
                       (Some 2%positive) (Some 1%positive)) s).
  pose (s2 := after (AllocLambda_assign_function true (Some 1%positive) add_hundred) s1).
  specialize (Hc (Some 2%positive) (Some 1%positive) (Some 1%positive)
                 (Some 1%positive) s s1 s2 true add_hundred 5).
  assert (Hobs : observe (AllocLambda_call (Some 1%positive) 5 s2) = Value 105
                 /\ observe (AllocLambda_call (Some 1%positive) 5 s1) = Value 6)
    by (split; vm_compute; reflexivity).
  destruct Hobs as [H2 H1]. rewrite H2, H1 in Hc.
  discriminate Hc; vm_compute; reflexivity.
Qed.

(** C6 (amended) on the concrete platform: [b = a] with [a] holding
    [successor], then [b = add_hundred]. *)
Lemma C6_witness :
  AllocLambda_call (Some 1%positive) 5
    (after (AllocLambda_assign_function true (Some 1%positive) add_hundred)
       (after (copyAssignLambda_AllocLambda_AllocLambda
                 (Some 2%positive) (Some 1%positive))
          (after original_and_empty initial)))
  = invoke add_hundred 5
      (after (AllocLambda_assign_function true (Some 1%positive) add_hundred)
         (after (copyAssignLambda_AllocLambda_AllocLambda
                   (Some 2%positive) (Some 1%positive))
            (after original_and_empty initial))).
Proof.
  pose (s := after original_and_empty initial).
  pose (s1 := after (copyAssignLambda_AllocLambda_AllocLambda
                       (Some 2%positive) (Some 1%positive)) s).
  pose (s2 := after (AllocLambda_assign_function true (Some 1%positive) add_hundred) s1).
  assert (Hcopy : copyAssignLambda_AllocLambda_AllocLambda
                    (Some 2%positive) (Some 1%positive) s
                  = Returns (Some 1%positive) s1) by (vm_compute; reflexivity).
  assert (Hassign : AllocLambda_assign_function true (Some 1%positive) add_hundred s1
                    = Returns (Some 1%positive) s2) by (vm_compute; reflexivity).
  destruct (C6_copy_shares_the_buffer (H:=LP64) _ _ _ _ _ Hcopy)
    as (_ & _ & _ & _ & Hre).
  destruct (Hre true add_hundred _ _ Hassign) as (_ & Hcalls).
  exact (proj1 (Hcalls 5)).
Defined.

(* ===================================================================== *)
(** ** Move assignment                                                     *)
(* ===================================================================== *)

Section Moving.

Context {Args R : Type}.
Context `{Layout}.

Abbreviation State := (State Args R).
Abbreviation Wrapper := (Wrapper Args R).

(** [Lambda<...> <- Lambda<...>]. *)
Lemma move_Lambda_Lambda (l1 l2 : positive) (w2 : Wrapper) (s s' : State) :
  deref (Some l2) s = Returns w2 s ->
  moveAssignLambda_Lambda_Lambda l1 l2 s = Returns tt s' ->
  Lambda_present l2 s' = Returns false s'
  /\ Lambda_present l1 s' = Returns (present w2) s'
  /\ forall S (args : Args),
       observe (Lambda_call S l1 args s') = observe (Lambda_call S l2 args s).
Proof.
  intros Hd2 Hm. unfold moveAssignLambda_Lambda_Lambda in Hm.
  apply bind_Returns in Hm as (p & s4 & Hm & Hr). injection Hr as <-.
  rewrite moveBuffer_eq in Hm.
  destruct (memory s !! l1) as [[bs ba [w1|]]|] eqn:E1; try discriminate.
  cbv zeta in Hm.
  match type of Hm with context [deref ?q ?st] =>
    destruct (deref q st) as [w2' s2| | |] eqn:E2; try discriminate
  end.
  destruct (deref_after_destroy _ _ _ _ _ _ _ _ Hd2 E2) as [-> Hne].
  apply bind_Returns in Hm as (q & s2' & Hc & Hm).
  apply bind_Returns in Hm as ([] & s3 & Hdes & Hm).
  apply bind_Returns in Hm as (q' & s4' & Hi & Hm). injection Hm as <- <-.
  destruct (copyTo_inline_cases w2 l1 (bufferSize w1) (bufferAlignment w1)
              (mkState (<[l1 := mkBlock bs ba None]> (memory s)) (owners s))
              bs ba None) as [(_ & _ & Hc')|(_ & msg & Hc')];
    [cbn; apply lookup_insert_eq| |]; rewrite Hc' in Hc; [|discriminate].
  injection Hc as <- <-.
  apply destroy_Returns in Hdes as (a & sz & al & w & [= <-] & Hl2 & ->).
  apply initEmptyLambda_inline_Returns in Hi as (-> & bs2 & ba2 & o2 & Hl2' & ->).
  cbn [memory owners] in *.
  assert (Hn12 : l2 <> l1) by congruence.
  split; [|split].
  - unfold Lambda_present. erewrite bind_eq by solve_deref. reflexivity.
  - unfold Lambda_present. erewrite bind_eq by solve_deref.
    unfold mret, M_ret. now rewrite (proj2 (wrapped_relocate_inline _ _ _)).
  - intros S args.
    eapply Lambda_call_observe; [solve_deref|exact Hd2|apply wrapped_relocate_inline].
Qed.

(** [Lambda<...> <- AllocLambda<...>].  The source is re-initialized in
    its own buffer when that buffer is sufficient for the stub. *)
Lemma move_Lambda_AllocLambda (l1 : positive) (l2 : option positive)
    (w2 : Wrapper) (s s' : State) :
  deref l2 s = Returns w2 s ->
  moveAssignLambda_Lambda_AllocLambda l1 l2 s = Returns tt s' ->
  (sufficient TAllocLambdaWrapperStub (bufferSize w2) (bufferAlignment w2) = true ->
   AllocLambda_present l2 s' = Returns false s')
  /\ Lambda_present l1 s' = Returns (present w2) s'
  /\ forall args : Args,
       observe (Lambda_call Unqualified l1 args s')
       = observe (AllocLambda_call l2 args s).
Proof.
  intros Hd2 Hm. unfold moveAssignLambda_Lambda_AllocLambda in Hm.
  apply bind_Returns in Hm as (p & s4 & Hm & Hr). injection Hr as <-.
  rewrite moveBuffer_eq in Hm.
  destruct (memory s !! l1) as [[bs ba [w1|]]|] eqn:E1; try discriminate.
  cbv zeta in Hm.
  match type of Hm with context [deref ?q ?st] =>
    destruct (deref q st) as [w2' s2| | |] eqn:E2; try discriminate
  end.
  destruct (deref_after_destroy _ _ _ _ _ _ _ _ Hd2 E2) as [-> Hne].
  apply bind_Returns in Hm as (q & s2' & Hc & Hm).
  apply bind_Returns in Hm as ([] & s3 & Hdes & Hm).
  apply bind_Returns in Hm as (q' & s4' & Hi & Hm). injection Hm as <- <-.
  destruct (copyTo_inline_cases w2 l1 (bufferSize w1) (bufferAlignment w1)
              (mkState (<[l1 := mkBlock bs ba None]> (memory s)) (owners s))
              bs ba None) as [(_ & _ & Hc')|(_ & msg & Hc')];
    [cbn; apply lookup_insert_eq| |]; rewrite Hc' in Hc; [|discriminate].
  injection Hc as <- <-.
  apply destroy_Returns in Hdes as (a2 & sz & al & w & -> & Hl2 & ->).
  assert (Hn12 : a2 <> l1) by congruence.
  apply initEmptyLambda_alloc_Returns in Hi
    as [(Hs & -> & a & bs2 & ba2 & o2 & [= <-] & Hl2' & ->)
       |(Hs & a & size' & alignment' & -> & Hfresh & _ & ->)];
    cbn [memory owners] in *.
  - split; [|split].
    + intros _. unfold AllocLambda_present. erewrite bind_eq by solve_deref. reflexivity.
    + unfold Lambda_present. erewrite bind_eq by solve_deref.
      unfold mret, M_ret. now rewrite (proj2 (wrapped_relocate_inline _ _ _)).
    + intros args.
      change (Lambda_call Unqualified l1 args ?st) with (AllocLambda_call (Some l1) args st).
      eapply AllocLambda_call_observe;
        [solve_deref|exact Hd2|apply wrapped_relocate_inline].
  - assert (Hna : a <> l1).
    { intros ->. lookups Hfresh. discriminate. }
    split; [|split].
    + intros Hs'. congruence.
    + unfold Lambda_present. erewrite bind_eq by solve_deref.
      unfold mret, M_ret. now rewrite (proj2 (wrapped_relocate_inline _ _ _)).
    + intros args.
      change (Lambda_call Unqualified l1 args ?st) with (AllocLambda_call (Some l1) args st).
      eapply AllocLambda_call_observe;
        [solve_deref|exact Hd2|apply wrapped_relocate_inline].
Qed.

(** [AllocLambda<...> <- Lambda<...>]. *)
Lemma move_AllocLambda_Lambda (l1 l1' : option positive) (l2 : positive)
    (w2 : Wrapper) (s s' : State) :
  deref (Some l2) s = Returns w2 s ->
  moveAssignLambda_AllocLambda_Lambda l1 l2 s = Returns l1' s' ->
  Lambda_present l2 s' = Returns false s'
  /\ AllocLambda_present l1' s' = Returns (present w2) s'
  /\ forall args : Args,
       observe (AllocLambda_call l1' args s')
       = observe (Lambda_call Unqualified l2 args s).
Proof.
  intros Hd2 Hm. unfold moveAssignLambda_AllocLambda_Lambda, allocLambdaBufferOp in Hm.
  apply bind_Returns in Hm as (p & s4 & Hm & Hr).
  rewrite moveBuffer_eq in Hm.
  destruct l1 as [a1|]; [|discriminate].
  destruct (memory s !! a1) as [[bs ba [w1|]]|] eqn:E1; try discriminate.
  cbv zeta in Hm.
  match type of Hm with context [deref ?q ?st] =>
    destruct (deref q st) as [w2' s2| | |] eqn:E2; try discriminate
  end.
  destruct (deref_after_destroy _ _ _ _ _ _ _ _ Hd2 E2) as [-> Hne].
  assert (Hn12 : l2 <> a1) by congruence.
  apply bind_Returns in Hm as (q & s2' & Hc & Hm).
  apply bind_Returns in Hm as ([] & s3 & Hdes & Hm).
  apply bind_Returns in Hm as (q' & s4' & Hi & Hm). injection Hm as <- <-.
  apply destroy_Returns in Hdes as (a2 & sz & al & w & [= <-] & Hl2 & ->).
  apply initEmptyLambda_inline_Returns in Hi as (-> & bs2 & ba2 & o2 & Hl2' & ->).
  assert (Hobs : forall (st : State) (args : Args),
            observe (Lambda_call Unqualified l2 args st)
            = observe (AllocLambda_call (Some l2) args st)) by reflexivity.
  apply copyTo_heap_Returns in Hc
    as [(Hs & -> & a & bs1 & ba1 & o1 & [= <-] & Hl1 & ->)
       |(Hs & a & size' & alignment' & -> & Hfresh & _ & ->)];
    cbn [memory owners] in *.
  - rewrite bool_decide_eq_false_2 in Hr by (intros Hx; now apply Hx).
    injection Hr as <- <-.
    split; [|split].
    + unfold Lambda_present. erewrite bind_eq by solve_deref. reflexivity.
    + unfold AllocLambda_present. erewrite bind_eq by solve_deref.
      unfold mret, M_ret. now rewrite (proj2 (wrapped_relocate_heap _ _ _)).
    + intros args. rewrite Hobs.
      eapply AllocLambda_call_observe;
        [solve_deref|exact Hd2|apply wrapped_relocate_heap].
  - assert (Hna1 : a <> a1) by (intros ->; lookups Hfresh; discriminate).
    assert (Hna2 : a <> l2).
    { intros ->. lookups Hfresh.
      apply deref_Returns in Hd2 as (_ & ? & ? & ? & [= <-] & Hd2). congruence. }
    rewrite bool_decide_eq_true_2 in Hr by congruence.
    apply shared_ptr_reset_to_Returns in Hr as (-> & Hrel).
    assert (Hmem : memory s' =
              <[l2 := mkBlock bs2 ba2
                        (Some (NonAllocLambdaWrapperStub (bufferSize w2) (bufferAlignment w2)))]>
                (<[l2 := mkBlock sz al None]>
                   (<[a := mkBlock size' alignment'
                             (Some (relocate_heap w2 size' alignment'))]>
                      (<[a1 := mkBlock bs ba None]> (memory s))))).
    { inversion Hrel as [Hnull|a0 n Ha0 Hn Hne1|a0 bs0 w0 Ha0 Hn Hm0]; subst;
        [discriminate|reflexivity|].
      injection Ha0 as <-. lookups Hm0. discriminate. }
    split; [|split].
    + unfold Lambda_present. erewrite bind_eq.
      2: { eapply deref_live. rewrite Hmem. apply lookup_insert_eq. }
      reflexivity.
    + unfold AllocLambda_present. erewrite bind_eq.
      2: { eapply deref_live. rewrite Hmem.
           rewrite !lookup_insert_ne by congruence. apply lookup_insert_eq. }
      unfold mret, M_ret. now rewrite (proj2 (wrapped_relocate_heap _ _ _)).
    + intros args. rewrite Hobs.
      eapply AllocLambda_call_observe; [|exact Hd2|apply wrapped_relocate_heap].
      eapply deref_live. rewrite Hmem.
      rewrite !lookup_insert_ne by congruence. apply lookup_insert_eq.
Qed.

(** [AllocLambda<...> <- AllocLambda<...>].  When both lambdas already
    share one buffer, that buffer has these two owners at least. *)
Lemma move_AllocLambda_AllocLambda (l1 l2 l1' l2' : option positive)
    (w2 : Wrapper) (s s' : State) :
  deref l2 s = Returns w2 s ->
  (l1 = l2 -> forall a, l2 = Some a -> owners s !! a <> Some 1%positive) ->
  moveAssignLambda_AllocLambda_AllocLambda l1 l2 s = Returns (l1', l2') s' ->
  l1' = l2
  /\ AllocLambda_present l1' s' = Returns (present w2) s'
  /\ (forall args : Args,
        observe (AllocLambda_call l1' args s') = observe (AllocLambda_call l2 args s))
  /\ AllocLambda_present l2' s' = Returns false s'
  /\ exists a2,
       l2' = Some a2 /\ l2' <> l2
       /\ let size := N.max CX_LAMBDA_BUF_SIZE (sizeof TAllocLambdaWrapperStub) in
          let alignment := N.max CX_LAMBDA_BUF_ALIGN (alignof TAllocLambdaWrapperStub) in
          memory s' !! a2
            = Some (mkBlock size alignment (Some (AllocLambdaWrapperStub size alignment)))
          /\ owners s' !! a2 = Some 1%positive.
Proof.
  intros Hd2 Hown Hm. unfold moveAssignLambda_AllocLambda_AllocLambda in Hm.
  apply bind_Returns in Hm as (q1 & s1 & Hassign & Hm).
  apply bind_Returns in Hm as (q2 & s2o & Hreset & Hm).
  apply bind_Returns in Hm as (q3 & s3 & Hinit & Hm).
  injection Hm as <- <- <-.
  apply shared_ptr_assign_Returns in Hassign as (-> & _ & Hbuf).
  unfold shared_ptr_reset in Hreset.
  apply bind_Returns in Hreset as ([] & s2 & Hrel & Hm'). injection Hm' as <- <-.
  apply shared_ptr_release_Returns in Hrel.
  change (AllocLambda_default s2 = Returns q3 s3) in Hinit.
  rewrite AllocLambda_default_eq in Hinit. cbv zeta in Hinit.
  injection Hinit as <- <-.
  pose proof (deref_Returns _ _ _ _ Hd2) as (_ & a & sz & al & -> & Hl2).
  destruct (Hbuf a eq_refl) as (Hmem & n & Hn & Hn1).
  assert (Hmem2 : memory s2 = memory s1).
  { inversion Hrel as [Hnull|a0 n0 Ha0 Hn0 Hne1|a0 bs0 w0 Ha0 Hn0 Hm0]; subst;
      [discriminate|reflexivity|exfalso].
    injection Ha0 as <-. rewrite Hn1 in Hn0. injection Hn0 as Hn0.
    case_bool_decide as Heq.
    - subst n. now apply (Hown Heq a eq_refl).
    - now apply Pos.succ_not_1 in Hn0. }
  set (a2 := fresh (dom (memory s2))).
  assert (Hfresh : memory s2 !! a2 = None) by apply not_elem_of_dom, is_fresh.
  assert (Hna : a2 <> a).
  { intros Heq. rewrite Heq, Hmem2, Hmem, Hl2 in Hfresh. discriminate. }
  match goal with |- context [AllocLambda_present (Some a) ?st] =>
    assert (Hd1 : deref (Some a) st = Returns w2 st)
  end.
  { eapply deref_live. cbn [memory].
    rewrite lookup_insert_ne, Hmem2, Hmem by exact Hna. exact Hl2. }
  split; [reflexivity|]. split; [|split; [|split]].
  - unfold AllocLambda_present. now rewrite (bind_eq _ _ _ _ _ Hd1).
  - intros args. now eapply AllocLambda_call_observe; [exact Hd1|exact Hd2|].
  - unfold AllocLambda_present. erewrite bind_eq by solve_deref. reflexivity.
  - exists a2. split; [reflexivity|]. split; [congruence|].
    cbn [memory owners]. split; apply lookup_insert_eq.
Qed.

(** [a = std::move(a)] on an [AllocLambda]: whatever it held, it ends up
    with a buffer of its own that holds the empty record and has the
    default size and alignment. *)
Lemma move_AllocLambda_self (l l' : option positive) (s s' : State) :
  moveAssignLambda_AllocLambda_self l s = Returns l' s' ->
  AllocLambda_present l' s' = Returns false s'
  /\ exists a2,
       l' = Some a2
       /\ let size := N.max CX_LAMBDA_BUF_SIZE (sizeof TAllocLambdaWrapperStub) in
          let alignment := N.max CX_LAMBDA_BUF_ALIGN (alignof TAllocLambdaWrapperStub) in
          memory s' !! a2
            = Some (mkBlock size alignment (Some (AllocLambdaWrapperStub size alignment)))
          /\ owners s' !! a2 = Some 1%positive.
Proof.
  intros Hm. unfold moveAssignLambda_AllocLambda_self in Hm.
  apply bind_Returns in Hm as (q1 & s1 & _ & Hm).
  apply bind_Returns in Hm as (q2 & s2 & Hreset & Hinit).
  unfold shared_ptr_reset in Hreset.
  apply bind_Returns in Hreset as ([] & s2' & _ & Hm'). injection Hm' as <- <-.
  change (AllocLambda_default s2' = Returns l' s') in Hinit.
  rewrite AllocLambda_default_eq in Hinit. cbv zeta in Hinit.
  injection Hinit as <- <-.
  split.
  - unfold AllocLambda_present. erewrite bind_eq by solve_deref. reflexivity.
  - eexists. split; [reflexivity|]. cbn [memory owners].
    split; apply lookup_insert_eq.
Qed.

(** C7 (amended): whenever a move assignment returns, for each of the four
    combinations of [Lambda] and [AllocLambda], with [w2] the record the
    source held: the source reports [present() == false] (for
    [Lambda <- AllocLambda], provided the source's buffer is sufficient for
    the stub), the destination reports what the source reported, and a
    call of the destination lets the caller observe what a call of the
    source did.  For [AllocLambda <- AllocLambda], between two lambdas
    that, when they hold one and the same buffer, are two of its owners,
    the destination takes over the source's buffer pointer and the source
    gets another buffer, with one owner, holding the empty record, whose
    size and alignment are those of a default-constructed [AllocLambda]:
    [max(CX_LAMBDA_BUF_SIZE, sizeof(stub))] and
    [max(CX_LAMBDA_BUF_ALIGN, alignof(stub))].  An [AllocLambda]
    move-assigned to itself ends up empty, in such a buffer. *)
Theorem C7_move_drains_the_source :
  (forall (l1 l2 : positive) (w2 : Wrapper) (s s' : State),
     deref (Some l2) s = Returns w2 s ->
     moveAssignLambda_Lambda_Lambda l1 l2 s = Returns tt s' ->
     Lambda_present l2 s' = Returns false s'
     /\ Lambda_present l1 s' = Returns (present w2) s'
     /\ forall S (args : Args),
          observe (Lambda_call S l1 args s') = observe (Lambda_call S l2 args s))
  /\ (forall (l1 : positive) (l2 : option positive) (w2 : Wrapper) (s s' : State),
     deref l2 s = Returns w2 s ->
     moveAssignLambda_Lambda_AllocLambda l1 l2 s = Returns tt s' ->
     (sufficient TAllocLambdaWrapperStub (bufferSize w2) (bufferAlignment w2) = true ->
      AllocLambda_present l2 s' = Returns false s')
     /\ Lambda_present l1 s' = Returns (present w2) s'
     /\ forall args : Args,
          observe (Lambda_call Unqualified l1 args s')
          = observe (AllocLambda_call l2 args s))
  /\ (forall (l1 l1' : option positive) (l2 : positive) (w2 : Wrapper) (s s' : State),
     deref (Some l2) s = Returns w2 s ->
     moveAssignLambda_AllocLambda_Lambda l1 l2 s = Returns l1' s' ->
     Lambda_present l2 s' = Returns false s'
     /\ AllocLambda_present l1' s' = Returns (present w2) s'
     /\ forall args : Args,
          observe (AllocLambda_call l1' args s')
          = observe (Lambda_call Unqualified l2 args s))
  /\ (forall (l1 l2 l1' l2' : option positive) (w2 : Wrapper) (s s' : State),
     deref l2 s = Returns w2 s ->
     (l1 = l2 -> forall a, l2 = Some a -> owners s !! a <> Some 1%positive) ->
     moveAssignLambda_AllocLambda_AllocLambda l1 l2 s = Returns (l1', l2') s' ->
     l1' = l2
     /\ AllocLambda_present l1' s' = Returns (present w2) s'
     /\ (forall args : Args,
           observe (AllocLambda_call l1' args s')
           = observe (AllocLambda_call l2 args s))
     /\ AllocLambda_present l2' s' = Returns false s'
     /\ exists a2,
          l2' = Some a2 /\ l2' <> l2
          /\ let size := N.max CX_LAMBDA_BUF_SIZE (sizeof TAllocLambdaWrapperStub) in
             let alignment := N.max CX_LAMBDA_BUF_ALIGN (alignof TAllocLambdaWrapperStub) in
             memory s' !! a2
               = Some (mkBlock size alignment (Some (AllocLambdaWrapperStub size alignment)))
             /\ owners s' !! a2 = Some 1%positive)
  /\ (forall (l l' : option positive) (s s' : State),
     moveAssignLambda_AllocLambda_self l s = Returns l' s' ->
     AllocLambda_present l' s' = Returns false s'
     /\ exists a2,
          l' = Some a2
          /\ let size := N.max CX_LAMBDA_BUF_SIZE (sizeof TAllocLambdaWrapperStub) in
             let alignment := N.max CX_LAMBDA_BUF_ALIGN (alignof TAllocLambdaWrapperStub) in
             memory s' !! a2
               = Some (mkBlock size alignment (Some (AllocLambdaWrapperStub size alignment)))
             /\ owners s' !! a2 = Some 1%positive).
Proof.
  split; [|split; [|split; [|split]]].
  - exact move_Lambda_Lambda.
  - exact move_Lambda_AllocLambda.
  - exact move_AllocLambda_Lambda.
  - exact move_AllocLambda_AllocLambda.
  - exact move_AllocLambda_self.
Qed.

End Moving.

(** C7 as stated fails on the concrete platform.  The allocating lambda
    of [grown_and_empty] reports a buffer of 72 bytes aligned to 8; after
    it is moved into the empty one it reports 64 bytes aligned to 64.  And
    the allocating lambda of [original_and_empty] that holds [successor],
    move-assigned to itself, holds nothing afterwards. *)
Lemma C7_counterexample :
  ~ @moved_from_keeps_capacity N N LP64 /\ ~ @self_move_keeps_the_callable N N LP64.
Proof.
  split.
  - intros Hc.
    pose (s := after grown_and_empty initial).
    pose (s' := after (moveAssignLambda_AllocLambda_AllocLambda
                         (Some 4%positive) (Some 3%positive)) s).
    destruct (Hc (Some 4%positive) (Some 3%positive) (Some 3%positive)
                 (Some 4%positive) s s' 72 8) as (_ & Hsize & _);
      [vm_compute; reflexivity ..|].
    assert (Hx : observe (AllocLambda_bufferSize (Some 4%positive) s') = Value 64)
      by (vm_compute; reflexivity).
    rewrite Hsize in Hx. discriminate Hx.
  - intros Hc.
    pose (s := after original_and_empty initial).
    pose (s' := after (moveAssignLambda_AllocLambda_self (Some 1%positive)) s).
    assert (Hm : exists l', moveAssignLambda_AllocLambda_self (Some 1%positive) s
                            = Returns l' s')
      by (eexists; vm_compute; reflexivity).
    destruct Hm as [l' Hm].
    assert (Hp : AllocLambda_present (Some 1%positive) s = Returns true s)
      by (vm_compute; reflexivity).
    specialize (Hc (Some 1%positive) l' s s' true Hp Hm).
    destruct (move_AllocLambda_self (H:=LP64) _ _ _ _ Hm) as [He _].
    rewrite He in Hc. discriminate Hc.
Qed.

(** C7 (amended) on the concrete platform: the move of the
    counterexample. *)
Lemma C7_witness :
  AllocLambda_present (Some 4%positive)
    (after (moveAssignLambda_AllocLambda_AllocLambda
              (Some 4%positive) (Some 3%positive))
       (after grown_and_empty initial))
  = Returns false
      (after (moveAssignLambda_AllocLambda_AllocLambda
                (Some 4%positive) (Some 3%positive))
         (after grown_and_empty initial)).
Proof.
  pose (s := after grown_and_empty initial).
  pose (s' := after (moveAssignLambda_AllocLambda_AllocLambda
                       (Some 4%positive) (Some 3%positive)) s).
  assert (Hd : exists w2 : Wrapper N N, deref (Some 3%positive) s = Returns w2 s)
    by (eexists; vm_compute; reflexivity).
  destruct Hd as [w2 Hd].
  assert (Hm : moveAssignLambda_AllocLambda_AllocLambda
                 (Some 4%positive) (Some 3%positive) s
               = Returns (Some 3%positive, Some 4%positive) s')
    by (vm_compute; reflexivity).
  assert (Hne : Some 4%positive = Some 3%positive ->
                forall a, Some 3%positive = Some a ->
                          owners s !! a <> Some 1%positive) by (intros [=]).
  destruct (proj1 (proj2 (proj2 (proj2 (C7_move_drains_the_source (H:=LP64)))))
              (Some 4%positive) (Some 3%positive) _ _ w2 s s' Hd Hne Hm)
    as (_ & _ & _ & Hempty & _).
  exact Hempty.
Defined.

(* ===================================================================== *)
(** ** The configuration block                                             *)
(* ===================================================================== *)

(** The configuration block ends without a diagnostic and with both macros
    defined exactly when the user defined neither, and both are then
    [sizeof(void * ) * 8].  Every definition of [CX_LAMBDA_BUF_SIZE] draws
    an [#error], that of [#ifdef CX_LAMBDA_BUF_SIZE] if no other; a
    definition of [CX_LAMBDA_BUF_ALIGN] alone passes the three checks and
    leaves [CX_LAMBDA_BUF_SIZE] without a definition. *)
Theorem configuration_accepts_only_the_default :
  forall (sizeof_pointer : N) (ALIGN SIZE : Macro),
    (forall align size : N,
       configuration sizeof_pointer ALIGN SIZE
         = mkPreprocessed [] (Some align) (Some size)
       <-> ALIGN = None /\ SIZE = None
           /\ align = sizeof_pointer * 8 /\ size = sizeof_pointer * 8)
    /\ (forall size : N,
          SIZE = Some size ->
          diagnostics (configuration sizeof_pointer ALIGN SIZE) <> [])
    /\ (forall align : N,
          ALIGN = Some align -> SIZE = None ->
          configuration sizeof_pointer ALIGN SIZE = mkPreprocessed [] (Some align) None).
Proof.
  intros p ALIGN SIZE. split; [|split].
  - intros align size. split.
    + destruct ALIGN as [a|], SIZE as [z|]; unfold configuration; cbn [defined orb negb];
        try (destruct (evaluate _ <? evaluate _); discriminate).
      intros [= <- <-]. auto.
    + intros (-> & -> & -> & ->). reflexivity.
  - intros size ->. unfold configuration. rewrite orb_true_r. cbn [diagnostics defined].
    destruct (negb (defined ALIGN)); discriminate.
  - intros align -> ->. destruct align; reflexivity.
Qed.

(** Asking for a buffer of 128 bytes aligned to 128 is an error; asking
    for the alignment alone leaves the size without a definition. *)
Lemma configuration_witness :
  diagnostics (configuration 8 (Some 128) (Some 128)) <> []
  /\ configuration 8 (Some 128) None = mkPreprocessed [] (Some 128) None.
Proof.
  destruct (configuration_accepts_only_the_default 8 (Some 128) (Some 128))
    as (_ & Hsize & _).
  destruct (configuration_accepts_only_the_default 8 (Some 128) None)
    as (_ & _ & Halign).
  split; [exact (Hsize 128 eq_refl)|exact (Halign 128 eq_refl eq_refl)].
Defined.

(* ===================================================================== *)
(** ** The compatibility predicate as a relation on lambda types           *)
(* ===================================================================== *)

Section CompatibilityRelation.

Import LambdaMetaFunctions.

(** What the predicate computes on two specializations of lambda
    templates. *)
Lemma CompatibleLambda_lambdas (L2 L1 : Template) (P2 P1 : Prototype) :
  IsLambdaTemplate L2 = true -> IsLambdaTemplate L1 = true ->
  CX.CompatibleLambda (Specialization L2 P2) (Specialization L1 P1)
  = (negb (Noexcept P1) && Noexcept P2) || bool_decide (P1 = P2).
Proof.
  intros H2 H1. unfold CX.CompatibleLambda, LambdaMetaFunctions.CompatibleLambda,
    LambdaMetaFunctions.NoexceptFunction, SameType.
  rewrite H1, H2. cbn [andb].
  destruct (negb (Noexcept P1) && Noexcept P2); reflexivity.
Qed.

Lemma CompatibleLambda_inv (T2 T1 : CxxType) :
  CX.CompatibleLambda T2 T1 = true ->
  exists L2 P2 L1 P1,
    T2 = Specialization L2 P2 /\ T1 = Specialization L1 P1
    /\ IsLambdaTemplate L2 = true /\ IsLambdaTemplate L1 = true.
Proof.
  unfold CX.CompatibleLambda, LambdaMetaFunctions.CompatibleLambda.
  destruct T1 as [L1 P1|], T2 as [L2 P2|]; try discriminate.
  destruct (IsLambdaTemplate L1) eqn:E1, (IsLambdaTemplate L2) eqn:E2;
    cbn [andb]; try discriminate.
  intros _. eauto 10.
Qed.

(** A type is compatible with itself exactly when it is a lambda type, and
    two compatible types are both lambda types: anything else, a
    specialization of another template included, is rejected on either
    side. *)
Theorem CompatibleLambda_reflexive_on_lambda_types :
  (forall T : CxxType, CX.CompatibleLambda T T = IsLambda T)
  /\ (forall T2 T1 : CxxType,
        CX.CompatibleLambda T2 T1 = true -> IsLambda T2 = true /\ IsLambda T1 = true).
Proof.
  split.
  - intros [L P|t]; [|reflexivity]. cbn [IsLambda].
    destruct (IsLambdaTemplate L) eqn:E.
    + rewrite CompatibleLambda_lambdas by exact E.
      rewrite bool_decide_eq_true_2 by reflexivity. apply orb_true_r.
    + unfold CX.CompatibleLambda, LambdaMetaFunctions.CompatibleLambda.
      now rewrite E.
  - intros T2 T1 (L2 & P2 & L1 & P1 & -> & -> & H2 & H1)%CompatibleLambda_inv.
    now split.
Qed.

Lemma CompatibleLambda_reflexive_witness :
  IsLambda (Specialization AllocLambda (mkPrototype Int [Int] false true)) = true
  /\ IsLambda (Specialization Lambda (mkPrototype Int [Int] false false)) = true.
Proof.
  apply (proj2 CompatibleLambda_reflexive_on_lambda_types). reflexivity.
Defined.

(** Compatibility composes: a source accepted by an intermediate lambda
    type that is itself accepted by a destination is accepted by the
    destination directly. *)
Theorem CompatibleLambda_transitive :
  forall T3 T2 T1 : CxxType,
    CX.CompatibleLambda T3 T2 = true ->
    CX.CompatibleLambda T2 T1 = true ->
    CX.CompatibleLambda T3 T1 = true.
Proof.
  intros T3 T2 T1 H32 H21.
  pose proof (CompatibleLambda_inv _ _ H32) as (L3 & P3 & L2 & P2 & -> & -> & HL3 & HL2).
  pose proof (CompatibleLambda_inv _ _ H21) as (L2' & P2' & L1 & P1 & [= <- <-] & -> & _ & HL1).
  rewrite CompatibleLambda_lambdas in * by assumption.
  apply orb_true_iff in H32 as [[Hn2 Hn3]%andb_true_iff|He32%bool_decide_eq_true];
    apply orb_true_iff in H21 as [[Hn1 Hn2']%andb_true_iff|He21%bool_decide_eq_true].
  - rewrite Hn2' in Hn2. discriminate.
  - subst P2. rewrite Hn2, Hn3. reflexivity.
  - subst P3. rewrite Hn1, Hn2'. reflexivity.
  - subst. rewrite bool_decide_eq_true_2 by reflexivity. apply orb_true_r.
Qed.

Lemma CompatibleLambda_transitive_witness :
  CX.CompatibleLambda
    (Specialization Lambda (mkPrototype Int [Int] false true))
    (Specialization Lambda (mkPrototype Int [Int] false false)) = true.
Proof.
  apply (CompatibleLambda_transitive _
           (Specialization AllocLambda (mkPrototype Int [Int] false true)));
    reflexivity.
Defined.

(** The predicate does not depend on which of the two lambda templates
    stands on either side: whatever [Lambda] accepts from [Lambda],
    [AllocLambda] accepts from [Lambda], [Lambda] from [AllocLambda], and
    [AllocLambda] from [AllocLambda]. *)
Theorem CompatibleLambda_ignores_the_template :
  forall (L2 L1 L2' L1' : Template) (P2 P1 : Prototype),
    IsLambdaTemplate L2 = true -> IsLambdaTemplate L1 = true ->
    IsLambdaTemplate L2' = true -> IsLambdaTemplate L1' = true ->
    CX.CompatibleLambda (Specialization L2 P2) (Specialization L1 P1)
    = CX.CompatibleLambda (Specialization L2' P2) (Specialization L1' P1).
Proof.
  intros. now rewrite !CompatibleLambda_lambdas by assumption.
Qed.

Lemma CompatibleLambda_ignores_the_template_witness :
  CX.CompatibleLambda
    (Specialization Lambda (mkPrototype Int [Int] false true))
    (Specialization Lambda (mkPrototype Int [Int] false false))
  = CX.CompatibleLambda
    (Specialization AllocLambda (mkPrototype Int [Int] false true))
    (Specialization AllocLambda (mkPrototype Int [Int] false false)).
Proof.
  apply CompatibleLambda_ignores_the_template; reflexivity.
Defined.

(** Two lambda types that accept each other have the same prototype. *)
Theorem CompatibleLambda_mutual_same_prototype :
  forall (L2 L1 : Template) (P2 P1 : Prototype),
    CX.CompatibleLambda (Specialization L2 P2) (Specialization L1 P1) = true ->
    CX.CompatibleLambda (Specialization L1 P1) (Specialization L2 P2) = true ->
    P1 = P2.
Proof.
  intros L2 L1 P2 P1 H21 H12.
  pose proof (CompatibleLambda_inv _ _ H21) as (? & ? & ? & ? & [= <- <-] & [= <- <-] & HL2 & HL1).
  rewrite CompatibleLambda_lambdas in * by assumption.
  apply orb_true_iff in H21 as [[Hn1 Hn2]%andb_true_iff|He%bool_decide_eq_true];
    [|exact He].
  apply orb_true_iff in H12 as [[Hn2' Hn1']%andb_true_iff|He%bool_decide_eq_true];
    [|now symmetry].
  rewrite Hn2 in Hn2'. discriminate.
Qed.

Lemma CompatibleLambda_mutual_witness :
  mkPrototype Int [Int] false true = mkPrototype Int [Int] false true.
Proof.
  apply (CompatibleLambda_mutual_same_prototype AllocLambda Lambda); reflexivity.
Defined.

End CompatibilityRelation.

(* ===================================================================== *)
(** ** Further facts about the operations                                  *)
(* ===================================================================== *)

Section MoreOperations.

Context {Args R : Type}.
Context `{Layout}.

Abbreviation State := (State Args R).
Abbreviation M := (M Args R).
Abbreviation Wrapper := (Wrapper Args R).
Abbreviation Callable := (Callable Args R).

Lemma State_eta (s : State) : mkState (memory s) (owners s) = s.
Proof. now destruct s. Qed.

Lemma noexcept_not_Throws {A : Type} (m : M A) (s : State) e s' :
  noexcept m s <> Throws e s'.
Proof. unfold noexcept. destruct (m s); discriminate. Qed.

Lemma Lambda_call_raw S (l : positive) (args : Args) (s : State) :
  deref (Some l) s = Undefined (A:=Wrapper) ->
  Lambda_call S l args s = Undefined.
Proof.
  intros Hd. unfold Lambda_call, noexcept.
  destruct S; rewrite (bind_Undefined _ _ _ Hd); reflexivity.
Qed.

Lemma wrapperBufferCheck_Throws srcSize srcAlignment dstSize dstAlignment
    (s s' : State) e :
  wrapperBufferCheck srcSize srcAlignment dstSize dstAlignment s = Throws e s' ->
  s' = s.
Proof.
  unfold wrapperBufferCheck, throw.
  destruct (dstSize <? srcSize); [now intros [= _ <-]|].
  destruct (dstAlignment <? srcAlignment); [now intros [= _ <-]|discriminate].
Qed.

(** A throwing function assignment leaves raw storage behind. *)
Lemma Lambda_assign_function_Throws Copy (l : positive) (f : Callable)
    (s s' : State) e :
  Lambda_assign_function Copy l f s = Throws e s' ->
  exists bs ba w,
    memory s !! l = Some (mkBlock bs ba (Some w))
    /\ s' = mkState (<[l := mkBlock bs ba None]> (memory s)) (owners s)
    /\ wrapperBufferCheck (sizeof (TNonAllocLambdaWrapper (ftype f)))
         (alignof (TNonAllocLambdaWrapper (ftype f)))
         (bufferSize w) (bufferAlignment w) s' = Throws e s'.
Proof.
  rewrite Lambda_assign_function_eq.
  destruct (memory s !! l) as [[bs ba [w|]]|] eqn:E; try discriminate.
  cbv zeta.
  match goal with |- context [wrapperBufferCheck ?a ?b ?c ?d ?st] =>
    destruct (wrapperBufferCheck a b c d st) as [? ?|e1 s1| |] eqn:Ec; try discriminate
  end.
  intros [= <- <-]. exists bs, ba, w. split; [reflexivity|]. split; [reflexivity|].
  now rewrite <- (wrapperBufferCheck_Throws _ _ _ _ _ _ _ Ec) at 2.
Qed.

Lemma copyAssignLambda_Lambda_Lambda_Throws (l1 l2 : positive) (s s' : State) e :
  copyAssignLambda_Lambda_Lambda l1 l2 s = Throws e s' ->
  exists bs ba w,
    memory s !! l1 = Some (mkBlock bs ba (Some w))
    /\ s' = mkState (<[l1 := mkBlock bs ba None]> (memory s)) (owners s).
Proof.
  intros Ht. unfold copyAssignLambda_Lambda_Lambda in Ht.
  apply bind_Throws in Ht as [Ht|(? & ? & _ & Hm)]; [|discriminate].
  rewrite copyBuffer_eq in Ht.
  destruct (memory s !! l1) as [[bs ba [w1|]]|] eqn:E1; try discriminate.
  cbv zeta in Ht.
  match type of Ht with context [deref ?p ?st] =>
    destruct (deref p st) as [w2 s2| | |] eqn:E2; try discriminate
  end.
  exists bs, ba, w1. split; [reflexivity|].
  assert (Hraw : memory (mkState (<[l1 := mkBlock bs ba None]> (memory s))
                                 (owners s)) !! l1
                 = Some (mkBlock bs ba None)) by (cbn; apply lookup_insert_eq).
  destruct (copyTo_inline_cases w2 l1 (bufferSize w1) (bufferAlignment w1)
              _ bs ba None Hraw)
    as [(_ & _ & Hc)|(_ & msg & Hc)]; rewrite Hc in Ht; [discriminate|].
  now injection Ht as _ <-.
Qed.

Lemma raw_buffer_unusable (l : positive) bs ba (s : State) :
  memory s !! l = Some (mkBlock bs ba None) ->
  Lambda_present l s = Undefined
  /\ (forall S (args : Args), Lambda_call S l args s = Undefined)
  /\ (forall Copy (g : Callable), Lambda_assign_function Copy l g s = Undefined)
  /\ (forall l2 : positive, copyAssignLambda_Lambda_Lambda l l2 s = Undefined)
  /\ Lambda_destructor l s = Undefined.
Proof.
  intros Hraw. pose proof (deref_raw _ _ _ _ Hraw) as Hd.
  split; [|split; [|split; [|split]]].
  - unfold Lambda_present. now rewrite (bind_Undefined _ _ _ Hd).
  - intros S args. now apply Lambda_call_raw.
  - intros Copy g. rewrite Lambda_assign_function_eq. now rewrite Hraw.
  - intros l2. unfold copyAssignLambda_Lambda_Lambda.
    apply bind_Undefined. rewrite copyBuffer_eq. now rewrite Hraw.
  - unfold Lambda_destructor. now apply destroy_raw with (bs := bs) (ba := ba).
Qed.

(** Letting go of a buffer, in closed form. *)
Lemma shared_ptr_release_shared (a n : positive) (s : State) :
  owners s !! a = Some n -> n <> 1%positive ->
  shared_ptr_release (Some a) s
  = Returns tt (mkState (memory s) (<[a := Pos.pred n]> (owners s))).
Proof.
  intros Hn Hne. unfold shared_ptr_release. rewrite Hn.
  destruct n; try reflexivity. congruence.
Qed.

Lemma shared_ptr_release_last (a : positive) bs ba (w : Wrapper) (s : State) :
  owners s !! a = Some 1%positive ->
  memory s !! a = Some (mkBlock bs ba (Some w)) ->
  shared_ptr_release (Some a) s
  = if bool_decide (ba = bufferAlignment w)
    then Returns tt (mkState (delete a (memory s)) (delete a (owners s)))
    else Undefined.
Proof.
  intros Hn Hm. unfold shared_ptr_release. rewrite Hn.
  unfold sharedBufferDeleter, operator_delete. unfold_monad. unfold_storage. run.
  cbn [block_align]. rewrite delete_insert_eq. reflexivity.
Qed.

Lemma shared_ptr_release_raw (a : positive) bs ba (s : State) :
  owners s !! a = Some 1%positive ->
  memory s !! a = Some (mkBlock bs ba None) ->
  shared_ptr_release (Some a) s = Undefined.
Proof.
  intros Hn Hm. unfold shared_ptr_release. rewrite Hn.
  unfold sharedBufferDeleter. unfold_monad. unfold_storage. run. reflexivity.
Qed.

End MoreOperations.

(* ===================================================================== *)
(** ** Calls through the noexcept specializations                          *)
(* ===================================================================== *)

Section NoexceptCalls.

Context {Args R : Type}.
Context `{Layout}.

Abbreviation State := (State Args R).

(** The call operator of [Lambda<R (Args...) noexcept>], which is declared
    [noexcept], is the call operator of [Lambda<R (Args...)>] behind a
    [noexcept] boundary: no exception leaves it.  In both noexcept-qualified
    specializations a call terminates the process when the lambda is empty
    and when the callable it holds throws. *)
Theorem noexcept_call_terminates_instead_of_throwing :
  forall (l : positive) (args : Args) (s : State),
    Lambda_call NoexceptQualified l args s
      = noexcept (Lambda_call Unqualified l args) s
    /\ (forall e s', Lambda_call NoexceptQualified l args s <> Throws e s')
    /\ (forall w : Wrapper Args R,
          deref (Some l) s = Returns w s ->
          (present w = false
           \/ exists f e, wrapped w = Some f /\ fbody f args = Abrupt e) ->
          Lambda_call NoexceptQualified l args s = Terminated
          /\ Lambda_call CVariadicNoexcept l args s = Terminated).
Proof.
  intros l args s.
  assert (H1 : Lambda_call NoexceptQualified l args s
               = noexcept (Lambda_call Unqualified l args) s).
  { unfold Lambda_call.
    destruct (deref_total (Some l) s) as [E|[w E]].
    - unfold noexcept. now rewrite !(bind_Undefined _ _ _ E).
    - rewrite !(noexcept_bind_eq _ _ _ _ _ E). unfold noexceptOp.
      destruct w; cbn [op]; now rewrite noexcept_idem. }
  split; [exact H1|]. split.
  - intros e s'. rewrite H1. apply noexcept_not_Throws.
  - intros w Hd Hw. unfold Lambda_call.
    rewrite (noexcept_bind_eq _ _ _ _ _ Hd), (bind_eq _ _ _ _ _ Hd).
    destruct Hw as [Hp|(f & e & Hf & He)].
    + destruct w; try discriminate; split; reflexivity.
    + destruct w; try discriminate; injection Hf as ->;
        unfold noexceptOp, op_variadic, get, FptrWrapper_invoke, noexcept, invoke;
        unfold_monad; cbn [memberPtr fptrOrInst]; rewrite He;
        destruct (Struct (ftype f)), (NoexceptFunction (ftype f)); split; reflexivity.
Qed.

End NoexceptCalls.

(* ===================================================================== *)
(** ** Assignments that fail, and assignments to oneself                   *)
(* ===================================================================== *)

Section FailedAssignment.

Context {Args R : Type}.
Context `{Layout}.

Abbreviation State := (State Args R).
Abbreviation Wrapper := (Wrapper Args R).
Abbreviation Callable := (Callable Args R).


(** When assigning a callable or another [Lambda] to a [Lambda] throws,
    the receiving lambda is left without a record: asking it whether it
    holds a callable, calling it, assigning to it again, and destroying it
    all have undefined behaviour. *)
Theorem failed_assignment_leaves_the_lambda_unusable :
  forall (l : positive) (s s' : State) (e : Exception),
    (exists Copy (f : Callable), Lambda_assign_function Copy l f s = Throws e s')
    \/ (exists l2 : positive, copyAssignLambda_Lambda_Lambda l l2 s = Throws e s') ->
    Lambda_present l s' = Undefined
    /\ (forall S (args : Args), Lambda_call S l args s' = Undefined)
    /\ (forall Copy (g : Callable), Lambda_assign_function Copy l g s' = Undefined)
    /\ (forall l2 : positive, copyAssignLambda_Lambda_Lambda l l2 s' = Undefined)
    /\ Lambda_destructor l s' = Undefined.
Proof.
  intros l s s' e Hthrow.
  assert (Hraw : exists bs ba, memory s' !! l = Some (mkBlock bs ba None)).
  { destruct Hthrow as [(Copy & f & Ht)|(l2 & Ht)].
    - apply Lambda_assign_function_Throws in Ht as (bs & ba & w & _ & -> & _).
      exists bs, ba. cbn. apply lookup_insert_eq.
    - apply copyAssignLambda_Lambda_Lambda_Throws in Ht as (bs & ba & w & _ & ->).
      exists bs, ba. cbn. apply lookup_insert_eq. }
  destruct Hraw as (bs & ba & Hraw). now apply raw_buffer_unusable with (bs := bs) (ba := ba).
Qed.

(** Assigning a [Lambda] to itself, by copy or by move, has undefined
    behaviour in every state: the record is destroyed before it is read
    as the source. *)
Theorem Lambda_self_assignment_is_undefined :
  forall (l : positive) (s : State),
    copyAssignLambda_Lambda_Lambda l l s = Undefined
    /\ moveAssignLambda_Lambda_Lambda l l s = Undefined.
Proof.
  intros l s.
  unfold copyAssignLambda_Lambda_Lambda, moveAssignLambda_Lambda_Lambda.
  split; apply bind_Undefined; rewrite ?copyBuffer_eq, ?moveBuffer_eq;
    destruct (memory s !! l) as [[bs ba [w|]]|] eqn:E; try reflexivity;
    cbv zeta; rewrite (deref_raw l bs ba) by (cbn; apply lookup_insert_eq);
    reflexivity.
Qed.

(** Copy-assigning an [AllocLambda] to itself changes nothing. *)
Theorem AllocLambda_self_copy_assignment_is_a_no_op :
  forall (l : option positive) (s : State),
    (forall a, l = Some a -> is_Some (owners s !! a)) ->
    copyAssignLambda_AllocLambda_AllocLambda l l s = Returns l s.
Proof.
  intros [a|] s Hown.
  - destruct (Hown a eq_refl) as [n Hn].
    unfold copyAssignLambda_AllocLambda_AllocLambda, shared_ptr_assign,
      shared_ptr_acquire, shared_ptr_release.
    unfold_monad. rewrite Hn. cbn [owners memory]. rewrite lookup_insert_eq.
    destruct (Pos.succ n) eqn:En; try (now apply Pos.succ_not_1 in En);
      rewrite <- En, Pos.pred_succ, insert_insert_eq, insert_id by exact Hn;
      now rewrite State_eta.
  - reflexivity.
Qed.

End FailedAssignment.


(** After that rejected assignment the [Lambda] cannot be destroyed. *)
Lemma failed_assignment_witness :
  Lambda_destructor 1%positive
    (after (Lambda_assign_function true 1%positive one_more)
       (after (Lambda_default (Args:=N) (R:=N)) initial))
  = Undefined.
Proof.
  refine (proj2 (proj2 (proj2 (proj2
            (failed_assignment_leaves_the_lambda_unusable (H:=LP64)
               1%positive (after Lambda_default initial) _
               (IncompatibleLambdaError size_message) _))))).
  left. exists true, one_more. vm_compute. reflexivity.
Defined.

(** [a = a] on the allocating lambda of [original_and_empty]. *)
Lemma AllocLambda_self_copy_assignment_witness :
  copyAssignLambda_AllocLambda_AllocLambda (Some 1%positive) (Some 1%positive)
    (after original_and_empty initial)
  = Returns (Some 1%positive) (after original_and_empty initial).
Proof.
  apply (AllocLambda_self_copy_assignment_is_a_no_op (H:=LP64)).
  intros a [= <-]. exists 1%positive. vm_compute. reflexivity.
Defined.

(* ===================================================================== *)
(** ** The compile-time check, presence, and reallocation once more        *)
(* ===================================================================== *)

Section Checks.

Context {Args R : Type}.
Context `{Layout}.

Abbreviation State := (State Args R).
Abbreviation M := (M Args R).
Abbreviation Wrapper := (Wrapper Args R).
Abbreviation Callable := (Callable Args R).

(** The two [static_assert]s of [lambdaAssignBufferCheck] both compare the
    alignment of the wrapper, the second one with the buffer size: a
    callable whose wrapper is larger than the inline buffer passes the
    compile-time check whenever its alignment does not exceed the
    buffer's alignment and size.  Assigning it to a [Lambda] in its regular
    condition throws [IncompatibleLambdaError] with the size message at
    run time, and constructing a [Lambda] from it has undefined behaviour:
    the exception leaves the body of the delegating constructor, and
    [~Lambda()] runs on the buffer whose record the assignment has already
    destroyed. *)
Theorem compile_time_check_admits_oversized_callables :
  forall (Copy : bool) (f : Callable) (s : State),
    alignof (TNonAllocLambdaWrapper (ftype f)) <= CX_LAMBDA_BUF_ALIGN ->
    alignof (TNonAllocLambdaWrapper (ftype f)) <= CX_LAMBDA_BUF_SIZE ->
    CX_LAMBDA_BUF_SIZE < sizeof (TNonAllocLambdaWrapper (ftype f)) ->
    lambdaAssignBufferCheck (ftype f) CX_LAMBDA_BUF_SIZE CX_LAMBDA_BUF_ALIGN = true
    /\ (forall l : positive,
          Lambda_invariant s l ->
          exists s',
            Lambda_assign_function Copy l f s
            = Throws (IncompatibleLambdaError size_message) s')
    /\ Lambda_from_function Copy f s = Undefined.
Proof.
  intros Copy f s Ha Has Hs. split; [|split].
  - unfold lambdaAssignBufferCheck.
    apply andb_true_iff. split; now apply N.leb_le.
  - intros l (w & Hl & _ & Hbs & _).
    rewrite Lambda_assign_function_eq, Hl. cbv zeta.
    unfold wrapperBufferCheck, throw. rewrite Hbs.
    apply N.ltb_lt in Hs. rewrite Hs. eexists. reflexivity.
  - unfold Lambda_from_function.
    rewrite (bind_eq _ _ _ _ _ (Lambda_default_eq s)). cbv zeta.
    apply bind_Undefined. unfold unwinding.
    rewrite Lambda_assign_function_eq.
    cbn [memory]. rewrite lookup_insert_eq. cbv zeta.
    cbn [bufferSize bufferAlignment]. unfold wrapperBufferCheck.
    apply N.ltb_lt in Hs. rewrite Hs. unfold throw, Lambda_destructor.
    erewrite destroy_raw by (cbn; apply lookup_insert_eq). reflexivity.
Qed.

(** A lambda that reports [present() == true] holds a callable, and its
    call operators call it: the call operator of [AllocLambda], and that
    of every [Lambda] specialization whose prototype restriction the
    callable meets. *)
Theorem present_lambda_calls_its_callable :
  forall (l : positive) (s : State),
    Lambda_present l s = Returns true s ->
    exists f : Callable,
      (forall S (args : Args),
         PrototypeRestriction S (ftype f) = true ->
         Lambda_call S l args s = invoke f args s)
      /\ (forall args : Args, AllocLambda_call (Some l) args s = invoke f args s).
Proof.
  intros l s (_ & w & Hd & Hp)%present_Returns.
  assert (Hw : exists f, wrapped w = Some f)
    by (destruct w; try discriminate; eexists; reflexivity).
  destruct Hw as [f Hw]. exists f. split.
  - intros S args Hr. now apply Lambda_call_wrapper with (w := w).
  - intros args. now apply AllocLambda_call_wrapper with (w := w).
Qed.

(** [checkOrReallocate] only ever adds a block: every block of the store is
    left as it is, so is every use count, and the buffer passed in is
    neither given back nor handed to anyone.  Unless it reports a size and
    an alignment of zero, what it returns is sufficient for the wrapper:
    running it again on its own result changes nothing. *)
Theorem checkOrReallocate_adds_and_settles :
  forall (W : WrapperType) (buffer buffer' : option positive)
         (size alignment size' alignment' : N) (s s' : State),
    checkOrReallocate W buffer size alignment s
      = Returns (buffer', size', alignment') s' ->
    memory s ⊆ memory s'
    /\ owners s' = owners s
    /\ (~ (size' = 0 /\ alignment' = 0) ->
        checkOrReallocate W buffer' size' alignment' s'
        = Returns (buffer', size', alignment') s').
Proof.
  intros W buffer buffer' size alignment size' alignment' s s' Hc.
  apply checkOrReallocate_Returns in Hc.
  assert (Hsettled : sizeof W <= size' -> alignof W <= alignment' ->
            ~ (size' = 0 /\ alignment' = 0) ->
            checkOrReallocate W buffer' size' alignment' s'
            = Returns (buffer', size', alignment') s').
  { intros Hs Ha Hz. rewrite checkOrReallocate_eq. unfold sufficient.
    destruct (N.eqb_spec size' 0) as [Hs0|Hs0], (N.eqb_spec alignment' 0) as [Ha0|Ha0];
      cbn [andb negb]; try tauto;
      (destruct (N.ltb_spec size' (sizeof W)); [lia|]);
      (destruct (N.ltb_spec alignment' (alignof W)); [lia|]); reflexivity. }
  inversion Hc as [a Hs0 Ha0 Hf|a Hnz Hlt Hf|Hnz Hs Ha]; subst; cbn [memory owners].
  - split; [now apply insert_subseteq|]. split; [reflexivity|].
    apply Hsettled; lia.
  - split; [now apply insert_subseteq|]. split; [reflexivity|].
    apply Hsettled; lia.
  - split; [reflexivity|]. split; [reflexivity|]. intros _. now apply Hsettled.
Qed.

End Checks.

(** The 72-byte wrapper of [triple] passes the compile-time check of a
    64-byte buffer; [Lambda{triple}] has undefined behaviour. *)
Lemma compile_time_check_witness :
  lambdaAssignBufferCheck (H:=LP64) Large 64 64 = true
  /\ Lambda_from_function true triple (initial : State N N) = Undefined.
Proof.
  destruct (compile_time_check_admits_oversized_callables (H:=LP64)
              true triple initial) as (Hc & _ & Hu);
    [vm_compute; discriminate| vm_compute; discriminate | reflexivity |].
  split; [exact Hc|exact Hu].
Defined.

(** The inline lambda holding [successor]. *)
Lemma present_lambda_witness :
  exists f : Callable N N,
    (forall S (args : N),
       PrototypeRestriction S (ftype f) = true ->
       Lambda_call S 1%positive args
         (after (Lambda_from_function true successor) initial)
       = invoke f args (after (Lambda_from_function true successor) initial))
    /\ (forall args : N,
          AllocLambda_call (Some 1%positive) args
            (after (Lambda_from_function true successor) initial)
          = invoke f args (after (Lambda_from_function true successor) initial)).
Proof.
  apply present_lambda_calls_its_callable. vm_compute. reflexivity.
Defined.

(** The growth of the default buffer for a 72-byte wrapper, and the second
    run on its result. *)
Lemma checkOrReallocate_settles_witness :
  checkOrReallocate (H:=LP64) (TAllocLambdaWrapper Medium) (Some 1%positive) 72 8
    (after (checkOrReallocate (TAllocLambdaWrapper Medium) None 64 64)
       (initial : State N N))
  = Returns (Some 1%positive, 72, 8)
      (after (checkOrReallocate (TAllocLambdaWrapper Medium) None 64 64) initial).
Proof.
  refine (proj2 (proj2
            (checkOrReallocate_adds_and_settles (H:=LP64)
               (TAllocLambdaWrapper Medium) None (Some 1%positive) 64 64 72 8
               initial _ _)) _).
  - vm_compute. reflexivity.
  - intros [Hs _]. discriminate Hs.
Defined.

(* ===================================================================== *)
(** ** Inline buffers over their life time                                 *)
(* ===================================================================== *)

Section InlineLifetime.

Context {Args R : Type}.
Context `{Layout}.

Abbreviation State := (State Args R).
Abbreviation M := (M Args R).
Abbreviation Wrapper := (Wrapper Args R).
Abbreviation Callable := (Callable Args R).

(** The source of a copy or move is read after the destination's record
    was destroyed: it has to be another buffer. *)
Lemma deref_other (a1 a2 : positive) bs ba (w2 : Wrapper) (s s2 : State) :
  deref (Some a2) (mkState (<[a1 := mkBlock bs ba None]> (memory s)) (owners s))
    = Returns w2 s2 ->
  a1 <> a2 /\ exists bs2 ba2, memory s !! a2 = Some (mkBlock bs2 ba2 (Some w2)).
Proof.
  intros (_ & a & sz & al & [= <-] & Hl)%deref_Returns. cbn [memory] in Hl.
  destruct (decide (a1 = a2)) as [->|Hne].
  - rewrite lookup_insert_eq in Hl. discriminate.
  - rewrite lookup_insert_ne in Hl by exact Hne. eauto.
Qed.

Lemma copyAssignLambda_Lambda_Lambda_fits (l1 l2 : positive)
    bs ba (w1 : Wrapper) bs2 ba2 (w2 : Wrapper) (s : State) :
  l1 <> l2 ->
  memory s !! l1 = Some (mkBlock bs ba (Some w1)) ->
  memory s !! l2 = Some (mkBlock bs2 ba2 (Some w2)) ->
  sizeof (inline_record w2) <= bufferSize w1 ->
  alignof (inline_record w2) <= bufferAlignment w1 ->
  copyAssignLambda_Lambda_Lambda l1 l2 s
  = Returns tt
      (mkState (<[l1 := mkBlock bs ba
                          (Some (relocate_inline w2 (bufferSize w1) (bufferAlignment w1)))]>
                  (memory s)) (owners s)).
Proof.
  intros Hne Hl1 Hl2 Hs Ha. unfold copyAssignLambda_Lambda_Lambda.
  unfold mbind, M_bind. rewrite copyBuffer_eq, Hl1. cbv zeta.
  erewrite deref_live by (cbn; rewrite lookup_insert_ne by exact Hne; exact Hl2).
  destruct (copyTo_inline_cases w2 l1 (bufferSize w1) (bufferAlignment w1)
              (mkState (<[l1 := mkBlock bs ba None]> (memory s)) (owners s))
              bs ba None) as [(_ & _ & Hc)|(Hlt & _)];
    [cbn; apply lookup_insert_eq| |lia].
  rewrite Hc. cbn [memory owners]. now rewrite insert_insert_eq.
Qed.

Lemma copyAssignLambda_Lambda_Lambda_Returns (l1 l2 : positive) (s s' : State) :
  copyAssignLambda_Lambda_Lambda l1 l2 s = Returns tt s' ->
  exists bs ba (w1 : Wrapper) bs2 ba2 (w2 : Wrapper),
    l1 <> l2
    /\ memory s !! l1 = Some (mkBlock bs ba (Some w1))
    /\ memory s !! l2 = Some (mkBlock bs2 ba2 (Some w2))
    /\ sizeof (inline_record w2) <= bufferSize w1
    /\ alignof (inline_record w2) <= bufferAlignment w1
    /\ s' = mkState (<[l1 := mkBlock bs ba
                              (Some (relocate_inline w2 (bufferSize w1)
                                       (bufferAlignment w1)))]>
                       (memory s)) (owners s).
Proof.
  intros Hr. unfold copyAssignLambda_Lambda_Lambda in Hr.
  apply bind_Returns in Hr as (p & s1 & Hr & Hm). injection Hm as <-.
  rewrite copyBuffer_eq in Hr.
  destruct (memory s !! l1) as [[bs ba [w1|]]|] eqn:E1; try discriminate.
  cbv zeta in Hr.
  match type of Hr with context [deref ?q ?st] =>
    destruct (deref q st) as [w2 s2| | |] eqn:E2; try discriminate
  end.
  apply deref_other in E2 as (Hne & bs2 & ba2 & Hl2).
  destruct (copyTo_inline_cases w2 l1 (bufferSize w1) (bufferAlignment w1)
              (mkState (<[l1 := mkBlock bs ba None]> (memory s)) (owners s))
              bs ba None) as [(Hs & Ha & Hc)|(_ & msg & Hc)];
    [cbn; apply lookup_insert_eq| |]; rewrite Hc in Hr; [|discriminate].
  injection Hr as _ <-. cbn [memory owners]. rewrite insert_insert_eq.
  eauto 12.
Qed.

Lemma initEmptyLambda_inline_fits (l : positive) bs ba o size alignment (s : State) :
  memory s !! l = Some (mkBlock bs ba o) ->
  sizeof TNonAllocLambdaWrapperStub <= size ->
  alignof TNonAllocLambdaWrapperStub <= alignment ->
  initEmptyLambda false (Some l) size alignment s
  = Returns (Some l)
      (mkState (<[l := mkBlock bs ba (Some (NonAllocLambdaWrapperStub size alignment))]>
                  (memory s)) (owners s)).
Proof.
  intros Hl Hs Ha. unfold initEmptyLambda. cbn [EmptyWrapperType].
  rewrite (bind_eq _ _ _ _ _ (wrapperBufferCheck_fits _ _ _ _ _ Hs Ha)).
  now rewrite (bind_eq _ _ _ _ _ (placement_new_block _ _ _ _ _ _ Hl)).
Qed.

(** [moveBuffer] between two inline buffers after the source was read. *)
Lemma moveAssignLambda_Lambda_Lambda_fits (l1 l2 : positive)
    bs ba (w1 : Wrapper) bs2 ba2 (w2 : Wrapper) (s : State) :
  l1 <> l2 ->
  memory s !! l1 = Some (mkBlock bs ba (Some w1)) ->
  memory s !! l2 = Some (mkBlock bs2 ba2 (Some w2)) ->
  sizeof (inline_record w2) <= bufferSize w1 ->
  alignof (inline_record w2) <= bufferAlignment w1 ->
  sizeof TNonAllocLambdaWrapperStub <= bufferSize w2 ->
  alignof TNonAllocLambdaWrapperStub <= bufferAlignment w2 ->
  moveAssignLambda_Lambda_Lambda l1 l2 s
  = Returns tt
      (mkState
         (<[l2 := mkBlock bs2 ba2
                    (Some (NonAllocLambdaWrapperStub (bufferSize w2) (bufferAlignment w2)))]>
            (<[l1 := mkBlock bs ba
                       (Some (relocate_inline w2 (bufferSize w1) (bufferAlignment w1)))]>
               (memory s)))
         (owners s)).
Proof.
  intros Hne Hl1 Hl2 Hs Ha Hs2 Ha2. unfold moveAssignLambda_Lambda_Lambda.
  unfold mbind at 1, M_bind at 1. rewrite moveBuffer_eq, Hl1. cbv zeta.
  erewrite deref_live by (cbn; rewrite lookup_insert_ne by exact Hne; exact Hl2).
  destruct (copyTo_inline_cases w2 l1 (bufferSize w1) (bufferAlignment w1)
              (mkState (<[l1 := mkBlock bs ba None]> (memory s)) (owners s))
              bs ba None) as [(_ & _ & Hc)|(Hlt & _)];
    [cbn; apply lookup_insert_eq| |lia].
  rewrite (bind_eq _ _ _ _ _ Hc). cbn [memory owners]. rewrite insert_insert_eq.
  erewrite bind_eq
    by (apply destroy_live with (w := w2); cbn;
        rewrite lookup_insert_ne by exact Hne; exact Hl2).
  erewrite bind_eq
    by (apply initEmptyLambda_inline_fits with (o := None); try assumption;
        cbn; apply lookup_insert_eq).
  cbn [memory owners]. now rewrite insert_insert_eq.
Qed.

Lemma moveAssignLambda_Lambda_Lambda_Returns (l1 l2 : positive) (s s' : State) :
  moveAssignLambda_Lambda_Lambda l1 l2 s = Returns tt s' ->
  exists bs ba (w1 : Wrapper) bs2 ba2 (w2 : Wrapper),
    l1 <> l2
    /\ memory s !! l1 = Some (mkBlock bs ba (Some w1))
    /\ memory s !! l2 = Some (mkBlock bs2 ba2 (Some w2))
    /\ sizeof (inline_record w2) <= bufferSize w1
    /\ alignof (inline_record w2) <= bufferAlignment w1
    /\ s' = mkState
              (<[l2 := mkBlock bs2 ba2
                         (Some (NonAllocLambdaWrapperStub (bufferSize w2)
                                  (bufferAlignment w2)))]>
                 (<[l1 := mkBlock bs ba
                            (Some (relocate_inline w2 (bufferSize w1)
                                     (bufferAlignment w1)))]>
                    (memory s)))
              (owners s).
Proof.
  intros Hm. unfold moveAssignLambda_Lambda_Lambda in Hm.
  apply bind_Returns in Hm as (p & s4 & Hm & Hr). injection Hr as <-.
  rewrite moveBuffer_eq in Hm.
  destruct (memory s !! l1) as [[bs ba [w1|]]|] eqn:E1; try discriminate.
  cbv zeta in Hm.
  match type of Hm with context [deref ?q ?st] =>
    destruct (deref q st) as [w2 s2| | |] eqn:E2; try discriminate
  end.
  apply deref_other in E2 as (Hne & bs2 & ba2 & Hl2).
  apply bind_Returns in Hm as (q & s2' & Hc & Hm).
  apply bind_Returns in Hm as ([] & s3 & Hdes & Hm).
  apply bind_Returns in Hm as (q' & s4' & Hi & Hm). injection Hm as <- <-.
  destruct (copyTo_inline_cases w2 l1 (bufferSize w1) (bufferAlignment w1)
              (mkState (<[l1 := mkBlock bs ba None]> (memory s)) (owners s))
              bs ba None) as [(Hs & Ha & Hc')|(_ & msg & Hc')];
    [cbn; apply lookup_insert_eq| |]; rewrite Hc' in Hc; [|discriminate].
  injection Hc as <- <-.
  apply destroy_Returns in Hdes as (a & sz & al & w & [= <-] & Hl2' & ->).
  apply initEmptyLambda_inline_Returns in Hi as (-> & bs2' & ba2' & o2 & Hl2'' & ->).
  cbn [memory owners] in *.
  rewrite insert_insert_eq in *.
  rewrite lookup_insert_ne, Hl2 in Hl2' by exact Hne. injection Hl2' as <- <- <-.
  rewrite lookup_insert_eq in Hl2''. injection Hl2'' as <- <- <-.
  rewrite insert_insert_eq.
  exists bs, ba, w1, bs2, ba2, w2. repeat split; auto.
Qed.

(** What a relocated record looks like to the invariant. *)
Lemma relocate_inline_regular (w2 : Wrapper) size alignment :
  allocates (relocate_inline w2 size alignment) = false
  /\ typeSize (relocate_inline w2 size alignment) = sizeof (inline_record w2)
  /\ typeAlignment (relocate_inline w2 size alignment) = alignof (inline_record w2)
  /\ (size = CX_LAMBDA_BUF_SIZE ->
      bufferSize (relocate_inline w2 size alignment) = CX_LAMBDA_BUF_SIZE)
  /\ (alignment = CX_LAMBDA_BUF_ALIGN ->
      bufferAlignment (relocate_inline w2 size alignment) = CX_LAMBDA_BUF_ALIGN).
Proof. destruct w2; repeat split; auto. Qed.

Lemma inline_record_regular (w : Wrapper) :
  allocates w = false ->
  sizeof (inline_record w) = typeSize w /\ alignof (inline_record w) = typeAlignment w.
Proof. destruct w; try discriminate; split; reflexivity. Qed.

Lemma stub_fits :
  sizeof TNonAllocLambdaWrapperStub <= CX_LAMBDA_BUF_SIZE
  /\ alignof TNonAllocLambdaWrapperStub <= CX_LAMBDA_BUF_ALIGN.
Proof. split; [exact static_assert_size|exact static_assert_align]. Qed.

Lemma Lambda_invariant_stub (s : State) (l : positive) :
  memory s !! l
    = Some (mkBlock CX_LAMBDA_BUF_SIZE CX_LAMBDA_BUF_ALIGN
              (Some (NonAllocLambdaWrapperStub CX_LAMBDA_BUF_SIZE CX_LAMBDA_BUF_ALIGN))) ->
  Lambda_invariant s l.
Proof.
  intros Hl. eexists. split; [exact Hl|].
  repeat split; apply stub_fits.
Qed.

Lemma Lambda_invariant_frame (s s' : State) (l : positive) :
  memory s' !! l = memory s !! l -> Lambda_invariant s l -> Lambda_invariant s' l.
Proof. intros Heq (w & Hl & Hinv). exists w. now rewrite Heq. Qed.

(** The regular condition of inline buffers is set up by [Lambda()] and
    kept, for every [Lambda] in the store, by every assignment of a
    callable, copy assignment and move assignment between [Lambda]s that
    returns: the record never outgrows the buffer.  A [Lambda] in that
    condition can be asked for presence, called and destroyed without
    undefined behaviour. *)
Theorem Lambda_operations_keep_records_within_the_buffer :
  (forall (s s' : State) (l : positive),
     Lambda_default s = Returns l s' ->
     memory s !! l = None /\ Lambda_invariant s' l
     /\ forall l0, Lambda_invariant s l0 -> Lambda_invariant s' l0)
  /\ (forall (Copy : bool) (l : positive) (f : Callable) (s s' : State),
        Lambda_assign_function Copy l f s = Returns tt s' ->
        forall l0, Lambda_invariant s l0 -> Lambda_invariant s' l0)
  /\ (forall (l1 l2 : positive) (s s' : State),
        copyAssignLambda_Lambda_Lambda l1 l2 s = Returns tt s' ->
        forall l0, Lambda_invariant s l0 -> Lambda_invariant s' l0)
  /\ (forall (l1 l2 : positive) (s s' : State),
        moveAssignLambda_Lambda_Lambda l1 l2 s = Returns tt s' ->
        forall l0, Lambda_invariant s l0 -> Lambda_invariant s' l0)
  /\ (forall (l : positive) (s : State),
        Lambda_invariant s l ->
        (exists b, Lambda_present l s = Returns b s)
        /\ (forall S (args : Args), Lambda_call S l args s <> Undefined)
        /\ (exists s', Lambda_destructor l s = Returns tt s')).
Proof.
  split; [|split; [|split; [|split]]].
  - intros s s' l. rewrite Lambda_default_eq. cbv zeta. intros [= <- <-].
    assert (Hm : memory s !! fresh (dom (memory s)) = None)
      by apply not_elem_of_dom, is_fresh.
    split; [exact Hm|]. split.
    + apply Lambda_invariant_stub. cbn. apply lookup_insert_eq.
    + intros l0 Hinv. apply (Lambda_invariant_frame s); [|exact Hinv].
      destruct Hinv as (w & Hl & _). cbn [memory].
      apply lookup_insert_ne. congruence.
  - intros Copy l f s s' Hr l0 Hinv.
    destruct (Lambda_assign_function_live Copy l f s) as (bs & ba & w & Hl);
      [congruence|].
    destruct (Lambda_assign_function_cases Copy l f s bs ba w Hl)
      as [(Hs & Ha & Hc)|(_ & msg & Hc)]; rewrite Hc in Hr; [|discriminate].
    injection Hr as <-.
    destruct (decide (l0 = l)) as [->|Hne].
    + destruct Hinv as (w' & Hl' & _ & Hbs & Hba & _).
      rewrite Hl in Hl'. injection Hl' as -> -> <-.
      eexists. cbn [memory]. split; [apply lookup_insert_eq|].
      cbn [allocates bufferSize bufferAlignment typeSize typeAlignment].
      rewrite Hbs in Hs. rewrite Hba in Ha. repeat split; assumption.
    + apply (Lambda_invariant_frame s); [|exact Hinv].
      cbn [memory]. apply lookup_insert_ne. congruence.
  - intros l1 l2 s s'
      (bs & ba & w1 & bs2 & ba2 & w2 & Hne & Hl1 & Hl2 & Hs & Ha & ->)%copyAssignLambda_Lambda_Lambda_Returns
      l0 Hinv.
    destruct (decide (l0 = l1)) as [->|Hne0].
    + destruct Hinv as (w' & Hl' & _ & Hbs & Hba & _).
      rewrite Hl1 in Hl'. injection Hl' as -> -> <-.
      destruct (relocate_inline_regular w2 (bufferSize w1) (bufferAlignment w1))
        as (Hal & Hts & Hta & Hrs & Hra).
      eexists. cbn [memory]. split; [apply lookup_insert_eq|].
      rewrite Hal, Hts, Hta, (Hrs Hbs), (Hra Hba).
      rewrite Hbs in Hs. rewrite Hba in Ha. repeat split; assumption.
    + apply (Lambda_invariant_frame s); [|exact Hinv].
      cbn [memory]. apply lookup_insert_ne. congruence.
  - intros l1 l2 s s'
      (bs & ba & w1 & bs2 & ba2 & w2 & Hne & Hl1 & Hl2 & Hs & Ha & ->)%moveAssignLambda_Lambda_Lambda_Returns
      l0 Hinv.
    destruct (decide (l0 = l2)) as [->|Hne2];
      [|destruct (decide (l0 = l1)) as [->|Hne1]].
    + destruct Hinv as (w' & Hl' & _ & Hbs & Hba & _).
      rewrite Hl2 in Hl'. injection Hl' as -> -> <-.
      apply Lambda_invariant_stub. cbn [memory].
      rewrite lookup_insert_eq, Hbs, Hba. reflexivity.
    + destruct Hinv as (w' & Hl' & _ & Hbs & Hba & _).
      rewrite Hl1 in Hl'. injection Hl' as -> -> <-.
      destruct (relocate_inline_regular w2 (bufferSize w1) (bufferAlignment w1))
        as (Hal & Hts & Hta & Hrs & Hra).
      eexists. cbn [memory].
      split; [rewrite lookup_insert_ne by congruence; apply lookup_insert_eq|].
      rewrite Hal, Hts, Hta, (Hrs Hbs), (Hra Hba).
      rewrite Hbs in Hs. rewrite Hba in Ha. repeat split; assumption.
    + apply (Lambda_invariant_frame s); [|exact Hinv].
      cbn [memory]. rewrite !lookup_insert_ne by congruence. reflexivity.
  - intros l s (w & Hl & _).
    pose proof (deref_live _ _ _ _ _ Hl) as Hd.
    split; [|split].
    + exists (present w). unfold Lambda_present. now rewrite (bind_eq _ _ _ _ _ Hd).
    + intros S args. unfold Lambda_call.
      destruct S; rewrite ?(bind_eq _ _ _ _ _ Hd), ?(noexcept_bind_eq _ _ _ _ _ Hd);
        destruct w;
        unfold op, noexceptOp, op_variadic, get, FptrWrapper_invoke, noexcept, invoke;
        unfold_monad; cbn [memberPtr fptrOrInst]; try discriminate;
        destruct (Struct (ftype f)), (fbody f args), (NoexceptFunction (ftype f));
        discriminate.
    + eexists. unfold Lambda_destructor. eapply destroy_live. exact Hl.
Qed.

(** Between two different [Lambda]s in their regular condition the buffer
    check of copy assignment and of move assignment cannot fail: all inline
    buffers have the configured size and alignment, and the record of the
    source is no larger and no more aligned.  With callables whose copy
    constructor completes (see [Callable]) both assignments therefore
    return, and the copy and move constructors return a new [Lambda] for
    every source in that condition. *)
Theorem Lambda_copy_and_move_between_lambdas_pass_the_check :
  (forall (l1 l2 : positive) (w1 w2 : Wrapper) (s : State),
     Lambda_invariant s l1 -> Lambda_invariant s l2 ->
     deref (Some l1) s = Returns w1 s -> deref (Some l2) s = Returns w2 s ->
     wrapperBufferCheck (typeSize w2) (typeAlignment w2)
       (bufferSize w1) (bufferAlignment w1) s = Returns tt s)
  /\ (forall (l1 l2 : positive) (s : State),
     Lambda_invariant s l1 -> Lambda_invariant s l2 -> l1 <> l2 ->
     (exists s', copyAssignLambda_Lambda_Lambda l1 l2 s = Returns tt s')
     /\ (exists s', moveAssignLambda_Lambda_Lambda l1 l2 s = Returns tt s'))
  /\ (forall (l2 : positive) (s : State),
        Lambda_invariant s l2 ->
        (exists l s', Lambda_copy l2 s = Returns l s' /\ l <> l2)
        /\ (exists l s', Lambda_move l2 s = Returns l s' /\ l <> l2)).
Proof.
  assert (Hassign : forall (l1 l2 : positive) (s : State),
     Lambda_invariant s l1 -> Lambda_invariant s l2 -> l1 <> l2 ->
     (exists s', copyAssignLambda_Lambda_Lambda l1 l2 s = Returns tt s')
     /\ (exists s', moveAssignLambda_Lambda_Lambda l1 l2 s = Returns tt s')).
  { intros l1 l2 s (w1 & Hl1 & _ & Hbs1 & Hba1 & _)
      (w2 & Hl2 & Hal2 & Hbs2 & Hba2 & Hts2 & Hta2) Hne.
    destruct (inline_record_regular w2 Hal2) as [Hrs Hra].
    split; eexists.
    - apply (copyAssignLambda_Lambda_Lambda_fits l1 l2 _ _ w1 _ _ w2 s Hne Hl1 Hl2);
        rewrite ?Hrs, ?Hra, ?Hbs1, ?Hba1; assumption.
    - apply (moveAssignLambda_Lambda_Lambda_fits l1 l2 _ _ w1 _ _ w2 s Hne Hl1 Hl2);
        rewrite ?Hrs, ?Hra, ?Hbs1, ?Hba1, ?Hbs2, ?Hba2;
        first [assumption | apply stub_fits]. }
  split; [|split; [exact Hassign|]].
  { intros l1 l2 w1 w2 s (w1' & Hl1 & _ & Hbs1 & Hba1 & _)
      (w2' & Hl2 & _ & _ & _ & Hts2 & Hta2) Hd1 Hd2.
    rewrite (deref_live _ _ _ _ _ Hl1) in Hd1. injection Hd1 as ->.
    rewrite (deref_live _ _ _ _ _ Hl2) in Hd2. injection Hd2 as ->.
    apply wrapperBufferCheck_fits; rewrite ?Hbs1, ?Hba1; assumption. }
  intros l2 s Hinv2.
  set (l := fresh (dom (memory s))).
  set (s1 := mkState (<[l := mkBlock CX_LAMBDA_BUF_SIZE CX_LAMBDA_BUF_ALIGN
                              (Some (NonAllocLambdaWrapperStub
                                       CX_LAMBDA_BUF_SIZE CX_LAMBDA_BUF_ALIGN))]>
                        (memory s)) (owners s)).
  assert (Hd : Lambda_default s = Returns l s1) by apply Lambda_default_eq.
  assert (Hm : memory s !! l = None) by apply not_elem_of_dom, is_fresh.
  assert (Hne : l <> l2).
  { intros ->. destruct Hinv2 as (w & Hl & _). congruence. }
  assert (Hinv : Lambda_invariant s1 l).
  { apply Lambda_invariant_stub. cbn. apply lookup_insert_eq. }
  assert (Hinv2' : Lambda_invariant s1 l2).
  { apply (Lambda_invariant_frame s); [|exact Hinv2].
    cbn [memory s1]. apply lookup_insert_ne. exact Hne. }
  destruct (Hassign l l2 s1 Hinv Hinv2' Hne) as [[sc Hc] [sm Hmv]].
  split.
  - exists l, sc. split; [|exact Hne]. unfold Lambda_copy.
    rewrite (bind_eq _ _ _ _ _ Hd).
    now rewrite (bind_eq _ _ _ _ _
                   (proj2 (unwinding_Returns _ (Lambda_destructor l) _ _ _) Hc)).
  - exists l, sm. split; [|exact Hne]. unfold Lambda_move.
    rewrite (bind_eq _ _ _ _ _ Hd).
    now rewrite (bind_eq _ _ _ _ _
                   (proj2 (unwinding_Returns _ (Lambda_destructor l) _ _ _) Hmv)).
Qed.

(** A copy of a [Lambda] is independent of its source: copy assignment
    leaves the source's buffer as it is and makes the destination report
    and call what the source does, and assigning a callable to the
    destination afterwards changes nothing about the source. *)
Theorem Lambda_copy_is_independent_of_its_source :
  forall (l1 l2 : positive) (w2 : Wrapper) (s s1 : State),
    deref (Some l2) s = Returns w2 s ->
    copyAssignLambda_Lambda_Lambda l1 l2 s = Returns tt s1 ->
    memory s1 !! l2 = memory s !! l2
    /\ Lambda_present l1 s1 = Returns (present w2) s1
    /\ (forall S (args : Args),
          observe (Lambda_call S l1 args s1) = observe (Lambda_call S l2 args s))
    /\ forall (Copy : bool) (g : Callable) (s2 : State),
         Lambda_assign_function Copy l1 g s1 = Returns tt s2 ->
         memory s2 !! l2 = memory s !! l2
         /\ (forall S (args : Args),
               observe (Lambda_call S l2 args s2) = observe (Lambda_call S l2 args s))
         /\ (forall S (args : Args),
               PrototypeRestriction S (ftype g) = true ->
               Lambda_call S l1 args s2 = invoke g args s2).
Proof.
  intros l1 l2 w2 s s1 Hd2
    (bs & ba & w1 & bs2 & ba2 & w2' & Hne & Hl1 & Hl2 & Hs & Ha & ->)%copyAssignLambda_Lambda_Lambda_Returns.
  pose proof (deref_live _ _ _ _ _ Hl2) as Hd2'. rewrite Hd2 in Hd2'.
  injection Hd2' as <-.
  assert (Hd1 : forall st : State,
            memory st !! l1
              = Some (mkBlock bs ba (Some (relocate_inline w2 (bufferSize w1)
                                             (bufferAlignment w1)))) ->
            deref (Some l1) st
              = Returns (relocate_inline w2 (bufferSize w1) (bufferAlignment w1)) st)
    by (intros st Hst; eapply deref_live; exact Hst).
  split; [cbn; now apply lookup_insert_ne|]. split; [|split].
  - unfold Lambda_present. rewrite (bind_eq _ _ _ _ _ (Hd1 _ (lookup_insert_eq _ _ _))).
    unfold mret, M_ret. now rewrite (proj2 (wrapped_relocate_inline _ _ _)).
  - intros S args.
    eapply Lambda_call_observe;
      [apply Hd1; cbn; apply lookup_insert_eq|exact Hd2|apply wrapped_relocate_inline].
  - intros Copy g s2 Hr.
    pose proof (Lambda_assign_function_Returns _ _ _ _ _ Hr) as Hdg.
    rewrite Lambda_assign_function_eq in Hr. cbn [memory] in Hr.
    rewrite lookup_insert_eq in Hr. cbv zeta in Hr.
    match type of Hr with context [wrapperBufferCheck ?a ?b ?c ?d ?st] =>
      destruct (wrapperBufferCheck a b c d st); try discriminate
    end.
    injection Hr as <-. cbn [memory owners] in *. rewrite insert_insert_eq in *.
    assert (Hl2' : memory (mkState (<[l1 := mkBlock bs ba (Some (NonAllocLambdaWrapper g))]>
                                      (memory s)) (owners s)) !! l2
                   = Some (mkBlock bs2 ba2 (Some w2)))
      by (cbn; now rewrite lookup_insert_ne).
    split; [cbn; now apply lookup_insert_ne|]. split.
    + intros S args.
      eapply Lambda_call_observe;
        [exact (deref_live _ _ _ _ _ Hl2')|exact Hd2|reflexivity].
    + intros S args Hp.
      now apply Lambda_call_wrapper with (w := NonAllocLambdaWrapper g).
Qed.

End InlineLifetime.

(** A default-constructed [Lambda] is in its regular condition. *)
Lemma Lambda_invariant_witness :
  Lambda_invariant (H:=LP64) (after Lambda_default (initial : State N N)) 1%positive.
Proof.
  refine (proj1 (proj2
            (proj1 (Lambda_operations_keep_records_within_the_buffer (H:=LP64))
               initial _ 1%positive _))).
  vm_compute. reflexivity.
Defined.

(** Copy- and move-constructing from a default-constructed [Lambda]. *)
Lemma Lambda_copy_and_move_witness :
  (exists l s',
     Lambda_copy 1%positive (after Lambda_default (initial : State N N)) = Returns l s'
     /\ l <> 1%positive)
  /\ (exists l s',
        Lambda_move 1%positive (after Lambda_default (initial : State N N)) = Returns l s'
        /\ l <> 1%positive).
Proof.
  apply (proj2 (proj2 (Lambda_copy_and_move_between_lambdas_pass_the_check (H:=LP64)))).
  apply Lambda_invariant_stub. vm_compute. reflexivity.
Defined.

(** The empty lambda of [inline_pair] becomes a copy of the one holding
    [successor]; the source's buffer is as it was. *)
Lemma Lambda_copy_is_independent_witness :
  memory (after (copyAssignLambda_Lambda_Lambda 2%positive 1%positive)
            (after inline_pair initial)) !! 1%positive
  = memory (after inline_pair initial) !! 1%positive.
Proof.
  refine (proj1
            (Lambda_copy_is_independent_of_its_source (H:=LP64)
               2%positive 1%positive (NonAllocLambdaWrapper successor)
               (after inline_pair initial) _ _ _));
    vm_compute; reflexivity.
Defined.

(* ===================================================================== *)
(** ** Heap buffers over their life time                                   *)
(* ===================================================================== *)

Section HeapBuffers.

Context {Args R : Type}.
Context `{Layout}.

Abbreviation State := (State Args R).
Abbreviation M := (M Args R).
Abbreviation Wrapper := (Wrapper Args R).
Abbreviation Callable := (Callable Args R).

Lemma fresh_not_allocated (s : State) : memory s !! fresh (dom (memory s)) = None.
Proof. apply not_elem_of_dom, is_fresh. Qed.

Lemma fresh_not_owned (s : State) :
  owners_allocated s -> owners s !! fresh (dom (memory s)) = None.
Proof.
  intros Hsub. apply not_elem_of_dom. intros Hin.
  apply (is_fresh (dom (memory s))). now apply Hsub.
Qed.

(** Destroying the only owner of the buffer that [AllocLambda()] set up, or
    of what a function assignment made of it, takes the store back. *)
Lemma destroy_fresh_buffer (a : positive) size alignment (w : Wrapper) (s : State) :
  memory s !! a = None -> owners s !! a = None ->
  bufferAlignment w = alignment ->
  AllocLambda_destructor (Some a)
    (mkState (<[a := mkBlock size alignment (Some w)]> (memory s))
             (<[a := 1%positive]> (owners s)))
  = Returns tt s.
Proof.
  intros Hm Ho Hal. unfold AllocLambda_destructor.
  erewrite shared_ptr_release_last;
    [|cbn; apply lookup_insert_eq|cbn; apply lookup_insert_eq].
  rewrite bool_decide_eq_true_2 by now symmetry.
  cbn [memory owners]. rewrite !delete_insert_id by assumption.
  now rewrite State_eta.
Qed.

(** Assigning a callable to an [AllocLambda] constructs the wrapper in the
    buffer the lambda has when the wrapper fits what that buffer reports,
    leaving every block's extent and every use count as it is; when the
    wrapper does not fit, the behaviour is undefined: the record of the
    newly allocated buffer is destroyed before one was constructed there.
    So the buffer never grows in a function assignment, and constructing
    an [AllocLambda] from a callable whose wrapper does not fit the
    default buffer has undefined behaviour. *)
Theorem AllocLambda_assignment_never_reallocates :
  (forall (Copy : bool) (l : option positive) (f : Callable) (w : Wrapper) (s : State),
     deref l s = Returns w s ->
     let W := TAllocLambdaWrapper (ftype f) in
     (sufficient W (bufferSize w) (bufferAlignment w) = true ->
      exists s',
        AllocLambda_assign_function Copy l f s = Returns l s'
        /\ extent s' = extent s /\ owners s' = owners s
        /\ deref l s'
           = Returns (AllocLambdaWrapper f (bufferSize w) (bufferAlignment w)) s')
     /\ (sufficient W (bufferSize w) (bufferAlignment w) = false ->
         AllocLambda_assign_function Copy l f s = Undefined))
  /\ (forall (Copy : bool) (f : Callable) (s : State),
        sufficient (TAllocLambdaWrapper (ftype f))
          (N.max CX_LAMBDA_BUF_SIZE (sizeof TAllocLambdaWrapperStub))
          (N.max CX_LAMBDA_BUF_ALIGN (alignof TAllocLambdaWrapperStub)) = false ->
        AllocLambda_from_function Copy f s = Undefined).
Proof.
  split.
  - intros Copy l f w s (_ & a & bs & ba & -> & Hl)%deref_Returns W.
    rewrite AllocLambda_assign_function_eq, Hl. fold W. split.
    + intros ->. eexists. split; [reflexivity|]. split; [|split].
      * now apply extent_placement with (o := Some w).
      * reflexivity.
      * eapply deref_live. cbn. apply lookup_insert_eq.
    + now intros ->.
  - intros Copy f s Hs. unfold AllocLambda_from_function.
    rewrite (bind_eq _ _ _ _ _ (AllocLambda_default_eq s)). cbv zeta.
    unfold unwinding. rewrite AllocLambda_assign_function_eq. cbn [memory].
    rewrite lookup_insert_eq. cbn [bufferSize bufferAlignment].
    now rewrite Hs.
Qed.

(** Constructing an [AllocLambda], empty or from a callable whose wrapper
    fits the default buffer, and destroying it again leaves the store
    exactly as it was: the buffer is given back, with the alignment it was
    obtained with, and its control block is gone. *)
Theorem AllocLambda_construct_destroy_restores_the_store :
  forall s : State,
    owners_allocated s ->
    (l ← AllocLambda_default; AllocLambda_destructor l) s = Returns tt s
    /\ forall (Copy : bool) (f : Callable),
         sufficient (TAllocLambdaWrapper (ftype f))
           (N.max CX_LAMBDA_BUF_SIZE (sizeof TAllocLambdaWrapperStub))
           (N.max CX_LAMBDA_BUF_ALIGN (alignof TAllocLambdaWrapperStub)) = true ->
         (l ← AllocLambda_from_function Copy f; AllocLambda_destructor l) s
         = Returns tt s.
Proof.
  intros s Hs. split.
  - rewrite (bind_eq _ _ _ _ _ (AllocLambda_default_eq s)). cbv zeta.
    apply destroy_fresh_buffer;
      [apply fresh_not_allocated|now apply fresh_not_owned|reflexivity].
  - intros Copy f Hf. unfold AllocLambda_from_function.
    unfold mbind at 1, M_bind at 1.
    rewrite (bind_eq _ _ _ _ _ (AllocLambda_default_eq s)). cbv zeta.
    unfold unwinding. rewrite AllocLambda_assign_function_eq. cbn [memory owners].
    rewrite lookup_insert_eq. cbn [bufferSize bufferAlignment].
    rewrite Hf, insert_insert_eq.
    apply destroy_fresh_buffer;
      [apply fresh_not_allocated|now apply fresh_not_owned|reflexivity].
Qed.

(** Copy-constructing an [AllocLambda] from one that manages the buffer at
    [a] yields the same buffer pointer; the buffer of the temporary default
    construction is given back, no storage is added, and the use count of
    [a] goes up by one.  Destroying the copy (or the original: they are the
    same pointer) brings the store back to what it was. *)
Theorem AllocLambda_copy_then_destroy_restores_the_store :
  forall (a n : positive) (s : State),
    owners_allocated s -> owners s !! a = Some n ->
    exists s1,
      AllocLambda_copy (Some a) s = Returns (Some a) s1
      /\ memory s1 = memory s
      /\ owners s1 = <[a := Pos.succ n]> (owners s)
      /\ AllocLambda_destructor (Some a) s1 = Returns tt s.
Proof.
  intros a n s Hs Hn.
  set (a0 := fresh (dom (memory s))).
  assert (Hm0 : memory s !! a0 = None) by apply fresh_not_allocated.
  assert (Ho0 : owners s !! a0 = None) by now apply fresh_not_owned.
  assert (Hne : a0 <> a) by congruence.
  eexists. split; [|split; [|split]].
  - unfold AllocLambda_copy.
    rewrite (bind_eq _ _ _ _ _ (AllocLambda_default_eq s)). cbv zeta. fold a0.
    unfold unwinding, copyAssignLambda_AllocLambda_AllocLambda, shared_ptr_assign,
      shared_ptr_acquire.
    unfold_monad. cbn [owners memory].
    rewrite lookup_insert_ne, Hn by exact Hne.
    erewrite shared_ptr_release_last;
      [|cbn; rewrite lookup_insert_ne by congruence; apply lookup_insert_eq
       |cbn; apply lookup_insert_eq].
    rewrite bool_decide_eq_true_2 by reflexivity. reflexivity.
  - cbn [memory]. now apply delete_insert_id.
  - cbn [owners]. rewrite delete_insert_ne, delete_insert_id by congruence.
    reflexivity.
  - unfold AllocLambda_destructor.
    erewrite shared_ptr_release_shared;
      [|cbn; rewrite lookup_delete_ne by exact Hne; apply lookup_insert_eq
       |apply Pos.succ_not_1].
    cbn [memory owners].
    rewrite delete_insert_id by exact Hm0.
    rewrite delete_insert_ne, delete_insert_id by congruence.
    rewrite Pos.pred_succ, insert_insert_eq, insert_id by exact Hn.
    now rewrite State_eta.
Qed.

(** [AllocLambda(AllocLambda &&)] on a source that manages the buffer at
    [a] has the outcome of default-constructing the source and handing its
    old buffer pointer to the new lambda. *)
Lemma AllocLambda_move_eq (a n : positive) (s : State) :
  is_Some (memory s !! a) -> owners s !! a = Some n ->
  AllocLambda_move (Some a) s
  = (l2 ← AllocLambda_default; mret (Some a, l2)) s.
Proof.
  intros [b Hb] Hn.
  set (a0 := fresh (dom (memory s))).
  assert (Hm0 : memory s !! a0 = None) by apply fresh_not_allocated.
  assert (Hne : a0 <> a) by congruence.
  unfold AllocLambda_move.
  rewrite !(bind_eq _ _ _ _ _ (AllocLambda_default_eq s)). cbv zeta. fold a0.
  unfold unwinding, moveAssignLambda_AllocLambda_AllocLambda, shared_ptr_assign,
    shared_ptr_reset, shared_ptr_acquire.
  unfold_monad. cbn [owners memory].
  rewrite lookup_insert_ne, Hn by exact Hne.
  erewrite shared_ptr_release_last;
    [|cbn; rewrite lookup_insert_ne by congruence; apply lookup_insert_eq
     |cbn; apply lookup_insert_eq].
  rewrite bool_decide_eq_true_2 by reflexivity.
  erewrite shared_ptr_release_shared;
    [|cbn; rewrite lookup_delete_ne by exact Hne; apply lookup_insert_eq
     |apply Pos.succ_not_1].
  cbn [memory owners]. rewrite delete_insert_id by exact Hm0.
  match goal with |- context [allocLambdaBufferOp None ?op ?st] =>
    change (allocLambdaBufferOp None op st) with (AllocLambda_default st);
    rewrite (AllocLambda_default_eq st)
  end.
  cbv zeta. cbn [memory owners]. fold a0.
  do 2 f_equal.
  apply map_eq. intros i.
  destruct (decide (i = a0)) as [->|Hi0]; [now rewrite !lookup_insert_eq|].
  rewrite !(lookup_insert_ne _ a0) by congruence.
  destruct (decide (i = a)) as [->|Hia].
  - now rewrite lookup_insert_eq, Pos.pred_succ.
  - rewrite lookup_insert_ne, lookup_delete_ne, !lookup_insert_ne by congruence.
    reflexivity.
Qed.

(** Move-constructing an [AllocLambda] from one that manages the buffer at
    [a]: the new lambda is the old buffer pointer, the source gets a newly
    allocated buffer with one owner that holds the empty record and has
    the default size and alignment, and nothing else in the store changes:
    the buffer at [a] and its use count are what they were, and the buffer
    of the temporary default construction is given back. *)
Theorem AllocLambda_move_construction_hands_over_the_buffer :
  forall (a n : positive) (s : State),
    is_Some (memory s !! a) -> owners s !! a = Some n ->
    exists (a2 : positive) (s' : State),
      AllocLambda_move (Some a) s = Returns (Some a, Some a2) s'
      /\ memory s !! a2 = None
      /\ (let size := N.max CX_LAMBDA_BUF_SIZE (sizeof TAllocLambdaWrapperStub) in
          let alignment := N.max CX_LAMBDA_BUF_ALIGN (alignof TAllocLambdaWrapperStub) in
          memory s'
          = <[a2 := mkBlock size alignment (Some (AllocLambdaWrapperStub size alignment))]>
              (memory s))
      /\ owners s' = <[a2 := 1%positive]> (owners s).
Proof.
  intros a n s Hm Hn. rewrite (AllocLambda_move_eq a n s Hm Hn).
  rewrite (bind_eq _ _ _ _ _ (AllocLambda_default_eq s)). cbv zeta.
  eexists _, _. split; [reflexivity|]. split; [apply fresh_not_allocated|].
  split; reflexivity.
Qed.

(** The regular condition of heap buffers is set up by [AllocLambda()] and
    kept by every function assignment that returns; a buffer in that
    condition with one owner is given back by the destructor, which finds
    in the record the alignment the storage was obtained with. *)
Theorem AllocLambda_buffers_report_their_extent :
  (forall (s s' : State) (l : option positive),
     AllocLambda_default s = Returns l s' ->
     exists a, l = Some a /\ memory s !! a = None
       /\ AllocLambda_invariant s' a /\ owners s' !! a = Some 1%positive
       /\ forall a', AllocLambda_invariant s a' -> AllocLambda_invariant s' a')
  /\ (forall (Copy : bool) (l l' : option positive) (f : Callable) (s s' : State),
        AllocLambda_assign_function Copy l f s = Returns l' s' ->
        forall a', AllocLambda_invariant s a' -> AllocLambda_invariant s' a')
  /\ (forall (a : positive) (s : State),
        AllocLambda_invariant s a -> owners s !! a = Some 1%positive ->
        AllocLambda_destructor (Some a) s
        = Returns tt (mkState (delete a (memory s)) (delete a (owners s)))).
Proof.
  split; [|split].
  - intros s s' l. rewrite AllocLambda_default_eq. cbv zeta. intros [= <- <-].
    set (a := fresh (dom (memory s))).
    assert (Hm : memory s !! a = None) by apply fresh_not_allocated.
    exists a. split; [reflexivity|]. split; [exact Hm|]. split; [|split].
    + eexists _, _, _. cbn [memory]. split; [apply lookup_insert_eq|].
      cbn [allocates bufferSize bufferAlignment typeSize typeAlignment].
      repeat split; try reflexivity; apply N.le_max_r.
    + cbn. apply lookup_insert_eq.
    + intros a' (bs & ba & w & Hl & Hinv). exists bs, ba, w.
      split; [|exact Hinv]. cbn [memory].
      rewrite lookup_insert_ne by congruence. exact Hl.
  - intros Copy l l' f s s'. rewrite AllocLambda_assign_function_eq.
    destruct l as [a|]; [|discriminate].
    destruct (memory s !! a) as [[bs ba [w|]]|] eqn:E; try discriminate.
    destruct (sufficient _ _ _) eqn:Hs; [|discriminate].
    intros [= <- <-] a' (bs' & ba' & w' & Hl & Hinv).
    destruct (decide (a' = a)) as [->|Hne].
    + rewrite E in Hl. injection Hl as <- <- <-.
      destruct Hinv as (Hal & Hbs & Hba & Hts & Hta).
      eexists _, _, _. cbn [memory]. split; [apply lookup_insert_eq|].
      cbn [allocates bufferSize bufferAlignment typeSize typeAlignment].
      unfold sufficient in Hs.
      apply andb_true_iff in Hs as [_ Hs]. apply negb_true_iff, orb_false_iff in Hs.
      destruct Hs as [Hs1%N.ltb_ge Hs2%N.ltb_ge].
      repeat split; try assumption; lia.
    + exists bs', ba', w'. split; [|exact Hinv]. cbn [memory].
      rewrite lookup_insert_ne by congruence. exact Hl.
  - intros a s (bs & ba & w & Hl & _ & _ & Hba & _) Hn.
    unfold AllocLambda_destructor.
    rewrite (shared_ptr_release_last _ _ _ _ _ Hn Hl).
    now rewrite bool_decide_eq_true_2.
Qed.

End HeapBuffers.

(** [AllocLambda(double)] on the concrete platform: the 72-byte wrapper
    does not fit the 64-byte default buffer. *)
Lemma AllocLambda_assignment_never_reallocates_witness :
  AllocLambda_from_function (H:=LP64) true double initial = Undefined.
Proof.
  apply (proj2 (AllocLambda_assignment_never_reallocates (H:=LP64))).
  vm_compute. reflexivity.
Defined.

Lemma owners_allocated_initial {Args R : Type} `{Layout} :
  owners_allocated (initial : State Args R).
Proof. unfold owners_allocated, initial. cbn. now rewrite !dom_empty_L. Qed.

(** [{ AllocLambda a; }] from the empty store. *)
Lemma AllocLambda_construct_destroy_witness :
  (l ← AllocLambda_default (H:=LP64); AllocLambda_destructor l) (initial : State N N)
  = Returns tt initial.
Proof.
  apply (proj1 (AllocLambda_construct_destroy_restores_the_store (H:=LP64) initial
                  owners_allocated_initial)).
Defined.

Lemma owners_allocated_default {Args R : Type} `{Layout} :
  owners_allocated (after AllocLambda_default (initial : State Args R)).
Proof.
  unfold after. rewrite AllocLambda_default_eq. cbn.
  unfold owners_allocated. cbn. rewrite !dom_insert_L, !dom_empty_L. reflexivity.
Qed.

(** A copy of a default-constructed [AllocLambda], destroyed again. *)
Lemma AllocLambda_copy_then_destroy_witness :
  exists s1 : State N N,
    AllocLambda_copy (H:=LP64) (Some 1%positive) (after AllocLambda_default initial)
      = Returns (Some 1%positive) s1
    /\ memory s1 = memory (after AllocLambda_default (initial : State N N))
    /\ owners s1
       = <[1%positive := Pos.succ 1]>
           (owners (after AllocLambda_default (initial : State N N)))
    /\ AllocLambda_destructor (Some 1%positive) s1
       = Returns tt (after AllocLambda_default initial).
Proof.
  apply (AllocLambda_copy_then_destroy_restores_the_store (H:=LP64)).
  - apply owners_allocated_default.
  - vm_compute. reflexivity.
Defined.

(** Move-constructing from a default-constructed [AllocLambda]. *)
Lemma AllocLambda_move_construction_witness :
  exists (a2 : positive) (s' : State N N),
    AllocLambda_move (H:=LP64) (Some 1%positive) (after AllocLambda_default initial)
    = Returns (Some 1%positive, Some a2) s'
    /\ owners s'
       = <[a2 := 1%positive]> (owners (after AllocLambda_default (initial : State N N))).
Proof.
  destruct (AllocLambda_move_construction_hands_over_the_buffer (H:=LP64)
              1%positive 1%positive
              (after AllocLambda_default (initial : State N N)))
    as (a2 & s' & Hm & _ & _ & Ho).
  - exists (mkBlock 64 64 (Some (AllocLambdaWrapperStub 64 64))).
    vm_compute. reflexivity.
  - vm_compute. reflexivity.
  - exists a2, s'. split; [exact Hm|exact Ho].
Defined.

(** The buffer of a default-constructed [AllocLambda] is in its regular
    condition. *)
Lemma AllocLambda_invariant_witness :
  exists a : positive,
    Some 1%positive = Some a
    /\ memory (initial : State N N) !! a = None
    /\ AllocLambda_invariant (H:=LP64)
         (after AllocLambda_default (initial : State N N)) a
    /\ owners (after AllocLambda_default (initial : State N N)) !! a = Some 1%positive
    /\ forall a', AllocLambda_invariant (H:=LP64) (initial : State N N) a' ->
                  AllocLambda_invariant
                    (after AllocLambda_default (initial : State N N)) a'.
Proof.
  apply (proj1 (AllocLambda_buffers_report_their_extent (H:=LP64)) initial).
  vm_compute. reflexivity.
Defined.

(* ===================================================================== *)
(** ** Assigning a [Lambda] to an [AllocLambda]                            *)
(* ===================================================================== *)

Section CrossAssignment.

Context {Args R : Type}.
Context `{Layout}.

Abbreviation State := (State Args R).
Abbreviation M := (M Args R).
Abbreviation Wrapper := (Wrapper Args R).
Abbreviation Callable := (Callable Args R).

Lemma copyTo_heap_eq (w2 : Wrapper) (buffer : option positive)
    size alignment (s : State) :
  copyTo w2 buffer size alignment true s
  = ('(p, size', alignment') ←
       checkOrReallocate (heap_record w2) buffer size alignment;
     placement_new p (relocate_heap w2 size' alignment');; mret p) s.
Proof. destruct w2; reflexivity. Qed.

(** [AllocLambda<...> <- Lambda<...>] when the record fits the buffer the
    destination has. *)
Lemma copyAssignLambda_AllocLambda_Lambda_in_place (a1 l2 : positive)
    bs ba (w1 : Wrapper) bs2 ba2 (w2 : Wrapper) (s : State) :
  l2 <> a1 ->
  memory s !! a1 = Some (mkBlock bs ba (Some w1)) ->
  memory s !! l2 = Some (mkBlock bs2 ba2 (Some w2)) ->
  sufficient (heap_record w2) (bufferSize w1) (bufferAlignment w1) = true ->
  copyAssignLambda_AllocLambda_Lambda (Some a1) l2 s
  = Returns (Some a1)
      (mkState (<[a1 := mkBlock bs ba
                          (Some (relocate_heap w2 (bufferSize w1) (bufferAlignment w1)))]>
                  (memory s)) (owners s)).
Proof.
  intros Hne Hl1 Hl2 Hs.
  unfold copyAssignLambda_AllocLambda_Lambda, allocLambdaBufferOp.
  unfold mbind at 1, M_bind at 1. rewrite copyBuffer_eq, Hl1. cbv zeta.
  erewrite deref_live by (cbn; rewrite lookup_insert_ne by congruence; exact Hl2).
  rewrite copyTo_heap_eq. unfold mbind at 1, M_bind at 1.
  rewrite checkOrReallocate_eq, Hs.
  erewrite bind_eq by (eapply placement_new_block; cbn; apply lookup_insert_eq).
  unfold mret at 1, M_ret at 1.
  rewrite bool_decide_eq_false_2 by (intros Hx; now apply Hx).
  cbn [memory owners]. now rewrite insert_insert_eq.
Qed.

(** [AllocLambda<...> <- Lambda<...>] when the buffer has to be replaced:
    what is left to do once the record sits in the new buffer is to let go
    of the old one. *)
Lemma copyAssignLambda_AllocLambda_Lambda_grows (a1 l2 : positive)
    bs ba (w1 : Wrapper) bs2 ba2 (w2 : Wrapper) (s : State) :
  l2 <> a1 ->
  memory s !! a1 = Some (mkBlock bs ba (Some w1)) ->
  memory s !! l2 = Some (mkBlock bs2 ba2 (Some w2)) ->
  sufficient (heap_record w2) (bufferSize w1) (bufferAlignment w1) = false ->
  exists a size' alignment',
    memory s !! a = None /\ a <> a1 /\ a <> l2
    /\ reallocated (heap_record w2) (bufferSize w1) (bufferAlignment w1)
       = (size', alignment')
    /\ copyAssignLambda_AllocLambda_Lambda (Some a1) l2 s
       = (shared_ptr_release (Some a1);; mret (Some a))
           (mkState
              (<[a := mkBlock size' alignment'
                        (Some (relocate_heap w2 size' alignment'))]>
                 (<[a1 := mkBlock bs ba None]> (memory s)))
              (<[a := 1%positive]> (owners s))).
Proof.
  intros Hne Hl1 Hl2 Hs.
  set (s1 := mkState (<[a1 := mkBlock bs ba None]> (memory s)) (owners s)).
  set (a := fresh (dom (memory s1))).
  assert (Hf : memory s1 !! a = None) by apply not_elem_of_dom, is_fresh.
  assert (Ha1 : a <> a1).
  { intros Heq. rewrite Heq in Hf. cbn in Hf. rewrite lookup_insert_eq in Hf.
    discriminate. }
  assert (Hfs : memory s !! a = None).
  { cbn in Hf. now rewrite lookup_insert_ne in Hf by congruence. }
  assert (Ha2 : a <> l2) by congruence.
  destruct (reallocated (heap_record w2) (bufferSize w1) (bufferAlignment w1))
    as [size' alignment'] eqn:Er.
  exists a, size', alignment'.
  split; [exact Hfs|]. split; [exact Ha1|]. split; [exact Ha2|].
  split; [reflexivity|].
  unfold copyAssignLambda_AllocLambda_Lambda, allocLambdaBufferOp.
  unfold mbind at 1, M_bind at 1. rewrite copyBuffer_eq, Hl1. cbv zeta.
  erewrite deref_live by (cbn; rewrite lookup_insert_ne by congruence; exact Hl2).
  rewrite copyTo_heap_eq. unfold mbind at 1, M_bind at 1.
  rewrite checkOrReallocate_eq, Hs. cbv zeta. rewrite Er. fold s1 a.
  erewrite bind_eq by (eapply placement_new_block; cbn; apply lookup_insert_eq).
  unfold mret at 1, M_ret at 1.
  rewrite bool_decide_eq_true_2 by congruence.
  cbn [memory owners]. rewrite insert_insert_eq.
  unfold shared_ptr_reset_to. unfold mbind at 1, M_bind at 1. reflexivity.
Qed.

(** Copy-assigning a [Lambda] to an [AllocLambda] whose buffer is at [a1].
    When the record fits what the buffer reports, it is constructed in
    place, and every [AllocLambda] sharing the buffer calls what the
    [Lambda] calls.  When it does not fit and the destination is the only
    owner, the behaviour is undefined: the deleter asks the old buffer's
    record, already destroyed, for its alignment.  When it does not fit
    and the buffer has other owners, the destination gets a new buffer of
    its own and the others keep the old one without a record: a call
    through them has undefined behaviour. *)
Theorem AllocLambda_assigned_from_Lambda :
  forall (a1 n l2 : positive) bs ba (w1 w2 : Wrapper) (s : State),
    memory s !! a1 = Some (mkBlock bs ba (Some w1)) ->
    owners s !! a1 = Some n ->
    deref (Some l2) s = Returns w2 s ->
    l2 <> a1 ->
    let fits := sufficient (heap_record w2) (bufferSize w1) (bufferAlignment w1) in
    (fits = true ->
     exists s',
       copyAssignLambda_AllocLambda_Lambda (Some a1) l2 s = Returns (Some a1) s'
       /\ owners s' = owners s
       /\ forall args : Args,
            observe (AllocLambda_call (Some a1) args s')
            = observe (Lambda_call Unqualified l2 args s))
    /\ (fits = false -> n = 1%positive ->
        copyAssignLambda_AllocLambda_Lambda (Some a1) l2 s = Undefined)
    /\ (fits = false -> n <> 1%positive ->
        exists a s',
          copyAssignLambda_AllocLambda_Lambda (Some a1) l2 s = Returns (Some a) s'
          /\ memory s !! a = None
          /\ owners s' !! a = Some 1%positive
          /\ owners s' !! a1 = Some (Pos.pred n)
          /\ memory s' !! a1 = Some (mkBlock bs ba None)
          /\ (forall args : Args, AllocLambda_call (Some a1) args s' = Undefined)
          /\ (forall args : Args,
                observe (AllocLambda_call (Some a) args s')
                = observe (Lambda_call Unqualified l2 args s))).
Proof.
  intros a1 n l2 bs ba w1 w2 s Hl1 Hn Hd2 Hne fits.
  pose proof (deref_Returns _ _ _ _ Hd2) as (_ & ? & bs2 & ba2 & [= <-] & Hl2).
  assert (Hobs : forall (st : State) (args : Args),
            observe (Lambda_call Unqualified l2 args st)
            = observe (AllocLambda_call (Some l2) args st)) by reflexivity.
  split; [|split].
  - intros Hs. eexists. split; [|split].
    + now apply (copyAssignLambda_AllocLambda_Lambda_in_place
                   a1 l2 bs ba w1 bs2 ba2 w2 s).
    + reflexivity.
    + intros args. rewrite Hobs.
      eapply AllocLambda_call_observe;
        [eapply deref_live; cbn; apply lookup_insert_eq
        |exact Hd2|apply wrapped_relocate_heap].
  - intros Hs ->.
    destruct (copyAssignLambda_AllocLambda_Lambda_grows
                a1 l2 bs ba w1 bs2 ba2 w2 s Hne Hl1 Hl2 Hs)
      as (a & size' & alignment' & Hf & Ha1 & Ha2 & _ & ->).
    apply bind_Undefined. apply shared_ptr_release_raw with (bs := bs) (ba := ba); cbn.
    + now rewrite lookup_insert_ne by congruence.
    + rewrite lookup_insert_ne by congruence. apply lookup_insert_eq.
  - intros Hs Hn1.
    destruct (copyAssignLambda_AllocLambda_Lambda_grows
                a1 l2 bs ba w1 bs2 ba2 w2 s Hne Hl1 Hl2 Hs)
      as (a & size' & alignment' & Hf & Ha1 & Ha2 & _ & ->).
    eexists a, _. split; [|split; [|split; [|split; [|split; [|split]]]]].
    + erewrite bind_eq; [reflexivity|].
      apply shared_ptr_release_shared with (n := n); [|exact Hn1].
      cbn. now rewrite lookup_insert_ne by congruence.
    + exact Hf.
    + cbn. rewrite lookup_insert_ne by congruence. apply lookup_insert_eq.
    + cbn. apply lookup_insert_eq.
    + cbn. rewrite lookup_insert_ne by congruence. apply lookup_insert_eq.
    + intros args. unfold AllocLambda_call. apply bind_Undefined.
      apply deref_raw with (bs := bs) (ba := ba). cbn.
      rewrite lookup_insert_ne by congruence. apply lookup_insert_eq.
    + intros args. rewrite Hobs.
      eapply AllocLambda_call_observe;
        [eapply deref_live; cbn; apply lookup_insert_eq
        |exact Hd2|apply wrapped_relocate_heap].
Qed.

(** Converting a [Lambda] to an [AllocLambda], by the converting
    constructor or by the conversion operator: when the allocating
    counterpart of the record the [Lambda] holds fits the default heap
    buffer, the result reports and calls what the [Lambda] does and the
    [Lambda] is left as it is; when it does not fit, the behaviour is
    undefined. *)
Theorem Lambda_to_AllocLambda_conversion :
  forall (l2 : positive) (w2 : Wrapper) (s : State),
    deref (Some l2) s = Returns w2 s ->
    let fits :=
      sufficient (heap_record w2)
        (N.max CX_LAMBDA_BUF_SIZE (sizeof TAllocLambdaWrapperStub))
        (N.max CX_LAMBDA_BUF_ALIGN (alignof TAllocLambdaWrapperStub)) in
    (fits = true ->
     exists a s',
       AllocLambda_from_Lambda l2 s = Returns (Some a) s'
       /\ memory s !! a = None
       /\ memory s' !! l2 = memory s !! l2
       /\ owners s' !! a = Some 1%positive
       /\ AllocLambda_present (Some a) s' = Returns (present w2) s'
       /\ forall args : Args,
            observe (AllocLambda_call (Some a) args s')
            = observe (Lambda_call Unqualified l2 args s))
    /\ (fits = false -> AllocLambda_from_Lambda l2 s = Undefined).
Proof.
  intros l2 w2 s Hd2 fits.
  pose proof (deref_Returns _ _ _ _ Hd2) as (_ & ? & bs2 & ba2 & [= <-] & Hl2).
  set (a0 := fresh (dom (memory s))).
  assert (Hf : memory s !! a0 = None) by apply not_elem_of_dom, is_fresh.
  assert (Hne : l2 <> a0) by congruence.
  unfold AllocLambda_from_Lambda.
  rewrite (bind_eq _ _ _ _ _ (AllocLambda_default_eq s)). cbv zeta. fold a0.
  match goal with |- context [unwinding _ _ ?st] => set (s0 := st) end.
  assert (Hl1 : memory s0 !! a0
                = Some (mkBlock
                          (N.max CX_LAMBDA_BUF_SIZE (sizeof TAllocLambdaWrapperStub))
                          (N.max CX_LAMBDA_BUF_ALIGN (alignof TAllocLambdaWrapperStub))
                          (Some (AllocLambdaWrapperStub
                             (N.max CX_LAMBDA_BUF_SIZE (sizeof TAllocLambdaWrapperStub))
                             (N.max CX_LAMBDA_BUF_ALIGN (alignof TAllocLambdaWrapperStub))))))
    by (cbn; apply lookup_insert_eq).
  assert (Hl2' : memory s0 !! l2 = Some (mkBlock bs2 ba2 (Some w2)))
    by (cbn; now rewrite lookup_insert_ne by congruence).
  split.
  - intros Hs. eexists a0, _. split; [|split; [|split; [|split; [|split]]]].
    + apply unwinding_Returns.
      now apply (copyAssignLambda_AllocLambda_Lambda_in_place
                   a0 l2 _ _ _ bs2 ba2 w2 s0 Hne Hl1 Hl2').
    + exact Hf.
    + cbn. rewrite !lookup_insert_ne by congruence. reflexivity.
    + cbn. apply lookup_insert_eq.
    + unfold AllocLambda_present.
      erewrite bind_eq by (eapply deref_live; cbn; apply lookup_insert_eq).
      unfold mret, M_ret. now rewrite (proj2 (wrapped_relocate_heap _ _ _)).
    + intros args.
      change (Lambda_call Unqualified l2 args s) with (AllocLambda_call (Some l2) args s).
      eapply AllocLambda_call_observe;
        [eapply deref_live; cbn; apply lookup_insert_eq
        |exact Hd2|apply wrapped_relocate_heap].
  - intros Hs.
    destruct (copyAssignLambda_AllocLambda_Lambda_grows
                a0 l2 _ _ _ bs2 ba2 w2 s0 Hne Hl1 Hl2' Hs)
      as (a & size' & alignment' & Hfa & Ha1 & Ha2 & _ & Hc).
    unfold unwinding. rewrite Hc.
    erewrite bind_Undefined; [reflexivity|].
    eapply shared_ptr_release_raw; cbn.
    + rewrite lookup_insert_ne by congruence. apply lookup_insert_eq.
    + rewrite lookup_insert_ne by congruence. apply lookup_insert_eq.
Qed.

End CrossAssignment.

(** The inline lambda holding [double] is assigned to the first of two
    allocating lambdas that share the default buffer: the second one is
    left with a buffer that holds no record. *)
Lemma AllocLambda_assigned_from_Lambda_witness :
  exists (a : positive) (s' : State N N),
    copyAssignLambda_AllocLambda_Lambda (H:=LP64) (Some 1%positive) 2%positive
      (after shared_pair_and_inline initial) = Returns (Some a) s'
    /\ forall args : N, AllocLambda_call (Some 1%positive) args s' = Undefined.
Proof.
  destruct (AllocLambda_assigned_from_Lambda (H:=LP64)
              1%positive 2%positive 2%positive 64 64
              (AllocLambdaWrapperStub 64 64) (NonAllocLambdaWrapper double)
              (after shared_pair_and_inline initial))
    as (_ & _ & Hgrow);
    [vm_compute; reflexivity ..|discriminate|].
  destruct Hgrow as (a & s' & Hc & _ & _ & _ & _ & Hcall & _);
    [vm_compute; reflexivity|discriminate|].
  exists a, s'. split; [exact Hc|exact Hcall].
Defined.

(** Converting the inline lambda holding [double]: its allocating wrapper
    has 72 bytes. *)
Lemma Lambda_to_AllocLambda_conversion_witness :
  AllocLambda_from_Lambda (H:=LP64) 1%positive
    (after (Lambda_from_function true double) initial)
  = Undefined.
Proof.
  refine (proj2 (Lambda_to_AllocLambda_conversion (H:=LP64) 1%positive
                   (NonAllocLambdaWrapper double)
                   (after (Lambda_from_function true double) initial) _) _);
    vm_compute; reflexivity.
Defined.

(* ===================================================================== *)
(** ** What allocating lambdas never do                                    *)
(* ===================================================================== *)

Section NoThrow.

Context {Args R : Type}.
Context `{Layout}.

Abbreviation State := (State Args R).
Abbreviation M := (M Args R).
Abbreviation Wrapper := (Wrapper Args R).
Abbreviation Callable := (Callable Args R).

Lemma operator_delete_not_Throws (p : option positive) alignment (s s' : State) e :
  operator_delete p alignment s <> Throws e s'.
Proof.
  unfold operator_delete. destruct p as [a|]; [|discriminate].
  destruct (memory s !! a) as [b|]; [|discriminate].
  case_bool_decide; discriminate.
Qed.

Lemma shared_ptr_release_not_Throws (p : option positive) (s s' : State) e :
  shared_ptr_release p s <> Throws e s'.
Proof.
  unfold shared_ptr_release. destruct p as [a|]; [|discriminate].
  destruct (owners s !! a) as [n|]; [|discriminate].
  destruct n; try discriminate.
  unfold sharedBufferDeleter.
  intros [Hd|(w & s1 & _ & Hk)]%bind_Throws; [now apply deref_not_Throws in Hd|].
  apply bind_Throws in Hk as [Hd|(? & s2 & _ & Hk)];
    [now apply destroy_not_Throws in Hd|].
  now apply operator_delete_not_Throws in Hk.
Qed.

Lemma shared_ptr_acquire_not_Throws (p : option positive) (s s' : State) e :
  shared_ptr_acquire p s <> Throws e s'.
Proof.
  unfold shared_ptr_acquire. destruct p as [a|]; [|discriminate].
  destruct (owners s !! a); discriminate.
Qed.

Lemma shared_ptr_assign_not_Throws (dst src : option positive) (s s' : State) e :
  shared_ptr_assign dst src s <> Throws e s'.
Proof.
  unfold shared_ptr_assign.
  intros [Ha|(? & s1 & _ & Hk)]%bind_Throws;
    [now apply shared_ptr_acquire_not_Throws in Ha|].
  apply bind_Throws in Hk as [Hr|(? & s2 & _ & Hk)];
    [now apply shared_ptr_release_not_Throws in Hr|discriminate].
Qed.

Lemma allocLambdaBufferOp_not_Throws (buf : option positive)
    (op : option positive -> M (option positive)) (s s' : State) e :
  (forall p s1 s2, op p s1 <> Throws e s2) ->
  allocLambdaBufferOp buf op s <> Throws e s'.
Proof.
  intros Hop. unfold allocLambdaBufferOp.
  intros [Ho|(p & s1 & _ & Hk)]%bind_Throws; [now apply Hop in Ho|].
  case_bool_decide; [|discriminate].
  unfold shared_ptr_reset_to in Hk.
  apply bind_Throws in Hk as [Hs|(? & s2 & _ & Hk)].
  { destruct p; discriminate. }
  apply bind_Throws in Hk as [Hr|(? & s3 & _ & Hk)];
    [now apply shared_ptr_release_not_Throws in Hr|discriminate].
Qed.

Lemma copyTo_heap_not_Throws (w2 : Wrapper) (buffer : option positive)
    size alignment (s s' : State) e :
  copyTo w2 buffer size alignment true s <> Throws e s'.
Proof.
  assert (Heq : copyTo w2 buffer size alignment true s
          = ('(p, size', alignment') ←
               checkOrReallocate (heap_record w2) buffer size alignment;
             placement_new p (relocate_heap w2 size' alignment');; mret p) s)
    by (destruct w2; reflexivity).
  rewrite Heq.
  intros [Hc|([[p sz] al] & s1 & _ & Hk)]%bind_Throws;
    [now apply checkOrReallocate_not_Throws in Hc|].
  apply bind_Throws in Hk as [Hp|(? & s2 & _ & Hk)];
    [now apply placement_new_not_Throws in Hp|discriminate].
Qed.

(** What the model leaves aside can throw: running out of storage, and a
    callable whose copy or move constructor throws (see [Callable]).  That
    apart, no operation on an [AllocLambda] lets an exception escape:
    default construction, assignment and construction from a callable,
    copy assignment from an [AllocLambda] or from a [Lambda], move
    assignment from an [AllocLambda], and destruction either return or,
    where the buffer would have to be replaced or holds no record, have
    undefined behaviour.  In particular none of them runs the buffer
    check: [IncompatibleLambdaError] is never raised for an allocating
    destination. *)
Theorem AllocLambda_operations_raise_no_exception_of_their_own :
  forall (e : Exception) (s s' : State),
    AllocLambda_default s <> Throws e s'
    /\ (forall (Copy : bool) (l : option positive) (f : Callable),
          AllocLambda_assign_function Copy l f s <> Throws e s')
    /\ (forall (Copy : bool) (f : Callable),
          AllocLambda_from_function Copy f s <> Throws e s')
    /\ (forall l1 l2 : option positive,
          copyAssignLambda_AllocLambda_AllocLambda l1 l2 s <> Throws e s')
    /\ (forall (l1 : option positive) (l2 : positive),
          copyAssignLambda_AllocLambda_Lambda l1 l2 s <> Throws e s')
    /\ (forall l1 l2 : option positive,
          moveAssignLambda_AllocLambda_AllocLambda l1 l2 s <> Throws e s')
    /\ (forall l : option positive, AllocLambda_destructor l s <> Throws e s').
Proof.
  intros e s s'.
  assert (Hassign : forall e0 Copy (l : option positive) (f : Callable) (st st' : State),
            AllocLambda_assign_function Copy l f st <> Throws e0 st').
  { intros e0 Copy l f st st'. rewrite AllocLambda_assign_function_eq.
    destruct l as [a|]; [|discriminate].
    destruct (memory st !! a) as [[bs ba [w|]]|]; try discriminate.
    destruct (sufficient _ _ _); discriminate. }
  split; [|split; [|split; [|split; [|split; [|split]]]]].
  - rewrite AllocLambda_default_eq. discriminate.
  - intros Copy l f. apply Hassign.
  - intros Copy f. unfold AllocLambda_from_function.
    rewrite (bind_eq _ _ _ _ _ (AllocLambda_default_eq s)). cbv zeta.
    rewrite unwinding_eq by (intros; apply Hassign). apply Hassign.
  - intros l1 l2. apply shared_ptr_assign_not_Throws.
  - intros l1 l2. unfold copyAssignLambda_AllocLambda_Lambda.
    apply allocLambdaBufferOp_not_Throws. intros p s1 s2.
    rewrite copyBuffer_eq.
    destruct p as [a1|]; [|discriminate].
    destruct (memory s1 !! a1) as [[bs ba [w1|]]|]; try discriminate.
    cbv zeta.
    match goal with |- context [deref ?q ?st] =>
      destruct (deref q st) as [w2 s3| | |]; try discriminate
    end.
    apply copyTo_heap_not_Throws.
  - intros l1 l2. unfold moveAssignLambda_AllocLambda_AllocLambda.
    intros [Ha|(q1 & s1 & _ & Hk)]%bind_Throws;
      [now apply shared_ptr_assign_not_Throws in Ha|].
    apply bind_Throws in Hk as [Hr|(q2 & s2 & _ & Hk)].
    { unfold shared_ptr_reset in Hr.
      apply bind_Throws in Hr as [Hr|(? & ? & _ & Hr)];
        [now apply shared_ptr_release_not_Throws in Hr|discriminate]. }
    apply bind_Throws in Hk as [Hi|(q3 & s3 & _ & Hk)]; [|discriminate].
    revert Hi. apply allocLambdaBufferOp_not_Throws.
    intros p st st'. apply initEmptyLambda_alloc_not_Throws.
  - intros l. apply shared_ptr_release_not_Throws.
Qed.

End NoThrow.
